(** * Plugin instance app manager (plugininstances/services/manager.py)

    A shallow embedding of [PluginInstanceManager] and of the Python
    primitives it is built from, followed by the properties of the
    job-orchestration coordinator that were checked against it.

    Conventions.
    - A Python [str] is a list of Unicode code points ([list N]).
    - A Python [bytes] is a list of [byte].
    - A value obtained from [json.loads] is a [json] tree; floating point
      numbers are outside the model.
    - Methods run in the monad [M]: they thread a [world] (object store,
      local files, job record, log, trace of external calls) and either
      return a value or raise a Python exception. *)

From Stdlib Require Import ZArith NArith Lia List Ascii String Bool.
From Stdlib.Strings Require Import Byte.
From stdpp Require Import base tactics option list gmap.

Local Open Scope Z_scope.

(** ** Python strings *)

Abbreviation str := (list N).

Definition lit (s : string) : str :=
  map N_of_ascii (list_ascii_of_string s).

(** [str.isspace] for one code point, the table used by [str.split()] and
    [str.strip()] without arguments. *)
Definition isspace (c : N) : bool :=
  ((9 <=? c) && (c <=? 13) || (28 <=? c) && (c <=? 32)
   || (c =? 133) || (c =? 160) || (c =? 5760)
   || (8192 <=? c) && (c <=? 8202)
   || (c =? 8232) || (c =? 8233) || (c =? 8239) || (c =? 8287)
   || (c =? 12288))%N.

Definition is_char (c : string) (x : N) : bool :=
  match lit c with
  | [k] => (x =? k)%N
  | _ => false
  end.

(** [s.lstrip(chars)] and [s.rstrip(chars)], with the set of characters
    given as a predicate. *)
Fixpoint lstrip_by (p : N -> bool) (s : str) : str :=
  match s with
  | [] => []
  | c :: r => if p c then lstrip_by p r else s
  end.

Definition rstrip_by (p : N -> bool) (s : str) : str :=
  rev (lstrip_by p (rev s)).

(** [s.strip()] *)
Definition strip (s : str) : str := rstrip_by isspace (lstrip_by isspace s).

(** [s.split()]: the maximal runs of non-whitespace characters.  [cur] is
    the run being read, most recent character first. *)
Fixpoint split_ws_from (cur : str) (s : str) : list str :=
  match s with
  | [] => match cur with [] => [] | _ => [rev cur] end
  | c :: r =>
      if isspace c
      then match cur with
           | [] => split_ws_from [] r
           | _ => rev cur :: split_ws_from [] r
           end
      else split_ws_from (c :: cur) r
  end.

Definition split_ws (s : str) : list str := split_ws_from [] s.

(** [sep.join(parts)] *)
Fixpoint join (sep : str) (parts : list str) : str :=
  match parts with
  | [] => []
  | [p] => p
  | p :: rest => p ++ sep ++ join sep rest
  end.

Fixpoint startswith (p s : str) : bool :=
  match p, s with
  | [], _ => true
  | _ :: _, [] => false
  | a :: p', b :: s' => (a =? b)%N && startswith p' s'
  end.

Definition endswith (p s : str) : bool := startswith (rev p) (rev s).

(** [needle in hay] for two strings *)
Fixpoint str_in (needle hay : str) : bool :=
  match hay with
  | [] => startswith needle []
  | _ :: r => startswith needle hay || str_in needle r
  end.

Definition str_eqb (a b : str) : bool := bool_decide (a = b).

(** [s.rfind(c)] for a one-character needle: the highest index, or -1. *)
Fixpoint rfind_from (c : N) (s : str) (i last : Z) : Z :=
  match s with
  | [] => last
  | x :: r => rfind_from c r (i + 1) (if (x =? c)%N then i else last)
  end.

Definition rfind (c : N) (s : str) : Z := rfind_from c s 0 (-1).

(** Decimal rendering of a natural number, as [str(n)] gives it. *)
Fixpoint digits_from (fuel : nat) (n : N) (acc : str) : str :=
  let acc' := (48 + n mod 10)%N :: acc in
  match fuel with
  | O => acc'
  | S f => if (n / 10 =? 0)%N then acc' else digits_from f (n / 10)%N acc'
  end.

Definition str_of_N (n : N) : str := digits_from (N.to_nat (N.size n)) n [].

Definition str_of_Z (z : Z) : str :=
  if z <? 0 then lit "-" ++ str_of_N (Z.abs_N z) else str_of_N (Z.abs_N z).

(** ** posixpath *)

Definition slash : N := 47%N.
Definition is_slash (c : N) : bool := (c =? slash)%N.

(** [os.path.join(a, b)] *)
Definition path_join (a b : str) : str :=
  if startswith [slash] b then b
  else if bool_decide (a = []) || endswith [slash] a then a ++ b
  else a ++ [slash] ++ b.

(** [os.path.dirname(p)] *)
Definition dirname (p : str) : str :=
  let i := rfind slash p + 1 in
  let head := take (Z.to_nat i) p in
  if negb (bool_decide (head = [])) && negb (forallb is_slash head)
  then rstrip_by is_slash head
  else head.


(** ** JSON values, as [json.loads] builds them

    A dict keeps its items in insertion order.  Numbers are integers; a
    document with a floating point number is outside the model. *)

Unset Elimination Schemes.
Inductive json : Type :=
  | JNull
  | JBool (b : bool)
  | JInt (n : Z)
  | JStr (s : str)
  | JList (items : list json)
  | JDict (items : list (str * json)).
Set Elimination Schemes.

(** [d[key]] on a dict held as its list of items *)
Fixpoint assoc (key : str) (items : list (str * json)) : option json :=
  match items with
  | [] => None
  | (k, v) :: rest => if str_eqb k key then Some v else assoc key rest
  end.

(** Python truth value of [bool(v)] *)
Definition truthy (v : json) : bool :=
  match v with
  | JNull => false
  | JBool b => b
  | JInt n => negb (n =? 0)
  | JStr s => negb (bool_decide (s = []))
  | JList l => negb (bool_decide (length l = 0%nat))
  | JDict d => negb (bool_decide (length d = 0%nat))
  end.

(** *** [json.dumps] with its default options *)

Definition hex_digit (n : N) : N :=
  (if n <? 10 then 48 + n else 87 + n)%N.

Definition hex4 (c : N) : str :=
  [hex_digit (c / 4096 mod 16); hex_digit (c / 256 mod 16);
   hex_digit (c / 16 mod 16); hex_digit (c mod 16)]%N.

Definition backslash : N := 92%N.
Definition dquote : N := 34%N.

Definition u_escape (c : N) : str := backslash :: 117%N :: hex4 c.

(** One character of [py_encode_basestring_ascii] *)
Definition escape_char (c : N) : str :=
  (if c =? dquote then [backslash; dquote]
   else if c =? backslash then [backslash; backslash]
   else if c =? 10 then [backslash; 110]
   else if c =? 13 then [backslash; 114]
   else if c =? 9 then [backslash; 116]
   else if c =? 8 then [backslash; 98]
   else if c =? 12 then [backslash; 102]
   else if (32 <=? c) && (c <=? 126) then [c]
   else if c <? 65536 then u_escape c
   else let v := c - 65536 in
        u_escape (55296 + (v / 1024) mod 1024)
        ++ u_escape (56320 + v mod 1024))%N.

Definition json_quote (s : str) : str :=
  dquote :: concat (map escape_char s) ++ [dquote].

Fixpoint json_dumps (j : json) : str :=
  match j with
  | JNull => lit "null"
  | JBool true => lit "true"
  | JBool false => lit "false"
  | JInt n => str_of_Z n
  | JStr s => json_quote s
  | JList l => lit "[" ++ join (lit ", ") (map json_dumps l) ++ lit "]"
  | JDict d =>
      lit "{"
      ++ join (lit ", ")
           (map (fun kv => match kv with
                           | (k, v) => json_quote k ++ lit ": " ++ json_dumps v
                           end) d)
      ++ lit "}"
  end.

(** ** [repr] and [str] of a value *)

Definition squote : N := 39%N.

Definition hex2 (c : N) : str :=
  [hex_digit (c / 16 mod 16); hex_digit (c mod 16)]%N.

Definition hex8 (c : N) : str :=
  hex4 (c / 65536) ++ hex4 (c mod 65536).

(** One character of [repr(s)], inside the quote character [quote];
    [isprintable] is the Unicode table behind [str.isprintable]. *)
Definition repr_char (isprintable : N -> bool) (quote c : N) : str :=
  (if (c =? quote) || (c =? backslash) then [backslash; c]
   else if c =? 9 then [backslash; 116]
   else if c =? 10 then [backslash; 110]
   else if c =? 13 then [backslash; 114]
   else if (c <? 32) || (c =? 127) then backslash :: 120 :: hex2 c
   else if c <? 127 then [c]
   else if isprintable c then [c]
   else if c <? 256 then backslash :: 120 :: hex2 c
   else if c <? 65536 then backslash :: 117 :: hex4 c
   else backslash :: 85 :: hex8 c)%N.

(** [repr(s)]: single quotes, unless the string has one and no double quote *)
Definition repr_str (isprintable : N -> bool) (s : str) : str :=
  let quote :=
    if existsb (N.eqb squote) s && negb (existsb (N.eqb dquote) s)
    then dquote else squote in
  quote :: concat (map (repr_char isprintable quote) s) ++ [quote].

Fixpoint py_repr (isprintable : N -> bool) (v : json) : str :=
  match v with
  | JNull => lit "None"
  | JBool true => lit "True"
  | JBool false => lit "False"
  | JInt n => str_of_Z n
  | JStr s => repr_str isprintable s
  | JList l =>
      lit "[" ++ join (lit ", ") (map (py_repr isprintable) l) ++ lit "]"
  | JDict d =>
      lit "{"
      ++ join (lit ", ")
           (map (fun kv => match kv with
                           | (k, x) =>
                               repr_str isprintable k ++ lit ": "
                               ++ py_repr isprintable x
                           end) d)
      ++ lit "}"
  end.

(** ** Bytes: UTF-8, ASCII and base64 *)

Definition byte_of_N (n : N) : byte :=
  match Byte.of_N n with
  | Some b => b
  | None => x00
  end.

(** One code point of [s.encode('utf-8')]; [None] is UnicodeEncodeError
    (a surrogate, or a number that is no code point). *)
Definition utf8_encode_char (c : N) : option (list byte) :=
  (if c <? 128 then Some [byte_of_N c]
   else if c <? 2048 then
     Some [byte_of_N (192 + c / 64); byte_of_N (128 + c mod 64)]
   else if c <? 65536 then
     if (55296 <=? c) && (c <=? 57343) then None
     else Some [byte_of_N (224 + c / 4096);
                byte_of_N (128 + (c / 64) mod 64);
                byte_of_N (128 + c mod 64)]
   else if c <? 1114112 then
     Some [byte_of_N (240 + c / 262144);
           byte_of_N (128 + (c / 4096) mod 64);
           byte_of_N (128 + (c / 64) mod 64);
           byte_of_N (128 + c mod 64)]
   else None)%N.

Fixpoint utf8_encode (s : str) : option (list byte) :=
  match s with
  | [] => Some []
  | c :: r =>
      match utf8_encode_char c, utf8_encode r with
      | Some bs, Some rest => Some (bs ++ rest)
      | _, _ => None
      end
  end.

(** [b.decode('ascii')]; [None] is UnicodeDecodeError. *)
Fixpoint ascii_decode (bs : list byte) : option str :=
  match bs with
  | [] => Some []
  | b :: r =>
      if (Byte.to_N b <? 128)%N
      then match ascii_decode r with
           | Some s => Some (Byte.to_N b :: s)
           | None => None
           end
      else None
  end.

(** The base64 alphabet, by index *)
Definition b64_char (i : N) : N :=
  (if i <? 26 then 65 + i
   else if i <? 52 then 71 + i
   else if i <? 62 then i - 4
   else if i =? 62 then 43
   else 47)%N.

Definition b64_pad : N := 61%N.

Definition b64_quad (n : N) (keep : nat) : list byte :=
  map byte_of_N
    (take keep
       [b64_char (n / 262144); b64_char ((n / 4096) mod 64);
        b64_char ((n / 64) mod 64); b64_char (n mod 64)]%N
     ++ repeat b64_pad (4 - keep)).

(** [base64.b64encode] *)
Fixpoint b64encode (bs : list byte) : list byte :=
  match bs with
  | [] => []
  | [a] => b64_quad (Byte.to_N a * 65536) 2
  | [a; b] => b64_quad (Byte.to_N a * 65536 + Byte.to_N b * 256) 3
  | a :: b :: c :: rest =>
      b64_quad (Byte.to_N a * 65536 + Byte.to_N b * 256 + Byte.to_N c) 4
      ++ b64encode rest
  end.

(** ** Exceptions and outcomes *)

Inductive exn : Type :=
  | ClientException (detail : str)
  | OSError (detail : str)
  | FileNotFoundError
  | KeyError (key : str)
  | IndexError
  | TypeError
  | AttributeError
  | UnboundLocalError (name : str)
  | UnicodeError
  | JSONDecodeError.

Inductive outcome (A : Type) : Type :=
  | Ret (a : A)
  | Raise (e : exn).
Arguments Ret {A} a.
Arguments Raise {A} e.

(** ** The world a method runs in *)

(** Calls made to the object-store client *)
Inductive swift_op : Type :=
  | OpPathExists (path : str)
  | OpObjExists (path : str)
  | OpUploadObj (path contents content_type : str)
  | OpLs (path : str)
  | OpDownloadObj (path : str).

Inductive level : Type := INFO | ERROR.

(** An argument of a log call: a string, or the text of
    [json.dumps(j, indent=..., sort_keys=...)], kept unrendered. *)
Inductive logarg : Type :=
  | AStr (s : str)
  | AJson (indent : nat) (sort_keys : bool) (j : json)
  | ADatetime (t : Z).

Record log_record : Type := LogRecord {
  log_level : level;
  log_fmt : str;
  log_args : list logarg
}.

(** The attributes of [self.c_plugin_inst] that the manager assigns *)
Record job_row : Type := JobRow {
  status : str;
  end_date : option Z;
  summary : str;
  raw : str
}.

Inductive field : Type := FStatus | FEndDate | FSummary | FRaw.

(** What a method does to its collaborators, in order *)
Inductive event : Type :=
  | EvRemote (url : str) (msg : json)
  | EvSwift (op : swift_op)
  | EvRegisterOutputFiles (swiftState : json)
  | EvSetattr (f : field)
  | EvSave (row : job_row)
  | EvMakedirs (path : str).

(** One member of a zip archive: its name and its data *)
Abbreviation zip_entry := (str * str)%type.

Record world : Type := World {
  tick : nat;                         (* external calls made so far *)
  objects : gmap str (str * str);     (* object store: key -> (data, content type) *)
  dirs : gset str;                    (* local directories *)
  zips : gmap str (list zip_entry);   (* local zip files *)
  inst : job_row;                     (* self.c_plugin_inst, in memory *)
  db : job_row;                       (* the row as last saved *)
  log : list log_record;
  trace : list event
}.

(** What the collaborators answer.  Each answer may depend on the number
    of external calls made before it. *)
Record env : Type := Env {
  remote_reply : nat -> str -> json -> option json;
  swift_fault : nat -> swift_op -> option str;
  makedirs_fault : nat -> str -> option str;
  clock : nat -> Z
}.

Definition M (A : Type) : Type := world -> outcome A * world.

#[global] Instance M_ret : MRet M := fun A a w => (Ret a, w).

#[global] Instance M_bind : MBind M := fun A B f m w =>
  match m w with
  | (Ret a, w') => f a w'
  | (Raise e, w') => (Raise e, w')
  end.

Definition raise {A : Type} (e : exn) : M A := fun w => (Raise e, w).

Definition get_world : M world := fun w => (Ret w, w).

Definition next_tick : M nat := fun w =>
  (Ret (tick w),
   World (S (tick w)) (objects w) (dirs w) (zips w) (inst w) (db w) (log w) (trace w)).

Definition emit (e : event) : M unit := fun w =>
  (Ret tt,
   World (tick w) (objects w) (dirs w) (zips w) (inst w) (db w) (log w) (trace w ++ [e])).

Definition logger (l : level) (fmt : str) (args : list logarg) : M unit := fun w =>
  (Ret tt,
   World (tick w) (objects w) (dirs w) (zips w) (inst w) (db w)
     (log w ++ [LogRecord l fmt args]) (trace w)).

Definition set_objects (o : gmap str (str * str)) : M unit := fun w =>
  (Ret tt, World (tick w) o (dirs w) (zips w) (inst w) (db w) (log w) (trace w)).

Definition set_dirs (d : gset str) : M unit := fun w =>
  (Ret tt, World (tick w) (objects w) d (zips w) (inst w) (db w) (log w) (trace w)).

Definition set_zips (z : gmap str (list zip_entry)) : M unit := fun w =>
  (Ret tt, World (tick w) (objects w) (dirs w) z (inst w) (db w) (log w) (trace w)).

Definition set_inst (r : job_row) : M unit := fun w =>
  (Ret tt, World (tick w) (objects w) (dirs w) (zips w) r (db w) (log w) (trace w)).

Definition set_db (r : job_row) : M unit := fun w =>
  (Ret tt, World (tick w) (objects w) (dirs w) (zips w) (inst w) r (log w) (trace w)).

(** [try: body / except ClientException as e: handler(str(e)) / else: orelse] *)
Definition try_ClientException {A B : Type}
    (body : M A) (handler : str -> M B) (orelse : A -> M B) : M B := fun w =>
  match body w with
  | (Ret a, w') => orelse a w'
  | (Raise (ClientException d), w') => handler d w'
  | (Raise e, w') => (Raise e, w')
  end.

(** [try: body / except OSError as e: handler(str(e))] *)
Definition try_OSError (body : M unit) (handler : str -> M unit) : M unit := fun w =>
  match body w with
  | (Raise (OSError d), w') => handler d w'
  | r => r
  end.

(** [try: body / except: handler] *)
Definition try_any {A : Type} (body : M A) (handler : M A) : M A := fun w =>
  match body w with
  | (Raise _, w') => handler w'
  | r => r
  end.

(** [fmt % args] for a format whose only directives are [%s] *)
Fixpoint percent (fmt : str) (args : list str) : str :=
  match fmt with
  | 37%N :: 115%N :: rest =>
      match args with
      | a :: args' => a ++ percent rest args'
      | [] => 37%N :: 115%N :: percent rest []
      end
  | c :: rest => c :: percent rest args
  | [] => []
  end.

(** ** The job store's records (plugins/models.py, plugininstances/models.py) *)

Record PluginParameter : Type := {
  db_name : str;
  db_flag : str;
  db_action : str;
  db_type : str
}.

Record Plugin : Type := {
  meta_name : str;
  meta_type : str;
  selfpath : str;
  selfexec : str;
  execshell : str;
  dock_image : str;
  parameters : list PluginParameter
}.

(** The fields of a plugin instance the manager reads.  The resource
    limits are kept as the text [str()] gives for them. *)
Unset Elimination Schemes.
Inductive PluginInstance : Type := {
  id : Z;
  plugin : Plugin;
  previous : option PluginInstance;
  owner_username : str;
  feed_id : Z;
  compute_resource_name : str;
  compute_url : str;
  number_of_workers : Z;
  cpu_limit : str;
  memory_limit : str;
  gpu_limit : str
}.
Set Elimination Schemes.

(** Modelled from the spec: [PluginInstance.get_output_path] lives in
    plugininstances/models.py.  A root job writes to
    [<owner>/feed_<feed-id>/<plugin-name>_<job-id>/data]; a downstream job
    replaces the final segment of its previous job's path by
    [<plugin-name>_<job-id>/data]. *)
Fixpoint get_output_path (pi : PluginInstance) : str :=
  let leaf := meta_name (plugin pi) ++ lit "_" ++ str_of_Z (id pi) ++ lit "/data" in
  match previous pi with
  | None =>
      owner_username pi ++ lit "/feed_" ++ str_of_Z (feed_id pi) ++ lit "/" ++ leaf
  | Some prev => path_join (dirname (get_output_path prev)) leaf
  end.

(** ** PluginInstanceManager *)

Record PluginInstanceManager : Type := {
  c_plugin_inst : PluginInstance;
  home : str                          (* os.path.expanduser("~") *)
}.

Definition str_app_container_inputdir : str := lit "/share/incoming".
Definition str_app_container_outputdir : str := lit "/share/outgoing".

Definition str_job_id (self : PluginInstanceManager) : str :=
  lit "chris-jid-" ++ str_of_Z (id (c_plugin_inst self)).

Definition data_dir (self : PluginInstanceManager) : str :=
  path_join (home self) (lit "data").

(** What the argument loop of [run_plugin_instance_app] builds *)
Record arg_state : Type := ArgState {
  app_args : list json;
  path_param_names : list str;
  unextpath_param_names : list str
}.

(** The body run for the declared parameter whose name matches *)
Definition apply_db_param (db_param : PluginParameter) (param_name : str)
    (param_value : json) (st : arg_state) : arg_state :=
  let st :=
    if str_eqb (db_action db_param) (lit "store") then
      let args := app_args st ++ [JStr (db_flag db_param)] in
      let value := param_value in
      let '(unext, value) :=
        if str_eqb (db_type db_param) (lit "unextpath")
        then (unextpath_param_names st ++ [param_name],
              JStr str_app_container_inputdir)
        else (unextpath_param_names st, value) in
      let '(paths, value) :=
        if str_eqb (db_type db_param) (lit "path")
        then (path_param_names st ++ [param_name],
              JStr str_app_container_inputdir)
        else (path_param_names st, value) in
      ArgState (args ++ [value]) paths unext
    else st in
  let st :=
    if str_eqb (db_action db_param) (lit "store_true") && truthy param_value
    then ArgState (app_args st ++ [JStr (db_flag db_param)])
           (path_param_names st) (unextpath_param_names st)
    else st in
  if str_eqb (db_action db_param) (lit "store_false") && negb (truthy param_value)
  then ArgState (app_args st ++ [JStr (db_flag db_param)])
         (path_param_names st) (unextpath_param_names st)
  else st.

(** [for db_param in db_parameters: if db_param.name == param_name: ...; break] *)
Fixpoint scan_db_parameters (db_parameters : list PluginParameter)
    (param_name : str) (param_value : json) (st : arg_state) : arg_state :=
  match db_parameters with
  | [] => st
  | db_param :: rest =>
      if str_eqb (db_name db_param) param_name
      then apply_db_param db_param param_name param_value st
      else scan_db_parameters rest param_name param_value st
  end.

(** [for param_name in parameter_dict: param_value = parameter_dict[param_name]; ...] *)
Fixpoint scan_parameter_dict (db_parameters : list PluginParameter)
    (parameter_dict : list (str * json)) (names : list str)
    (st : arg_state) : outcome arg_state :=
  match names with
  | [] => Ret st
  | param_name :: rest =>
      match assoc param_name parameter_dict with
      | None => Raise (KeyError param_name)
      | Some param_value =>
          scan_parameter_dict db_parameters parameter_dict rest
            (scan_db_parameters db_parameters param_name param_value st)
      end
  end.

(** [seq[-1]] *)
Definition last_item {A : Type} (l : list A) : option A := last l.

Definition zip_name (filename : str) : str :=
  (fix upto (s : str) : str :=
     match s with
     | [] => []
     | c :: r => if (c =? 0)%N then [] else c :: upto r
     end) filename.

Definition ZipFile_writestr (zipfile_path arcname data : str) : M unit :=
  w ← get_world;
  set_zips (<[zipfile_path := default [] (zips w !! zipfile_path) ++ [(zip_name arcname, data)]]> (zips w)).

(** [zipfile.ZipFile(path, 'w', ...)]: the file is created empty; its
    directory has to exist. *)
Definition ZipFile_open_w (zipfile_path : str) : M unit :=
  w ← get_world;
  if bool_decide (dirname zipfile_path = []) || bool_decide (dirname zipfile_path ∈ dirs w)
  then set_zips (<[zipfile_path := []]> (zips w))
  else raise FileNotFoundError.

Definition os_path_exists (path : str) : M bool :=
  w ← get_world;
  mret (bool_decide (path ∈ dirs w) || bool_decide (is_Some (zips w !! path))).

Definition lift_outcome {A : Type} (o : outcome A) : M A := fun w => (o, w).

(** [v[key]] for a string key *)
Definition getitem (v : json) (key : str) : M json :=
  match v with
  | JDict items =>
      match assoc key items with
      | Some x => mret x
      | None => raise (KeyError key)
      end
  | _ => raise TypeError
  end.

(** [v[0]] *)
Definition getitem0 (v : json) : M json :=
  match v with
  | JList (x :: _) => mret x
  | JStr (c :: _) => mret (JStr [c])
  | JList [] | JStr [] => raise IndexError
  | JDict _ => raise (KeyError (lit "0"))
  | _ => raise TypeError
  end.

(** [needle in v] for a string needle *)
Definition contains (needle : str) (v : json) : M bool :=
  match v with
  | JStr s => mret (str_in needle s)
  | JDict items => mret (existsb (fun kv => str_eqb (fst kv) needle) items)
  | JList l =>
      mret (existsb (fun x => match x with
                              | JStr s => str_eqb s needle
                              | _ => false
                              end) l)
  | _ => raise TypeError
  end.

(** The keys of the object store that start with [path] *)
Definition keys_with_prefix (path : str) (objs : gmap str (str * str)) : list str :=
  filter (fun k => startswith path k = true) (map fst (map_to_list objs)).

Section Manager.

Context (E : env).

(** [zlib.compress], taken as given *)
Variable zlib_compress : list byte -> list byte.

(** [str.isprintable] for a code point above U+007F: a table of the
    Unicode database, taken as given *)
Variable isprintable : N -> bool.

Variable self : PluginInstanceManager.

(** [str(v)] *)
Definition py_str (v : json) : str :=
  match v with
  | JStr s => s
  | _ => py_repr isprintable v
  end.

(** *** Collaborators *)

(** Modelled from the spec: the object-store client (core/swiftmanager.py)
    with the operations of the Blob Store interface.  Every call is one
    external call, is traced, and may fail with a storage-client error. *)
Definition swift_call {A : Type} (op : swift_op) (k : M A) : M A :=
  t ← next_tick;
  emit (EvSwift op);;
  match swift_fault E t op with
  | Some detail => raise (ClientException detail)
  | None => k
  end.


Definition swift_path_exists (path : str) : M bool :=
  swift_call (OpPathExists path)
    (w ← get_world;
     mret (negb (bool_decide (keys_with_prefix path (objects w) = [])))).

Definition swift_obj_exists (obj_path : str) : M bool :=
  swift_call (OpObjExists obj_path)
    (w ← get_world;
     mret (bool_decide (is_Some (objects w !! obj_path)))).

Definition swift_upload_obj (obj_path contents content_type : str) : M unit :=
  swift_call (OpUploadObj obj_path contents content_type)
    (w ← get_world;
     set_objects (<[obj_path := (contents, content_type)]> (objects w))).

Definition swift_ls (path : str) : M (list str) :=
  swift_call (OpLs path)
    (w ← get_world;
     mret (keys_with_prefix path (objects w))).

Definition swift_download_obj (obj_path : str) : M str :=
  swift_call (OpDownloadObj obj_path)
    (w ← get_world;
     match objects w !! obj_path with
     | Some (contents, _) => mret contents
     | None => raise (ClientException (lit "Object GET failed: 404 Not Found"))
     end).

(** Modelled from the spec: [PluginInstance.register_output_files]
    (plugininstances/models.py) creates the file records of the job; the
    call is traced with the store-put detail it is given. *)
Definition register_output_files (swiftState : json) : M unit :=
  emit (EvRegisterOutputFiles swiftState).

(** [self.c_plugin_inst.save()] *)
Definition save : M unit :=
  w ← get_world;
  emit (EvSave (inst w));;
  set_db (inst w).

Definition set_status (v : str) : M unit :=
  w ← get_world;
  set_inst (JobRow v (end_date (inst w)) (summary (inst w)) (raw (inst w)));;
  emit (EvSetattr FStatus).

Definition set_end_date (t : Z) : M unit :=
  w ← get_world;
  set_inst (JobRow (status (inst w)) (Some t) (summary (inst w)) (raw (inst w)));;
  emit (EvSetattr FEndDate).

Definition set_summary (v : str) : M unit :=
  w ← get_world;
  set_inst (JobRow (status (inst w)) (end_date (inst w)) v (raw (inst w)));;
  emit (EvSetattr FSummary).

Definition set_raw (v : str) : M unit :=
  w ← get_world;
  set_inst (JobRow (status (inst w)) (end_date (inst w)) (summary (inst w)) v);;
  emit (EvSetattr FRaw).

(** [timezone.now()] *)
Definition timezone_now : M Z :=
  t ← next_tick;
  mret (clock E t).

(** [os.makedirs(path)] *)
Definition os_makedirs (path : str) : M unit :=
  t ← next_tick;
  emit (EvMakedirs path);;
  match makedirs_fault E t path with
  | Some detail => raise (OSError detail)
  | None => w ← get_world; set_dirs ({[path]} ∪ dirs w)
  end.

(** *** json_zipToStr *)

Definition json_zipToStr (json_data : json) : outcome str :=
  match utf8_encode (json_dumps json_data) with
  | None => Raise UnicodeError
  | Some text =>
      match ascii_decode (b64encode (zlib_compress text)) with
      | None => Raise UnicodeError
      | Some s => Ret s
      end
  end.

(** *** call_app_service *)

Definition call_app_service (d_msg : json) : M json :=
  let remote_url := compute_url (c_plugin_inst self) in
  t ← next_tick;
  emit (EvRemote remote_url d_msg);;
  d_response ← match remote_reply E t remote_url d_msg with
                | Some r => mret r
                | None => raise JSONDecodeError
                end;
  let str_service := lit "pfcon" in
  match d_response with
  | JDict _ =>
      logger INFO (lit "looks like we got a successful response from %s")
        [AStr str_service];;
      logger INFO (lit "comms were sent to -->%s<--") [AStr remote_url];;
      logger INFO (lit "response from pfurl(): %s") [AJson 2 false d_response]
  | _ =>
      logger INFO (lit "looks like we got an UNSUCCESSFUL response from %s")
        [AStr str_service];;
      logger INFO (lit "comms were sent to -->%s<--") [AStr remote_url];;
      logger INFO (lit "response from pfurl(): -->%s<--") [AStr (py_str d_response)]
  end;;
  refused ← contains (lit "Connection refused") d_response;
  (if refused : bool
   then logger ERROR (lit "fatal error in talking to %s") [AStr str_service]
   else mret tt);;
  mret d_response.

(** *** manage_app_service_fsplugin_inputdir *)

Definition is_dot (c : N) : bool := (c =? 46)%N.

Definition squashInvalidDir_file : str :=
  lstrip_by is_slash
    (path_join (data_dir self) (lit "squashInvalidDir/squashInvalidDir.txt")).

Definition squashEmptyDir_file : str :=
  lstrip_by is_slash
    (path_join (data_dir self) (lit "squashEmptyDir/squashEmptyDir.txt")).

(** The last statements of the method, from the second [try] on *)
Definition squash (str_inputdir str_squashFile str_squashMsg : str) : M str :=
  try_ClientException
    (present ← swift_obj_exists str_squashFile;
     if negb present
     then swift_upload_obj str_squashFile str_squashMsg (lit "text/plain")
     else mret tt)
    (fun e =>
       logger ERROR (percent (lit "Swift storage error, detail: %s") [e]) [];;
       mret str_inputdir)
    (fun _ => mret (dirname str_squashFile)).

Definition manage_app_service_fsplugin_inputdir (inputdir : json) : M str :=
  match inputdir with
  | JStr inputdir =>
      let str_inputdir := lstrip_by is_dot (strip inputdir) in
      if negb (bool_decide (str_inputdir = [])) then
        try_ClientException
          (swift_path_exists str_inputdir)
          (fun e =>
             logger ERROR (percent (lit "Swift storage error, detail: %s") [e]) [];;
             mret str_inputdir)
          (fun path_exists =>
             if path_exists : bool then mret str_inputdir
             else squash str_inputdir squashInvalidDir_file
                    (lit "Path specified in object storage does not exist!"))
      else
        squash str_inputdir squashEmptyDir_file (lit "Empty input dir.")
  | _ => raise AttributeError
  end.

(** *** serialize_app_response_status *)

(** One pass of the innermost statements: read a status, drop its
    whitespace, and extend the status string. *)
Definition status_token (label : str) (holder : json)
    (str_responseStatus : str) : M str :=
  v ← getitem holder (lit "status");
  let str_actionStatus := py_str v in
  let str_actionStatus := join [] (split_ws str_actionStatus) in
  mret (str_responseStatus ++ label ++ lit ":" ++ str_actionStatus ++ lit ";").

Fixpoint status_parts (d_response : json) (str_action : str)
    (parts : list str) (str_responseStatus : str) : M str :=
  match parts with
  | [] => mret str_responseStatus
  | str_part :: rest =>
      summ ← getitem d_response (lit "jobOperationSummary");
      act ← getitem summ str_action;
      part ← getitem act str_part;
      acc ← status_token (str_action ++ lit "." ++ str_part) part str_responseStatus;
      status_parts d_response str_action rest acc
  end.

Fixpoint status_actions (d_response : json) (actions : list str)
    (str_responseStatus : str) : M str :=
  match actions with
  | [] => mret str_responseStatus
  | str_action :: rest =>
      acc ← (if str_eqb str_action (lit "compute")
             then status_parts d_response str_action
                    [lit "submit"; lit "return"] str_responseStatus
             else
               summ ← getitem d_response (lit "jobOperationSummary");
               act ← getitem summ str_action;
               status_token str_action act str_responseStatus);
      status_actions d_response rest acc
  end.

Definition serialize_app_response_status (d_response : json) : M str :=
  summ ← getitem d_response (lit "jobOperationSummary");
  let str_summary := json_dumps summ in
  jobOperation ← getitem d_response (lit "jobOperation");
  str_raw ← lift_outcome (json_zipToStr jobOperation);
  str_containerLogs ←
    try_any
      (a ← getitem d_response (lit "jobOperation");
       b ← getitem a (lit "info");
       c ← getitem b (lit "compute");
       d ← getitem c (lit "return");
       e ← getitem d (lit "d_ret");
       f ← getitem e (lit "l_logs");
       getitem0 f)
      (mret (JStr (lit "Container logs not currently available.")));
  set_summary str_summary;;
  set_raw str_raw;;
  save;;
  status_actions d_response
    [lit "pushPath"; lit "compute"; lit "pullPath"; lit "swiftPut"] [].

(** *** handle_app_remote_error *)

(** The inner function [str_deepnest]; [str_deepVal] is threaded. *)
Fixpoint str_deepnest (d : json) (str_deepVal : str) : outcome str :=
  match d with
  | JDict items =>
      (fix each (items : list (str * json)) (str_deepVal : str) : outcome str :=
         match items with
         | [] => Ret str_deepVal
         | (k, v) :: rest =>
             match v with
             | JDict _ =>
                 match str_deepnest v str_deepVal with
                 | Ret s => each rest s
                 | Raise e => Raise e
                 end
             | _ => each rest (percent (lit "%s") [k ++ lit " : " ++ py_str v])
             end
         end) items str_deepVal
  | _ => Raise AttributeError
  end.

Definition search_msg (field : str) : json :=
  JDict [(lit "action", JStr (lit "search"));
         (lit "meta",
          JDict [(lit "key", JStr (lit "jid"));
                 (lit "value", JStr (str_job_id self));
                 (lit "job", JStr (lit "0"));
                 (lit "when", JStr (lit "end"));
                 (lit "field", JStr field)])].

Definition handle_app_remote_error : M unit :=
  let str_deepVal := [] in
  d_response ← call_app_service (search_msg (lit "stderr"));
  d_ret ← getitem d_response (lit "d_ret");
  str_deepVal ← lift_outcome (str_deepnest d_ret str_deepVal);
  logger ERROR (lit "deepVal = %s") [AStr str_deepVal];;
  d_response ← call_app_service (search_msg (lit "returncode"));
  d_ret ← getitem d_response (lit "d_ret");
  str_deepVal ← lift_outcome (str_deepnest d_ret str_deepVal);
  logger ERROR (lit "deepVal = %s") [AStr str_deepVal].

(** *** check_plugin_instance_app_exec_status *)

Definition status_msg : json :=
  JDict [(lit "action", JStr (lit "status"));
         (lit "meta",
          JDict [(lit "remote", JDict [(lit "key", JStr (str_job_id self))])])].

(** The method body; the error collector it reaches through [self] is a
    parameter, so that a property can speak of whether it is called. *)
Definition check_plugin_instance_app_exec_status_with
    (handle_app_remote_error : M unit) : M unit :=
  d_response ← call_app_service status_msg;
  logger INFO (lit "d_response = %s") [AJson 4 true d_response];;
  str_responseStatus ← serialize_app_response_status d_response;
  logger INFO (lit "Current job remote status = %s") [AStr str_responseStatus];;
  w ← get_world;
  let str_DBstatus := status (inst w) in
  logger INFO (lit "Current job DB status = %s") [AStr str_DBstatus];;
  (if str_in (lit "swiftPut:True") str_responseStatus
      && negb (str_eqb str_DBstatus (lit "finishedSuccessfully"))
   then
     a ← getitem d_response (lit "jobOperation");
     b ← getitem a (lit "info");
     d_swiftState ← getitem b (lit "swiftPut");
     register_output_files d_swiftState;;
     set_status (lit "finishedSuccessfully");;
     logger INFO (lit "Saving job DB status   as '%s'")
       [AStr (lit "finishedSuccessfully")];;
     now ← timezone_now;
     set_end_date now;;
     logger INFO (lit "Saving job DB end_date as '%s'") [ADatetime now];;
     save
   else mret tt);;
  if str_eqb str_responseStatus (lit "finishedWithError")
  then handle_app_remote_error
  else mret tt.

Definition check_plugin_instance_app_exec_status : M unit :=
  check_plugin_instance_app_exec_status_with handle_app_remote_error.

(** *** cancel_plugin_instance_app_exec *)

Definition cancel_plugin_instance_app_exec : M unit := mret tt.

(** *** run_plugin_instance_app *)

Definition initial_app_args : list json :=
  (if str_eqb (meta_type (plugin (c_plugin_inst self))) (lit "ds")
   then [JStr str_app_container_inputdir]
   else [])
  ++ [JStr str_app_container_outputdir;
      JStr (lit "--saveinputmeta");
      JStr (lit "--saveoutputmeta")].

(** [parameter_dict[path_param_names[-1]] if path_param_names else ''] *)
Definition last_path_value (parameter_dict : list (str * json))
    (path_param_names : list str) : outcome json :=
  match last_item path_param_names with
  | Some nm =>
      match assoc nm parameter_dict with
      | Some v => Ret v
      | None => Raise (KeyError nm)
      end
  | None => Ret (JStr [])
  end.

(** The command envelope *)
Definition coordinate_msg (str_inputdir str_outputdir str_cmd : str) : json :=
  let pl := plugin (c_plugin_inst self) in
  let str_IOPhost := compute_resource_name (c_plugin_inst self) in
  JDict
    [(lit "action", JStr (lit "coordinate"));
     (lit "threadAction", JBool true);
     (lit "meta-store",
      JDict [(lit "meta", JStr (lit "meta-compute"));
             (lit "key", JStr (lit "jid"))]);
     (lit "meta-data",
      JDict
        [(lit "remote", JDict [(lit "key", JStr (lit "%meta-store"))]);
         (lit "localSource",
          JDict [(lit "path", JStr str_inputdir);
                 (lit "storageType", JStr (lit "swift"))]);
         (lit "localTarget",
          JDict [(lit "path", JStr str_outputdir);
                 (lit "createDir", JBool true)]);
         (lit "specialHandling",
          JDict [(lit "op", JStr (lit "plugin"));
                 (lit "cleanup", JBool true)]);
         (lit "transport",
          JDict [(lit "mechanism", JStr (lit "compress"));
                 (lit "compress",
                  JDict [(lit "archive", JStr (lit "zip"));
                         (lit "unpack", JBool true);
                         (lit "cleanup", JBool true)])]);
         (lit "service", JStr str_IOPhost)]);
     (lit "meta-compute",
      JDict
        [(lit "cmd", JStr (percent (lit "%s %s") [execshell pl; str_cmd]));
         (lit "threaded", JBool true);
         (lit "auid", JStr (owner_username (c_plugin_inst self)));
         (lit "jid", JStr (str_job_id self));
         (lit "number_of_workers",
          JStr (str_of_Z (number_of_workers (c_plugin_inst self))));
         (lit "cpu_limit", JStr (cpu_limit (c_plugin_inst self)));
         (lit "memory_limit", JStr (memory_limit (c_plugin_inst self)));
         (lit "gpu_limit", JStr (gpu_limit (c_plugin_inst self)));
         (lit "container",
          JDict
            [(lit "target",
              JDict [(lit "image", JStr (dock_image pl));
                     (lit "cmdParse", JBool false);
                     (lit "selfexec", JStr (selfexec pl));
                     (lit "selfpath", JStr (selfpath pl));
                     (lit "execshell", JStr (execshell pl))]);
             (lit "manager",
              JDict [(lit "image", JStr (lit "fnndsc/swarm"));
                     (lit "app", JStr (lit "swarm.py"));
                     (lit "env",
                      JDict [(lit "meta-store", JStr (lit "key"));
                             (lit "serviceType", JStr (lit "docker"));
                             (lit "shareDir", JStr (lit "%shareDir"));
                             (lit "serviceName", JStr (str_job_id self))])])]);
         (lit "service", JStr str_IOPhost)])].

(** The statements of the method that follow the resolution of the
    input location: the command line, the envelope, the call *)
Definition send_coordinate (st : arg_state) (str_inputdir : str) : M unit :=
  let pl := plugin (c_plugin_inst self) in
  let str_exec := path_join (selfpath pl) (selfexec pl) in
  let l_appArgs := map py_str (app_args st) in
  let str_allCmdLineArgs := join (lit " ") l_appArgs in
  let str_cmd := percent (lit "%s %s") [str_exec; str_allCmdLineArgs] in
  logger INFO (lit "cmd = %s") [AStr str_cmd];;
  let str_outputdir := get_output_path (c_plugin_inst self) in
  let d_msg := coordinate_msg str_inputdir str_outputdir str_cmd in
  call_app_service d_msg;;
  mret tt.

Definition run_plugin_instance_app (parameter_dict : list (str * json)) : M unit :=
  let pl := plugin (c_plugin_inst self) in
  st ← lift_outcome
         (scan_parameter_dict (parameters pl) parameter_dict
            (map fst parameter_dict) (ArgState initial_app_args [] []));
  str_inputdir ←
    match previous (c_plugin_inst self) with
    | Some prev => mret (get_output_path prev)
    | None =>
        str_inputdir ← lift_outcome
                         (last_path_value parameter_dict (path_param_names st));
        manage_app_service_fsplugin_inputdir str_inputdir
    end;
  send_coordinate st str_inputdir.

(** *** create_zip_file *)

(** [for obj_path in l_ls: ...]; the local variable [contents] is
    [None] while it is unbound. *)
Fixpoint download_loop (zipfile_path : str) (l_ls : list str)
    (contents : option str) : M (option str) :=
  match l_ls with
  | [] => mret contents
  | obj_path :: rest =>
      contents ←
        try_ClientException
          (swift_download_obj obj_path)
          (fun e =>
             logger ERROR
               (percent
                  (lit "Downloading of file %s from swift storage for %s job failed, detail: %s")
                  [obj_path; str_job_id self; e]) [];;
             mret contents)
          (fun c => mret (Some c));
      data ← match contents with
             | Some c => mret c
             | None => raise (UnboundLocalError (lit "contents"))
             end;
      ZipFile_writestr zipfile_path obj_path data;;
      download_loop zipfile_path rest contents
  end.

(** [for swift_path in swift_paths: ...] *)
Fixpoint paths_loop (zipfile_path : str) (swift_paths : list str)
    (contents : option str) : M (option str) :=
  match swift_paths with
  | [] => mret contents
  | swift_path :: rest =>
      l_ls ←
        try_ClientException
          (swift_ls swift_path)
          (fun e =>
             logger ERROR
               (percent
                  (lit "Listing of swift storage files in %s failed, detail: %s")
                  [swift_path; e]) [];;
             mret [])
          (fun l => mret l);
      contents ← download_loop zipfile_path l_ls contents;
      paths_loop zipfile_path rest contents
  end.

Definition zipfile_path : str :=
  path_join (data_dir self) (str_job_id self ++ lit ".zip").

(** The method has no [return]: its value is [None] ([JNull]). *)
Definition create_zip_file (swift_paths : list str) : M json :=
  present ← os_path_exists (data_dir self);
  (if negb present
   then try_OSError
          (os_makedirs (data_dir self))
          (fun e =>
             logger ERROR
               (percent (lit "Creation of dir %s failed, detail: %s")
                  [data_dir self; e]) [])
   else mret tt);;
  ZipFile_open_w zipfile_path;;
  paths_loop zipfile_path swift_paths None;;
  mret JNull.

End Manager.

(** ** Notions used to state the properties *)

(** A string with every whitespace character dropped *)
Definition remove_whitespace (s : str) : str :=
  filter (fun c => isspace c = false) s.

(** The declaration found for a submitted name (the first match), and
    whether it is a [path] parameter *)
Definition find_db_param (db_parameters : list PluginParameter) (nm : str)
    : option PluginParameter :=
  find (fun p => str_eqb (db_name p) nm) db_parameters.

Definition declared_path (db_parameters : list PluginParameter) (nm : str) : bool :=
  match find_db_param db_parameters nm with
  | Some p => str_eqb (db_type p) (lit "path")
  | None => false
  end.



(** The members an archive gets from the listed keys [keys], and from the
    prefixes [swift_paths] when no download fails: the objects of every
    prefix whose listing succeeds, under their keys.  [t] counts the
    external calls made before. *)
Definition entries_of (objs : gmap str (str * str)) (keys : list str) : list zip_entry :=
  omap (fun k => (fun o => (zip_name k, o.1)) <$> objs !! k) keys.

Fixpoint archive_of (E : env) (objs : gmap str (str * str))
    (swift_paths : list str) (t : nat) : list zip_entry :=
  match swift_paths with
  | [] => []
  | swift_path :: rest =>
      match swift_fault E t (OpLs swift_path) with
      | Some _ => archive_of E objs rest (S t)
      | None =>
          let l_ls := keys_with_prefix swift_path objs in
          entries_of objs l_ls ++ archive_of E objs rest (S t + length l_ls)
      end
  end.

(** The requests a trace holds, and its calls of a given kind *)
Definition remote_requests (t : list event) : list json :=
  omap (fun e => match e with EvRemote _ msg => Some msg | _ => None end) t.

Definition registrations (t : list event) : list json :=
  omap (fun e => match e with EvRegisterOutputFiles st => Some st | _ => None end) t.


(** [v[k1][k2]...] when every step is a dict holding the key *)
Fixpoint lookup_path (v : json) (path : list str) : option json :=
  match path with
  | [] => Some v
  | k :: rest =>
      match v with
      | JDict items =>
          match assoc k items with
          | Some x => lookup_path x rest
          | None => None
          end
      | _ => None
      end
  end.

(** A string of ASCII characters only *)
Definition is_ascii (s : str) : bool := forallb (fun c => (c <? 128)%N) s.

(** The status a response reports for a phase:
    [d_response['jobOperationSummary'][...phase...]['status']] *)
Definition phase_status (d_response : json) (phase : list str) : option json :=
  lookup_path d_response (lit "jobOperationSummary" :: phase ++ [lit "status"]).

Section NormalizedStatus.

Variable isprintable : N -> bool.

(** One [<phase>:<status>;] token *)
Definition status_token_text (phase : str) (v : json) : str :=
  phase ++ lit ":" ++ remove_whitespace (py_str isprintable v) ++ lit ";".

(** The normalized status string of the five phase statuses *)
Definition normalized_status (pushPath submit ret pullPath swiftPut : json) : str :=
  status_token_text (lit "pushPath") pushPath
  ++ status_token_text (lit "compute.submit") submit
  ++ status_token_text (lit "compute.return") ret
  ++ status_token_text (lit "pullPath") pullPath
  ++ status_token_text (lit "swiftPut") swiftPut.

End NormalizedStatus.

(** ** A zlib stream of stored blocks

    [zlib.compress] is taken as given by the manager.  Where a concrete
    compressor is needed, this one is used: a stream in the format of
    compression level 0 (RFC 1950 header, RFC 1951 stored blocks, Adler-32
    trailer). *)

Definition adler32 (bs : list byte) : N :=
  let '(a, b) :=
    fold_left (fun ab x =>
                 let a' := ((fst ab + Byte.to_N x) mod 65521)%N in
                 (a', ((snd ab + a') mod 65521)%N))
      bs (1%N, 0%N) in
  (b * 65536 + a)%N.

Definition le16 (n : N) : list byte :=
  [byte_of_N (n mod 256); byte_of_N (n / 256 mod 256)]%N.

Definition be32 (n : N) : list byte :=
  [byte_of_N (n / 16777216 mod 256); byte_of_N (n / 65536 mod 256);
   byte_of_N (n / 256 mod 256); byte_of_N (n mod 256)]%N.

Fixpoint stored_blocks (fuel : nat) (bs : list byte) : list byte :=
  let chunk := take (N.to_nat 65535) bs in
  let rest := drop (N.to_nat 65535) bs in
  let len := N.of_nat (length chunk) in
  let block (final : N) :=
    byte_of_N final :: le16 len ++ le16 (65535 - len) ++ chunk in
  match fuel, rest with
  | S f, _ :: _ => block 0%N ++ stored_blocks f rest
  | _, _ => block 1%N
  end.

Definition zlib_compress_stored (bs : list byte) : list byte :=
  [x78; x01] ++ stored_blocks (length bs) bs ++ be32 (adler32 bs).

(** ** Decoding: what reading the raw blob back means

    [json_zipToStr] has no inverse in the module; the functions below are
    the library calls a reader of the blob makes, in the order
    [base64.b64decode], [zlib.decompress], [bytes.decode('utf-8')],
    [json.loads]. *)

(** *** [base64.b64decode] *)

Definition b64_value (c : N) : option N :=
  (if (65 <=? c) && (c <=? 90) then Some (c - 65)
   else if (97 <=? c) && (c <=? 122) then Some (c - 71)
   else if (48 <=? c) && (c <=? 57) then Some (c + 4)
   else if c =? 43 then Some 62
   else if c =? 47 then Some 63
   else None)%N.

Definition b64_bytes (n : N) : list byte :=
  [byte_of_N (n / 65536); byte_of_N ((n / 256) mod 256); byte_of_N (n mod 256)]%N.

(** The groups of four characters; the last one may be padded. *)
Fixpoint b64decode_groups (cs : str) : option (list byte) :=
  match cs with
  | [] => Some []
  | a :: b :: c :: d :: rest =>
      va ← b64_value a;
      vb ← b64_value b;
      match rest with
      | [] =>
          if (d =? b64_pad)%N then
            if (c =? b64_pad)%N
            then Some (take 1 (b64_bytes (va * 262144 + vb * 4096)))
            else vc ← b64_value c;
                 Some (take 2 (b64_bytes (va * 262144 + vb * 4096 + vc * 64)))
          else vc ← b64_value c;
               vd ← b64_value d;
               Some (b64_bytes (va * 262144 + vb * 4096 + vc * 64 + vd))
      | _ =>
          vc ← b64_value c;
          vd ← b64_value d;
          tail ← b64decode_groups rest;
          Some (b64_bytes (va * 262144 + vb * 4096 + vc * 64 + vd) ++ tail)
      end
  | _ => None
  end.

(** Characters outside the alphabet are dropped first (the default,
    [validate=False]). *)
Definition b64decode (s : str) : option (list byte) :=
  b64decode_groups
    (filter (fun c => is_Some (b64_value c) \/ c = b64_pad) s).

(** *** [bytes.decode('utf-8')] *)

Definition is_cont (b : byte) : bool :=
  (128 <=? Byte.to_N b)%N && (Byte.to_N b <=? 191)%N.

Definition cont (b : byte) : N := (Byte.to_N b - 128)%N.

Fixpoint utf8_decode (bs : list byte) : option str :=
  match bs with
  | [] => Some []
  | b0 :: r0 =>
      let n0 := Byte.to_N b0 in
      if (n0 <? 128)%N then (n0 ::.) <$> utf8_decode r0
      else
        match r0 with
        | [] => None
        | b1 :: r1 =>
            if (194 <=? n0)%N && (n0 <=? 223)%N then
              if is_cont b1
              then (((n0 - 192) * 64 + cont b1)%N ::.) <$> utf8_decode r1
              else None
            else
              match r1 with
              | [] => None
              | b2 :: r2 =>
                  if (224 <=? n0)%N && (n0 <=? 239)%N then
                    let c := ((n0 - 224) * 4096 + cont b1 * 64 + cont b2)%N in
                    if is_cont b1 && is_cont b2 && (2048 <=? c)%N
                       && negb ((55296 <=? c)%N && (c <=? 57343)%N)
                    then (c ::.) <$> utf8_decode r2
                    else None
                  else
                    match r2 with
                    | [] => None
                    | b3 :: r3 =>
                        let c := ((n0 - 240) * 262144 + cont b1 * 4096
                                  + cont b2 * 64 + cont b3)%N in
                        if (240 <=? n0)%N && (n0 <=? 244)%N
                           && is_cont b1 && is_cont b2 && is_cont b3
                           && (65536 <=? c)%N && (c <? 1114112)%N
                        then (c ::.) <$> utf8_decode r3
                        else None
                    end
              end
        end
  end.

(** *** [json.loads] *)

Definition is_json_ws (c : N) : bool :=
  ((c =? 32) || (c =? 9) || (c =? 10) || (c =? 13))%N.

Definition skip_ws (s : str) : str := lstrip_by is_json_ws s.

Definition is_digit (c : N) : bool := ((48 <=? c) && (c <=? 57))%N.

Definition hex_value (c : N) : option N :=
  (if is_digit c then Some (c - 48)
   else if (97 <=? c) && (c <=? 102) then Some (c - 87)
   else if (65 <=? c) && (c <=? 70) then Some (c - 55)
   else None)%N.

(** The four hexadecimal digits of a [\uXXXX] escape *)
Definition decode_uXXXX (s : str) : option (N * str) :=
  match s with
  | a :: b :: c :: d :: r =>
      va ← hex_value a;
      vb ← hex_value b;
      vc ← hex_value c;
      vd ← hex_value d;
      Some ((((va * 16 + vb) * 16 + vc) * 16 + vd)%N, r)
  | _ => None
  end.

Definition is_high_surrogate (c : N) : bool := ((55296 <=? c) && (c <=? 56319))%N.
Definition is_low_surrogate (c : N) : bool := ((56320 <=? c) && (c <=? 57343))%N.

Definition simple_escape (e : N) : option N :=
  (if e =? dquote then Some dquote
   else if e =? backslash then Some backslash
   else if e =? 47 then Some 47
   else if e =? 98 then Some 8
   else if e =? 102 then Some 12
   else if e =? 110 then Some 10
   else if e =? 114 then Some 13
   else if e =? 116 then Some 9
   else None)%N.

(** The characters of a string, after its opening quote; [acc] holds the
    characters read, last first. *)
Fixpoint scanstring (fuel : nat) (s : str) (acc : str) : option (str * str) :=
  match fuel with
  | O => None
  | S f =>
      match s with
      | [] => None
      | c :: r =>
          if (c =? dquote)%N then Some (rev acc, r)
          else if (c =? backslash)%N then
            match r with
            | [] => None
            | e :: r' =>
                if (e =? 117)%N then
                  match decode_uXXXX r' with
                  | None => None
                  | Some (uni, r2) =>
                      if is_high_surrogate uni && startswith [backslash; 117%N] r2 then
                        match decode_uXXXX (drop 2 r2) with
                        | None => None
                        | Some (uni2, r4) =>
                            if is_low_surrogate uni2
                            then scanstring f r4
                                   ((65536 + (uni - 55296) * 1024
                                     + (uni2 - 56320))%N :: acc)
                            else scanstring f r2 (uni :: acc)
                        end
                      else scanstring f r2 (uni :: acc)
                  end
                else
                  match simple_escape e with
                  | Some ch => scanstring f r' (ch :: acc)
                  | None => None
                  end
            end
          else if (c <? 32)%N then None
          else scanstring f r (c :: acc)
      end
  end.

Fixpoint scan_digits (s : str) (acc : N) : N * str :=
  match s with
  | c :: r => if is_digit c then scan_digits r (10 * acc + (c - 48))%N else (acc, s)
  | [] => (acc, [])
  end.

(** What follows the integer part of a number that is a float *)
Definition is_float_tail (s : str) : bool :=
  match s with
  | c :: d :: r =>
      ((c =? 46)%N && is_digit d)
      || (((c =? 101) || (c =? 69))%N
          && (is_digit d
              || (((d =? 43) || (d =? 45))%N
                  && match r with d' :: _ => is_digit d' | [] => false end)))
  | _ => false
  end.

(** A number; a float is not read. *)
Definition scan_number (s : str) : option (json * str) :=
  let neg := match s with c :: _ => (c =? 45)%N | [] => false end in
  let s1 := if neg then drop 1 s else s in
  let finish (n : N) (r : str) :=
    if is_float_tail r then None
    else Some (JInt (if neg then - Z.of_N n else Z.of_N n), r) in
  match s1 with
  | c :: r =>
      if (c =? 48)%N then finish 0%N r
      else if is_digit c then finish (scan_digits s1 0).1 (scan_digits s1 0).2
      else None
  | [] => None
  end.

(** [d[k] = v] on a dict held as its list of items *)
Fixpoint dict_set (k : str) (v : json) (items : list (str * json)) : list (str * json) :=
  match items with
  | [] => [(k, v)]
  | (k', v') :: rest =>
      if str_eqb k' k then (k', v) :: rest else (k', v') :: dict_set k v rest
  end.

Definition dict_of_pairs (pairs : list (str * json)) : list (str * json) :=
  fold_left (fun d kv => dict_set kv.1 kv.2 d) pairs [].

Fixpoint parse_value (fuel : nat) (s : str) : option (json * str) :=
  match fuel with
  | O => None
  | S f =>
      match s with
      | [] => None
      | c :: r =>
          if (c =? dquote)%N then
            match scanstring (S (length r)) r [] with
            | Some (x, r') => Some (JStr x, r')
            | None => None
            end
          else if (c =? 91)%N then
            if startswith [93%N] (skip_ws r)
            then Some (JList [], drop 1 (skip_ws r))
            else parse_elems f (skip_ws r) []
          else if (c =? 123)%N then
            if startswith [125%N] (skip_ws r)
            then Some (JDict [], drop 1 (skip_ws r))
            else parse_members f (skip_ws r) []
          else if startswith (lit "null") s then Some (JNull, drop 4 s)
          else if startswith (lit "true") s then Some (JBool true, drop 4 s)
          else if startswith (lit "false") s then Some (JBool false, drop 5 s)
          else scan_number s
      end
  end
with parse_elems (fuel : nat) (s : str) (acc : list json) : option (json * str) :=
  match fuel with
  | O => None
  | S f =>
      match parse_value f s with
      | None => None
      | Some (v, r) =>
          if startswith [44%N] (skip_ws r)
          then parse_elems f (skip_ws (drop 1 (skip_ws r))) (v :: acc)
          else if startswith [93%N] (skip_ws r)
          then Some (JList (rev (v :: acc)), drop 1 (skip_ws r))
          else None
      end
  end
with parse_members (fuel : nat) (s : str) (acc : list (str * json))
    : option (json * str) :=
  match fuel with
  | O => None
  | S f =>
      if startswith [dquote] s then
        match scanstring (length s) (drop 1 s) [] with
        | None => None
        | Some (k, r1) =>
            if startswith [58%N] (skip_ws r1) then
              match parse_value f (skip_ws (drop 1 (skip_ws r1))) with
              | None => None
              | Some (v, r3) =>
                  if startswith [44%N] (skip_ws r3)
                  then parse_members f (skip_ws (drop 1 (skip_ws r3))) ((k, v) :: acc)
                  else if startswith [125%N] (skip_ws r3)
                  then Some (JDict (dict_of_pairs (rev ((k, v) :: acc))),
                             drop 1 (skip_ws r3))
                  else None
              end
            else None
        end
      else None
  end.

Definition json_loads (s : str) : option json :=
  match parse_value (S (length s)) (skip_ws s) with
  | Some (v, r) => if bool_decide (skip_ws r = []) then Some v else None
  | None => None
  end.

(** *** [zlib.decompress] for a stream of stored blocks *)

Fixpoint stored_unblocks (fuel : nat) (bs : list byte) : option (list byte * list byte) :=
  match fuel, bs with
  | S f, h :: l0 :: l1 :: n0 :: n1 :: rest =>
      let len := (Byte.to_N l0 + 256 * Byte.to_N l1)%N in
      let nlen := (Byte.to_N n0 + 256 * Byte.to_N n1)%N in
      if negb (len + nlen =? 65535)%N then None
      else if (length rest <? N.to_nat len)%nat then None
      else
        let chunk := take (N.to_nat len) rest in
        let rest' := drop (N.to_nat len) rest in
        if (Byte.to_N h =? 1)%N then Some (chunk, rest')
        else if (Byte.to_N h =? 0)%N then
          match stored_unblocks f rest' with
          | Some (data, tail) => Some (chunk ++ data, tail)
          | None => None
          end
        else None
  | _, _ => None
  end.

Definition zlib_decompress_stored (bs : list byte) : option (list byte) :=
  match bs with
  | cmf :: flg :: body =>
      if ((Byte.to_N cmf mod 16 =? 8)
          && ((Byte.to_N cmf * 256 + Byte.to_N flg) mod 31 =? 0)
          && ((Byte.to_N flg / 32) mod 2 =? 0))%N
      then
        match stored_unblocks (length body) body with
        | Some (data, trailer) =>
            if bool_decide (map Byte.to_N trailer = map Byte.to_N (be32 (adler32 data)))
            then Some data else None
        | None => None
        end
      else None
  | _ => None
  end.

(** *** Reading the blob back *)

Definition json_unzipStr (zlib_decompress : list byte -> option (list byte))
    (s : str) : option json :=
  compressed ← b64decode s;
  text ← zlib_decompress compressed;
  decoded ← utf8_decode text;
  json_loads decoded.

(** ** Sample data *)

Module Sample.

(** No code point above U+007F counted as printable *)
Definition isprintable (c : N) : bool := false.

Definition status_of (v : json) : json := JDict [(lit "status", v)].

Definition swift_state : json :=
  JDict [(lit "d_swiftstore", JDict [(lit "filesPushed", JInt 1)])].

Definition job_operation : json :=
  JDict [(lit "info", JDict [(lit "swiftPut", swift_state)])].

(** A status response in which every phase reports success *)
Definition response_success : json :=
  JDict
    [(lit "jobOperation", job_operation);
     (lit "jobOperationSummary",
      JDict
        [(lit "pushPath", status_of (JBool true));
         (lit "compute",
          JDict [(lit "submit", status_of (JBool true));
                 (lit "return", status_of (JStr (lit "finished Successfully")))]);
         (lit "pullPath", status_of (JBool true));
         (lit "swiftPut", status_of (JBool true))])].

(** A status response whose compute-return phase reports an error *)
Definition response_error : json :=
  JDict
    [(lit "jobOperation", JDict [(lit "info", JDict [])]);
     (lit "jobOperationSummary",
      JDict
        [(lit "pushPath", status_of (JBool true));
         (lit "compute",
          JDict [(lit "submit", status_of (JBool true));
                 (lit "return", status_of (JStr (lit "finishedWithError")))]);
         (lit "pullPath", status_of (JBool false));
         (lit "swiftPut", status_of (JBool false))])].

Definition row_started : job_row := JobRow (lit "started") None [] [].

Definition world0 : world := World 0 ∅ ∅ ∅ row_started row_started [] [].

(** Collaborators that never fail; the remote service answers [reply]. *)
Definition env_reply (reply : json) : env :=
  Env (fun _ _ _ => Some reply) (fun _ _ => None) (fun _ _ => None)
    (fun t => 1617996734 + Z.of_nat t).

(** A store that already holds something else at the key of the
    squash file of an empty input *)
Definition world_squash_taken (key : str) : world :=
  World 0 {[ key := (lit "unrelated", lit "text/plain") ]} ∅ ∅
    row_started row_started [] [].

(** A store with two objects under [a/] and one under [b/] *)
Definition world_store : world :=
  World 0
    (<[lit "a/x" := (lit "data of x", lit "text/plain")]>
       (<[lit "a/y" := (lit "data of y", lit "text/plain")]>
          {[ lit "b/z" := (lit "data of z", lit "text/plain") ]}))
    ∅ ∅ row_started row_started [] [].

(** Collaborators for which the listing of [b/] fails, and the download
    of the object [failing] when one is given *)
Definition env_zip_faults (failing : option str) : env :=
  Env (fun _ _ _ => Some JNull)
    (fun _ op => match op with
                 | OpLs path =>
                     if str_eqb path (lit "b/")
                     then Some (lit "Container GET failed") else None
                 | OpDownloadObj path =>
                     match failing with
                     | Some key =>
                         if str_eqb path key
                         then Some (lit "Object GET failed") else None
                     | None => None
                     end
                 | _ => None
                 end)
    (fun _ _ => None) (fun t => 1617996734 + Z.of_nat t).


Definition dircopy : Plugin :=
  {| meta_name := lit "pl-dircopy";
     meta_type := lit "fs";
     selfpath := lit "/usr/local/bin";
     selfexec := lit "dircopy";
     execshell := lit "python3";
     dock_image := lit "fnndsc/pl-dircopy";
     parameters :=
       [{| db_name := lit "dir"; db_flag := lit "--dir";
           db_action := lit "store"; db_type := lit "path" |};
        {| db_name := lit "verbose"; db_flag := lit "--verbose";
           db_action := lit "store_true"; db_type := lit "boolean" |}] |}.

Definition root_job : PluginInstance :=
  {| id := 42;
     plugin := dircopy;
     previous := None;
     owner_username := lit "foo";
     feed_id := 7;
     compute_resource_name := lit "host";
     compute_url := lit "http://pfcon.local:5005/api/v1/cmd";
     number_of_workers := 1;
     cpu_limit := lit "1000m";
     memory_limit := lit "200Mi";
     gpu_limit := lit "0" |}.

Definition self : PluginInstanceManager :=
  {| c_plugin_inst := root_job; home := lit "/home/localuser" |}.

End Sample.

(** The declaration found for a name takes a value and is of type [path]. *)
Definition store_path (db_parameters : list PluginParameter) (nm : str) : bool :=
  match find_db_param db_parameters nm with
  | Some p => str_eqb (db_action p) (lit "store") && str_eqb (db_type p) (lit "path")
  | None => false
  end.

(** A downstream job and a submission, for the examples *)
Module Sample2.

Definition ds_job : PluginInstance :=
  {| id := 43;
     plugin :=
       {| meta_name := lit "pl-simpledsapp";
          meta_type := lit "ds";
          selfpath := lit "/usr/local/bin";
          selfexec := lit "simpledsapp";
          execshell := lit "python3";
          dock_image := lit "fnndsc/pl-simpledsapp";
          parameters :=
            [{| db_name := lit "extra"; db_flag := lit "--extra";
                db_action := lit "store"; db_type := lit "path" |}] |};
     previous := Some Sample.root_job;
     owner_username := lit "foo";
     feed_id := 7;
     compute_resource_name := lit "host";
     compute_url := lit "http://pfcon.local:5005/api/v1/cmd";
     number_of_workers := 1;
     cpu_limit := lit "1000m";
     memory_limit := lit "200Mi";
     gpu_limit := lit "0" |}.

Definition ds_self : PluginInstanceManager :=
  {| c_plugin_inst := ds_job; home := lit "/home/localuser" |}.

Definition submitted : list (str * json) :=
  [(lit "dir", JStr (lit "foo/uploads")); (lit "verbose", JBool true)].

End Sample2.

(** ** Well-formed JSON values

    A string holds code points, and no high surrogate followed by a low
    one (a pair that [json.loads] would read back as one character); the
    keys of a dict are distinct. *)

Fixpoint str_ok (s : str) : bool :=
  match s with
  | [] => true
  | c :: r =>
      (c <? 1114112)%N
      && negb (is_high_surrogate c
               && match r with d :: _ => is_low_surrogate d | [] => false end)
      && str_ok r
  end.

Fixpoint json_ok (v : json) : bool :=
  match v with
  | JStr s => str_ok s
  | JList l => forallb json_ok l
  | JDict d =>
      forallb (fun kv => match kv with (k, x) => str_ok k && json_ok x end) d
      && bool_decide (NoDup (map fst d))
  | _ => true
  end.

(** The fuel reading a value back takes *)
Fixpoint jsize (v : json) : nat :=
  match v with
  | JList l => S (fold_right (fun x n => S (jsize x + n)) O l)
  | JDict d => S (fold_right (fun kv n => S (jsize kv.2 + n)) O d)
  | _ => 1
  end.

(** The number a run of digits denotes, after [a] *)
Definition dec_value (ds : str) (a : N) : N :=
  fold_left (fun a c => (10 * a + (c - 48))%N) ds a.

(** What may follow a value in the text of [json.dumps]: the end, a comma
    or a closing bracket *)
Definition closes (rest : str) : bool :=
  match rest with
  | [] => true
  | c :: _ => ((c =? 44) || (c =? 93) || (c =? 125))%N
  end.

(** The escaped characters of a string, between its quotes *)
Definition escaped (s : str) : str := concat (map escape_char s).

(** A value whose text is read back as the value, whatever closes it *)
Definition reads_back (v : json) : Prop :=
  forall (fuel : nat) (rest : str),
    json_ok v = true -> closes rest = true -> (jsize v <= fuel)%nat ->
    parse_value fuel (json_dumps v ++ rest) = Some (v, rest).

(** The text of one item of a dict *)
Definition dumps_item (kv : str * json) : str :=
  match kv with (k, v) => json_quote k ++ lit ": " ++ json_dumps v end.

(** ** Notions used to state further properties *)

(** What one submitted parameter adds to the command line, given the
    declaration found for its name: the flag and the value for an option
    that takes one (the container's input directory in place of a path),
    the flag alone for a switch that is on. *)
Definition param_args (db_param : PluginParameter) (param_value : json) : list json :=
  if str_eqb (db_action db_param) (lit "store") then
    [JStr (db_flag db_param);
     if str_eqb (db_type db_param) (lit "path")
        || str_eqb (db_type db_param) (lit "unextpath")
     then JStr str_app_container_inputdir else param_value]
  else if str_eqb (db_action db_param) (lit "store_true") then
    if truthy param_value then [JStr (db_flag db_param)] else []
  else if str_eqb (db_action db_param) (lit "store_false") then
    if truthy param_value then [] else [JStr (db_flag db_param)]
  else [].

Definition submitted_args (db_parameters : list PluginParameter)
    (kv : str * json) : list json :=
  match find_db_param db_parameters kv.1 with
  | Some p => param_args p kv.2
  | None => []
  end.

(** The leaves of a nested dict, in the order a traversal meets them *)
Fixpoint leaves (d : json) : list (str * json) :=
  match d with
  | JDict items =>
      (fix each (items : list (str * json)) : list (str * json) :=
         match items with
         | [] => []
         | (k, v) :: rest =>
             match v with
             | JDict _ => leaves v ++ each rest
             | _ => (k, v) :: each rest
             end
         end) items
  | _ => []
  end.


(** What a step may leave changed.  [job_only]: the job, the log and the
    call count, but neither the object store, nor the local files, nor
    the requests sent.  [files_only]: the local files, the log and the
    calls to the store, but neither the objects stored, nor the job, nor
    the requests sent. *)
Definition job_only (w w' : world) : Prop :=
  objects w' = objects w /\ dirs w' = dirs w /\ zips w' = zips w
  /\ remote_requests (trace w') = remote_requests (trace w).

Definition files_only (w w' : world) : Prop :=
  objects w' = objects w /\ inst w' = inst w /\ db w' = db w
  /\ remote_requests (trace w') = remote_requests (trace w).

(** [objects_kept]: every object stored is still there, with the same
    data; the job and the local files are as they were. *)
Definition objects_kept (w w' : world) : Prop :=
  (forall k o, objects w !! k = Some o -> objects w' !! k = Some o)
  /\ inst w' = inst w /\ db w' = db w /\ dirs w' = dirs w /\ zips w' = zips w.

(** * Properties *)

(** ** Strings *)

Lemma join_nil_cons (p : str) (rest : list str) :
  join [] (p :: rest) = p ++ join [] rest.
Proof. destruct rest; simpl; [by rewrite app_nil_r | done]. Qed.

Lemma split_ws_from_join (s cur : str) :
  join [] (split_ws_from cur s) = rev cur ++ remove_whitespace s.
Proof.
  revert cur. induction s as [|c r IH]; intros cur.
  - destruct cur; simpl; [done|]. by rewrite app_nil_r.
  - cbn [split_ws_from]. unfold remove_whitespace. rewrite filter_cons.
    destruct (isspace c) eqn:Hc.
    + rewrite decide_False by done.
      destruct cur as [|x cur'].
      * apply IH.
      * rewrite join_nil_cons. f_equal. apply (IH []).
    + rewrite decide_True by done. rewrite IH. simpl. by rewrite <- app_assoc.
Qed.

Lemma split_join_removes_whitespace (s : str) :
  join [] (split_ws s) = remove_whitespace s.
Proof. apply (split_ws_from_join s []). Qed.

Lemma remove_whitespace_spec (s : str) (c : N) :
  c ∈ remove_whitespace s -> isspace c = false.
Proof. unfold remove_whitespace. rewrite list_elem_of_filter. tauto. Qed.

Lemma startswith_app (p s : str) : startswith p (p ++ s) = true.
Proof. induction p as [|a p IH]; simpl; [done|]. by rewrite N.eqb_refl. Qed.

Lemma str_in_app (needle a b : str) :
  str_in needle (a ++ needle ++ b) = true.
Proof.
  induction a as [|x a IH]; simpl.
  - destruct needle as [|n ns]; simpl.
    + destruct b; done.
    + rewrite N.eqb_refl, startswith_app. done.
  - rewrite IH. apply orb_true_r.
Qed.

(** ** Induction over JSON values *)

Lemma json_ind (P : json -> Prop)
    (Hnull : P JNull)
    (Hbool : forall b, P (JBool b))
    (Hint : forall n, P (JInt n))
    (Hstr : forall s, P (JStr s))
    (Hlist : forall l, Forall P l -> P (JList l))
    (Hdict : forall d, Forall (fun kv => P (snd kv)) d -> P (JDict d)) :
  forall j, P j.
Proof.
  fix IH 1. intros [ | b | n | s | l | d ].
  - exact Hnull.
  - apply Hbool.
  - apply Hint.
  - apply Hstr.
  - apply Hlist. induction l as [|x l IHl]; constructor; [apply IH | exact IHl].
  - apply Hdict. induction d as [|[k v] d IHd]; constructor; [apply IH | exact IHd].
Qed.

(** ** The text of [json.dumps] is ASCII *)

Lemma is_ascii_app (a b : str) : is_ascii (a ++ b) = is_ascii a && is_ascii b.
Proof. apply forallb_app. Qed.

Lemma is_ascii_join (sep : str) (parts : list str) :
  is_ascii sep = true -> Forall (fun p => is_ascii p = true) parts ->
  is_ascii (join sep parts) = true.
Proof.
  intros Hsep Hparts. induction Hparts as [|p rest Hp Hrest IH]; [done|].
  destruct rest as [|q rest]; [done|].
  change (join sep (p :: q :: rest)) with (p ++ sep ++ join sep (q :: rest)).
  by rewrite !is_ascii_app, Hp, Hsep, IH.
Qed.

Lemma is_ascii_digits_from (fuel : nat) (n : N) (acc : str) :
  is_ascii acc = true -> is_ascii (digits_from fuel n acc) = true.
Proof.
  revert n acc. induction fuel as [|f IH]; intros n acc Hacc; simpl.
  - rewrite Hacc, andb_true_r. apply N.ltb_lt.
    pose proof (N.mod_upper_bound n 10). lia.
  - assert (is_ascii ((48 + n mod 10)%N :: acc) = true) as H.
    { simpl. rewrite Hacc, andb_true_r. apply N.ltb_lt.
      pose proof (N.mod_upper_bound n 10). lia. }
    destruct (n / 10 =? 0)%N; [exact H | by apply IH].
Qed.

Lemma is_ascii_str_of_Z (z : Z) : is_ascii (str_of_Z z) = true.
Proof.
  unfold str_of_Z, str_of_N. destruct (z <? 0).
  - rewrite is_ascii_app. rewrite is_ascii_digits_from; done.
  - apply is_ascii_digits_from. done.
Qed.

Lemma hex_digit_ascii (n : N) : (n < 16)%N -> (hex_digit n <? 128)%N = true.
Proof. intros H. unfold hex_digit. apply N.ltb_lt. destruct (n <? 10)%N; lia. Qed.

Lemma is_ascii_u_escape (c : N) : is_ascii (u_escape c) = true.
Proof.
  unfold u_escape, hex4. cbn [is_ascii forallb].
  rewrite !hex_digit_ascii; [done| apply N.mod_upper_bound; lia ..].
Qed.

Lemma is_ascii_escape_char (c : N) : is_ascii (escape_char c) = true.
Proof.
  unfold escape_char.
  repeat match goal with
         | |- context [if ?b then _ else _] => destruct b eqn:?
         end; try done.
  - simpl. rewrite andb_true_r. apply N.ltb_lt.
    apply andb_prop in Heqb6 as [_ H]. apply N.leb_le in H. lia.
  - apply is_ascii_u_escape.
  - rewrite is_ascii_app, !is_ascii_u_escape. done.
Qed.

Lemma is_ascii_json_quote (s : str) : is_ascii (json_quote s) = true.
Proof.
  unfold json_quote. cbn [is_ascii forallb]. fold (is_ascii (concat (map escape_char s) ++ [dquote])).
  rewrite is_ascii_app. simpl. rewrite andb_true_r.
  induction s as [|c s IH]; simpl; [done|].
  by rewrite is_ascii_app, is_ascii_escape_char, IH.
Qed.

Lemma is_ascii_json_dumps (j : json) : is_ascii (json_dumps j) = true.
Proof.
  induction j as [ | [|] | n | s | l IH | d IH ] using json_ind; try done.
  - apply is_ascii_str_of_Z.
  - apply is_ascii_json_quote.
  - cbn [json_dumps]. rewrite !is_ascii_app, is_ascii_join; [done | done |].
    apply Forall_map. exact IH.
  - cbn [json_dumps]. rewrite !is_ascii_app, is_ascii_join; [done | done |].
    apply Forall_map. eapply Forall_impl; [exact IH|].
    intros [k v] H. simpl in H. by rewrite !is_ascii_app, is_ascii_json_quote, H.
Qed.

(** ** [json_zipToStr] always returns *)

Lemma byte_of_N_to_N (n : N) : (n < 256)%N -> Byte.to_N (byte_of_N n) = n.
Proof.
  intros H. unfold byte_of_N. destruct (Byte.of_N n) as [b|] eqn:Hb.
  - by apply Byte.to_of_N.
  - apply Byte.of_N_None_iff in Hb. lia.
Qed.

Lemma utf8_encode_ascii (s : str) :
  is_ascii s = true -> utf8_encode s = Some (map byte_of_N s).
Proof.
  induction s as [|c s IH]; simpl; [done|].
  intros [Hc Hs]%andb_prop. unfold utf8_encode_char. rewrite Hc, (IH Hs). done.
Qed.

Lemma b64_char_ascii (i : N) : (b64_char i < 128)%N.
Proof.
  unfold b64_char.
  repeat match goal with
         | |- context [if ?b then _ else _] => destruct b eqn:?
         end; try lia.
  - apply N.ltb_lt in Heqb. lia.
  - apply N.ltb_lt in Heqb0. lia.
  - apply N.ltb_lt in Heqb1. lia.
Qed.

Lemma ascii_decode_map (l : list N) :
  Forall (fun c => (c < 128)%N) l ->
  ascii_decode (map byte_of_N l) = Some l.
Proof.
  induction 1 as [|c l Hc Hl IH]; simpl; [done|].
  rewrite byte_of_N_to_N by lia.
  apply N.ltb_lt in Hc. by rewrite Hc, IH.
Qed.

Lemma b64_quad_decode (n : N) (keep : nat) :
  exists l, b64_quad n keep = map byte_of_N l /\ Forall (fun c => (c < 128)%N) l.
Proof.
  unfold b64_quad. eexists. split; [reflexivity|].
  apply Forall_app. split.
  - apply Forall_take. repeat constructor; apply b64_char_ascii.
  - apply Forall_forall. intros x Hx. apply list_elem_of_In, repeat_spec in Hx.
    subst x. unfold b64_pad. lia.
Qed.

Lemma b64encode_ascii (bs : list byte) :
  exists l, b64encode bs = map byte_of_N l /\ Forall (fun c => (c < 128)%N) l.
Proof.
  assert (forall n (bs : list byte), length bs = n ->
            exists l, b64encode bs = map byte_of_N l
                      /\ Forall (fun c => (c < 128)%N) l) as H.
  { induction n as [n IH] using lt_wf_ind. intros [|a [|b [|c rest]]] Hlen.
    - exists []. done.
    - apply b64_quad_decode.
    - apply b64_quad_decode.
    - cbn [b64encode].
      destruct (b64_quad_decode
                  (Byte.to_N a * 65536 + Byte.to_N b * 256 + Byte.to_N c) 4)
        as (l1 & -> & H1).
      destruct (IH (length rest)) with (bs := rest) as (l2 & -> & H2);
        [simpl in Hlen; lia | done |].
      exists (l1 ++ l2). split; [by rewrite map_app | by apply Forall_app]. }
  by apply (H (length bs)).
Qed.

Lemma ascii_decode_b64encode (bs : list byte) :
  ascii_decode (b64encode bs) = Some (map Byte.to_N (b64encode bs)).
Proof.
  destruct (b64encode_ascii bs) as (l & -> & Hl).
  rewrite ascii_decode_map by done. f_equal.
  rewrite map_map. symmetry. rewrite <- (map_id l) at 2.
  apply map_ext_Forall. eapply Forall_impl; [exact Hl|].
  intros c Hc. simpl in *. apply byte_of_N_to_N. lia.
Qed.

Lemma json_zipToStr_returns (zlib_compress : list byte -> list byte) (j : json) :
  json_zipToStr zlib_compress j =
  Ret (map Byte.to_N (b64encode (zlib_compress (map byte_of_N (json_dumps j))))).
Proof.
  unfold json_zipToStr.
  rewrite utf8_encode_ascii by apply is_ascii_json_dumps.
  by rewrite ascii_decode_b64encode.
Qed.

(** ** Running monadic code *)

Lemma run_bind {A B : Type} (m : M A) (f : A -> M B) (w w' : world) (a : A) :
  m w = (Ret a, w') -> (m ≫= f) w = f a w'.
Proof. intros H. unfold mbind, M_bind. by rewrite H. Qed.

Lemma run_bind_eq {A B : Type} (m : M A) (f : A -> M B) (w w' : world) (a : A)
    (r : outcome B * world) :
  m w = (Ret a, w') -> f a w' = r -> (m ≫= f) w = r.
Proof. intros H <-. by apply run_bind. Qed.

Lemma run_bind_raise {A B : Type} (m : M A) (f : A -> M B) (w w' : world) (e : exn) :
  m w = (Raise e, w') -> (m ≫= f) w = (Raise e, w').
Proof. intros H. unfold mbind, M_bind. by rewrite H. Qed.

Lemma lookup_path_cons (v : json) (k : str) (rest : list str) (y : json) :
  lookup_path v (k :: rest) = Some y ->
  exists x, lookup_path v [k] = Some x /\ lookup_path x rest = Some y.
Proof.
  simpl. destruct v; try done. destruct (assoc k items) as [x|]; [|done].
  intros H. by exists x.
Qed.

Lemma getitem_lookup (v : json) (k : str) (x : json) (w : world) :
  lookup_path v [k] = Some x -> getitem v k w = (Ret x, w).
Proof.
  simpl. destruct v; try done. simpl. destruct (assoc k items); [|done].
  by intros [= ->].
Qed.

(** Reading a response changes nothing. *)
Lemma getitem_pure (v : json) (k : str) (w : world) : snd (getitem v k w) = w.
Proof. destruct v; try done. simpl. by destruct (assoc k items). Qed.

Lemma getitem0_pure (v : json) (w : world) : snd (getitem0 v w) = w.
Proof. destruct v as [ | | | [|]| [|] | ]; done. Qed.

Lemma bind_pure {A B : Type} (m : M A) (f : A -> M B) :
  (forall w, snd (m w) = w) -> (forall a w, snd (f a w) = w) ->
  forall w, snd ((m ≫= f) w) = w.
Proof.
  intros Hm Hf w. unfold mbind, M_bind. specialize (Hm w).
  destruct (m w) as [[a|e] w']; simpl in Hm; subst w'; [apply Hf | done].
Qed.

Lemma try_any_pure {A : Type} (m : M A) (d : A) (w : world) :
  (forall w, snd (m w) = w) ->
  exists v, try_any m (mret d) w = (Ret v, w).
Proof.
  intros Hm. unfold try_any. specialize (Hm w).
  destruct (m w) as [[a|e] w']; simpl in Hm; subst w'; by eexists.
Qed.

Lemma lift_outcome_run {A : Type} (o : outcome A) (a : A) (w : world) :
  o = Ret a -> lift_outcome o w = (Ret a, w).
Proof. by intros ->. Qed.

(** [msimpl] runs the plumbing of the monad and of the world record. *)
Ltac msimpl :=
  cbv beta iota zeta delta
    [mbind M_bind mret M_ret raise get_world next_tick emit logger
     set_objects set_dirs set_zips set_inst set_db lift_outcome
     register_output_files save set_status set_end_date set_summary set_raw
     timezone_now];
  cbn [tick objects dirs zips inst db log trace status end_date summary raw fst snd].

(** [mstep] runs the first statement of a sequence when it is a
    primitive, and tidies the world it leaves. *)
Ltac mstep :=
  eapply run_bind_eq; [msimpl; reflexivity|]; cbv beta.

Create HintDb run discriminated.
#[export] Hint Resolve getitem_lookup : run.

(** [run] evaluates a computation whose steps are all known to return. *)
Ltac run :=
  lazymatch goal with
  | |- (_ ≫= _) _ = _ => eapply run_bind_eq; [run | cbv beta; run]
  | |- mret _ _ = _ => reflexivity
  | |- (if true then _ else _) _ = _ => cbv iota; run
  | |- (if false then _ else _) _ = _ => cbv iota; run
  | |- _ => first [ solve [eauto with run] | reflexivity ]
  end.

Ltac eval_str_eqb :=
  repeat match goal with
         | |- context [str_eqb (lit ?a) (lit ?b)] =>
             let v := eval vm_compute in (str_eqb (lit a) (lit b)) in
             change (str_eqb (lit a) (lit b)) with v
         end.

Section Serialize.

Variable zlib_compress : list byte -> list byte.
Variable isprintable : N -> bool.

Lemma status_token_run (label : str) (holder v : json) (acc : str) (w : world) :
  lookup_path holder [lit "status"] = Some v ->
  status_token isprintable label holder acc w =
  (Ret (acc ++ status_token_text isprintable label v), w).
Proof.
  intros H. unfold status_token.
  erewrite run_bind by (by apply getitem_lookup).
  by rewrite split_join_removes_whitespace.
Qed.

#[local] Hint Resolve status_token_run : run.

Lemma status_actions_run (d_response s1 s2 s3 s4 s5 : json) (w : world) :
  phase_status d_response [lit "pushPath"] = Some s1 ->
  phase_status d_response [lit "compute"; lit "submit"] = Some s2 ->
  phase_status d_response [lit "compute"; lit "return"] = Some s3 ->
  phase_status d_response [lit "pullPath"] = Some s4 ->
  phase_status d_response [lit "swiftPut"] = Some s5 ->
  status_actions isprintable d_response
    [lit "pushPath"; lit "compute"; lit "pullPath"; lit "swiftPut"] [] w =
  (Ret (normalized_status isprintable s1 s2 s3 s4 s5), w).
Proof.
  unfold phase_status. intros H1 H2 H3 H4 H5.
  apply lookup_path_cons in H1 as (summ & Hsumm & H1).
  apply lookup_path_cons in H2 as (summ2 & Hsumm2 & H2).
  apply lookup_path_cons in H3 as (summ3 & Hsumm3 & H3).
  apply lookup_path_cons in H4 as (summ4 & Hsumm4 & H4).
  apply lookup_path_cons in H5 as (summ5 & Hsumm5 & H5).
  assert (summ2 = summ) as -> by congruence.
  assert (summ3 = summ) as -> by congruence.
  assert (summ4 = summ) as -> by congruence.
  assert (summ5 = summ) as -> by congruence.
  clear Hsumm2 Hsumm3 Hsumm4 Hsumm5.
  apply lookup_path_cons in H1 as (a1 & Ha1 & H1).
  apply lookup_path_cons in H2 as (c & Hc & H2).
  apply lookup_path_cons in H3 as (c' & Hc' & H3).
  assert (c' = c) as -> by congruence. clear Hc'.
  apply lookup_path_cons in H2 as (p2 & Hp2 & H2).
  apply lookup_path_cons in H3 as (p3 & Hp3 & H3).
  apply lookup_path_cons in H4 as (a4 & Ha4 & H4).
  apply lookup_path_cons in H5 as (a5 & Ha5 & H5).
  cbn [app] in *.
  cbn [status_actions status_parts]. eval_str_eqb. cbv iota.
  etransitivity; [run|].
  unfold normalized_status. cbn [app]. by rewrite <- !app_assoc.
Qed.

Lemma container_logs_run (d_response : json) (w : world) :
  exists v,
    try_any
      (a ← getitem d_response (lit "jobOperation");
       b ← getitem a (lit "info");
       c ← getitem b (lit "compute");
       d ← getitem c (lit "return");
       e ← getitem d (lit "d_ret");
       f ← getitem e (lit "l_logs");
       getitem0 f)
      (mret (JStr (lit "Container logs not currently available."))) w
    = (Ret v, w).
Proof.
  apply try_any_pure.
  repeat (apply bind_pure; [intros; apply getitem_pure | intros ?]).
  apply getitem0_pure.
Qed.

Lemma serialize_app_response_status_effect
    (d_response jobOperation s1 s2 s3 s4 s5 : json) (w : world) :
  lookup_path d_response [lit "jobOperation"] = Some jobOperation ->
  phase_status d_response [lit "pushPath"] = Some s1 ->
  phase_status d_response [lit "compute"; lit "submit"] = Some s2 ->
  phase_status d_response [lit "compute"; lit "return"] = Some s3 ->
  phase_status d_response [lit "pullPath"] = Some s4 ->
  phase_status d_response [lit "swiftPut"] = Some s5 ->
  exists w',
    serialize_app_response_status zlib_compress isprintable d_response w =
    (Ret (normalized_status isprintable s1 s2 s3 s4 s5), w')
    /\ trace w' = trace w ++ [EvSetattr FSummary; EvSetattr FRaw; EvSave (inst w')]
    /\ status (inst w') = status (inst w)
    /\ tick w' = tick w /\ end_date (inst w') = end_date (inst w).
Proof.
  intros Hjo H1 H2 H3 H4 H5.
  pose proof H1 as (summ & Hsumm & _)%lookup_path_cons.
  destruct (container_logs_run d_response w) as [logs Hlogs].
  pose proof (lift_outcome_run _ _ w
                (json_zipToStr_returns zlib_compress jobOperation)) as Hraw.
  eexists. split.
  - unfold serialize_app_response_status.
    eapply run_bind_eq; [apply getitem_lookup; exact Hsumm|]. cbv beta.
    eapply run_bind_eq; [apply getitem_lookup; exact Hjo|]. cbv beta.
    eapply run_bind_eq; [exact Hraw|]. cbv beta.
    eapply run_bind_eq; [exact Hlogs|]. cbv beta.
    do 3 mstep.
    by apply status_actions_run.
  - msimpl. rewrite <- !app_assoc. done.
Qed.

End Serialize.

(** ** The normalized status string *)

(** C8. For a status response that holds [jobOperation] and the five phase
    statuses of [jobOperationSummary], [serialize_app_response_status]
    returns the concatenation of the tokens [<phase>:<status>;] in the order
    pushPath, compute.submit, compute.return, pullPath, swiftPut, each
    status being [str()] of the reported value with every whitespace
    character dropped; when the store-put status is [True] the string
    contains [swiftPut:True;]. *)
Theorem serialize_app_response_status_normalized
    (zlib_compress : list byte -> list byte) (isprintable : N -> bool)
    (d_response jobOperation s1 s2 s3 s4 s5 : json) (w : world) :
  lookup_path d_response [lit "jobOperation"] = Some jobOperation ->
  phase_status d_response [lit "pushPath"] = Some s1 ->
  phase_status d_response [lit "compute"; lit "submit"] = Some s2 ->
  phase_status d_response [lit "compute"; lit "return"] = Some s3 ->
  phase_status d_response [lit "pullPath"] = Some s4 ->
  phase_status d_response [lit "swiftPut"] = Some s5 ->
  fst (serialize_app_response_status zlib_compress isprintable d_response w)
  = Ret (normalized_status isprintable s1 s2 s3 s4 s5)
  /\ (forall v c, c ∈ remove_whitespace (py_str isprintable v) -> isspace c = false)
  /\ (s5 = JBool true ->
      str_in (lit "swiftPut:True;") (normalized_status isprintable s1 s2 s3 s4 s5) = true).
Proof.
  intros Hjo H1 H2 H3 H4 H5. split; [|split].
  - destruct (serialize_app_response_status_effect zlib_compress isprintable
                d_response jobOperation s1 s2 s3 s4 s5 w) as (w' & -> & _); done.
  - intros v c. apply remove_whitespace_spec.
  - intros ->. unfold normalized_status.
    rewrite !app_assoc.
    match goal with
    | |- str_in ?n (?a ++ _) = true =>
        change (str_in n (a ++ n ++ []) = true)
    end.
    apply str_in_app.
Qed.

Lemma serialize_app_response_status_normalized_witness :
  fst (serialize_app_response_status zlib_compress_stored Sample.isprintable
         Sample.response_success Sample.world0)
  = Ret (lit "pushPath:True;compute.submit:True;compute.return:finishedSuccessfully;pullPath:True;swiftPut:True;")
  /\ str_in (lit "swiftPut:True;")
       (lit "pushPath:True;compute.submit:True;compute.return:finishedSuccessfully;pullPath:True;swiftPut:True;") = true.
Proof.
  pose proof (serialize_app_response_status_normalized
                zlib_compress_stored Sample.isprintable Sample.response_success
                _ (JBool true) (JBool true) (JStr (lit "finished Successfully"))
                (JBool true) (JBool true) Sample.world0
                eq_refl eq_refl eq_refl eq_refl eq_refl eq_refl)
    as (H1 & _ & H3).
  split; [exact H1 | exact (H3 eq_refl)].
Defined.

(** ** The error collector is out of reach *)

Lemma run_bind_ext {A B : Type} (m : M A) (f g : A -> M B) (w : world) :
  (forall a w', m w = (Ret a, w') -> f a w' = g a w') ->
  (m ≫= f) w = (m ≫= g) w.
Proof.
  intros H. unfold mbind, M_bind. destruct (m w) as [[a|e] w'] eqn:Hm; [|done].
  by apply H.
Qed.

Lemma bind_inv {A B : Type} (m : M A) (f : A -> M B) (w w' : world) (b : B) :
  (m ≫= f) w = (Ret b, w') ->
  exists a w1, m w = (Ret a, w1) /\ f a w1 = (Ret b, w').
Proof.
  unfold mbind, M_bind. destruct (m w) as [[a|e] w1]; [|done].
  intros H. by exists a, w1.
Qed.

Lemma mret_inv {A : Type} (a b : A) (w w' : world) :
  (mret a : M A) w = (Ret b, w') -> a = b /\ w = w'.
Proof. by intros [= -> ->]. Qed.

Section StatusPrefix.

Variable isprintable : N -> bool.

Lemma status_token_extends (label : str) (holder : json) (acc s : str) (w w' : world) :
  status_token isprintable label holder acc w = (Ret s, w') ->
  exists t, s = acc ++ label ++ lit ":" ++ t.
Proof.
  unfold status_token. intros (v & w1 & _ & [<- _]%mret_inv)%bind_inv.
  by eexists.
Qed.

Lemma status_parts_extends (d_response : json) (str_action : str)
    (parts : list str) (acc s : str) (w w' : world) :
  status_parts isprintable d_response str_action parts acc w = (Ret s, w') ->
  exists t, s = acc ++ t.
Proof.
  revert acc w. induction parts as [|p rest IH]; intros acc w; cbn [status_parts].
  - intros [<- _]%mret_inv. exists []. by rewrite app_nil_r.
  - intros (a1 & w1 & _ & H)%bind_inv.
    apply bind_inv in H as (a2 & w2 & _ & H).
    apply bind_inv in H as (a3 & w3 & _ & H).
    apply bind_inv in H as (acc' & w4 & [t ->]%status_token_extends & H).
    apply IH in H as [t' ->]. eexists. by rewrite <- app_assoc.
Qed.

Lemma status_actions_extends (d_response : json) (actions : list str)
    (acc s : str) (w w' : world) :
  status_actions isprintable d_response actions acc w = (Ret s, w') ->
  exists t, s = acc ++ t.
Proof.
  revert acc w. induction actions as [|a rest IH]; intros acc w; cbn [status_actions].
  - intros [<- _]%mret_inv. exists []. by rewrite app_nil_r.
  - intros (acc' & w1 & Hacc & [t' ->]%IH)%bind_inv.
    destruct (str_eqb a (lit "compute")).
    + apply status_parts_extends in Hacc as [t ->].
      eexists. by rewrite <- app_assoc.
    + apply bind_inv in Hacc as (a1 & w2 & _ & H).
      apply bind_inv in H as (a2 & w3 & _ & [t ->]%status_token_extends).
      eexists. by rewrite <- app_assoc.
Qed.

Lemma status_actions_cons (d_response : json) (a : str) (rest : list str) (acc : str) :
  status_actions isprintable d_response (a :: rest) acc =
  (acc ← (if str_eqb a (lit "compute")
          then status_parts isprintable d_response a [lit "submit"; lit "return"] acc
          else
            summ ← getitem d_response (lit "jobOperationSummary");
            act ← getitem summ a;
            status_token isprintable a act acc);
   status_actions isprintable d_response rest acc).
Proof. reflexivity. Qed.

(** Every normalized status string starts with [pushPath:]. *)
Lemma serialize_app_response_status_prefix
    (zlib_compress : list byte -> list byte) (d_response : json)
    (s : str) (w w' : world) :
  serialize_app_response_status zlib_compress isprintable d_response w = (Ret s, w') ->
  exists t, s = lit "pushPath:" ++ t.
Proof.
  unfold serialize_app_response_status. intros H.
  do 7 (apply bind_inv in H as (? & ? & _ & H)).
  rewrite status_actions_cons in H.
  apply bind_inv in H as (acc & w1 & Hacc & [t' ->]%status_actions_extends).
  change (str_eqb (lit "pushPath") (lit "compute")) with false in Hacc.
  cbv iota in Hacc.
  apply bind_inv in Hacc as (a1 & w2 & _ & H).
  apply bind_inv in H as (a2 & w3 & _ & [t ->]%status_token_extends).
  eexists. cbn [app]. rewrite <- !app_assoc. reflexivity.
Qed.

Lemma serialize_app_response_status_not_finishedWithError
    (zlib_compress : list byte -> list byte) (d_response : json)
    (s : str) (w w' : world) :
  serialize_app_response_status zlib_compress isprintable d_response w = (Ret s, w') ->
  str_eqb s (lit "finishedWithError") = false.
Proof.
  intros [t ->]%serialize_app_response_status_prefix.
  unfold str_eqb. by apply bool_decide_eq_false.
Qed.

End StatusPrefix.

(** C1. Reconciliation never reaches the error collector: whatever is put
    in its place, [check_plugin_instance_app_exec_status] behaves the same,
    for every reply of the remote service and so also when the
    compute-return phase reports [finishedWithError].  The method compares
    the whole normalized string, which always starts with [pushPath:], with
    the bare word [finishedWithError]. *)
Theorem check_plugin_instance_app_exec_status_never_collects
    (E : env) (zlib_compress : list byte -> list byte) (isprintable : N -> bool)
    (self : PluginInstanceManager) (collector : M unit) (w : world) :
  check_plugin_instance_app_exec_status_with E zlib_compress isprintable self collector w
  = check_plugin_instance_app_exec_status_with E zlib_compress isprintable self (mret tt) w.
Proof.
  unfold check_plugin_instance_app_exec_status_with.
  apply run_bind_ext. intros d_response w1 _.
  apply run_bind_ext. intros _ w2 _.
  apply run_bind_ext. intros s w3 Hs.
  apply serialize_app_response_status_not_finishedWithError in Hs.
  apply run_bind_ext. intros _ w4 _.
  apply run_bind_ext. intros w5 w6 _.
  apply run_bind_ext. intros _ w7 _.
  apply run_bind_ext. intros _ w8 _.
  by rewrite Hs.
Qed.

Example reconcile_finishedWithError :
  let r := check_plugin_instance_app_exec_status
             (Sample.env_reply Sample.response_error) zlib_compress_stored
             Sample.isprintable Sample.self Sample.world0 in
  fst r = Ret tt
  /\ phase_status Sample.response_error [lit "compute"; lit "return"]
     = Some (JStr (lit "finishedWithError"))
  /\ remote_requests (trace (snd r)) = [status_msg Sample.self].
Proof. vm_compute. done. Qed.

(** ** Reconciliation after store-put success *)

Lemma lookup_path_dict (v : json) (k : str) (rest : list str) (x : json) :
  lookup_path v (k :: rest) = Some x -> exists items, v = JDict items.
Proof. destruct v; try done. by eexists. Qed.

Section Reconcile.

Context (E : env).
Variable zlib_compress : list byte -> list byte.
Variable isprintable : N -> bool.
Variable self : PluginInstanceManager.

(** The status query answered by a dict: one request is sent; besides,
    only the log and the call counter change. *)
Lemma call_app_service_run (d_msg d_response : json) (k : str) (rest : list str)
    (x : json) (w : world) :
  remote_reply E (tick w) (compute_url (c_plugin_inst self)) d_msg = Some d_response ->
  lookup_path d_response (k :: rest) = Some x ->
  exists w',
    call_app_service E isprintable self d_msg w = (Ret d_response, w')
    /\ trace w' = trace w ++ [EvRemote (compute_url (c_plugin_inst self)) d_msg]
    /\ inst w' = inst w /\ tick w' = S (tick w) /\ objects w' = objects w.
Proof.
  intros Hreply [items ->]%lookup_path_dict.
  unfold call_app_service, contains. msimpl. rewrite Hreply. msimpl.
  destruct (existsb _ items); msimpl; eexists; (split; [reflexivity|]); done.
Qed.

Lemma normalized_status_not_finishedWithError (s1 s2 s3 s4 s5 : json) :
  str_eqb (normalized_status isprintable s1 s2 s3 s4 s5) (lit "finishedWithError")
  = false.
Proof. unfold str_eqb. by apply bool_decide_eq_false. Qed.



End Reconcile.



(** ** The argument loop of [run_plugin_instance_app] *)

Lemma str_eqb_eq (a b : str) : str_eqb a b = true <-> a = b.
Proof. unfold str_eqb. apply bool_decide_eq_true. Qed.

Lemma assoc_elem (k : str) (v : json) (items : list (str * json)) :
  NoDup (map fst items) -> (k, v) ∈ items -> assoc k items = Some v.
Proof.
  induction items as [|[k' v'] items IH]; simpl; intros Hnd Hin.
  - by apply elem_of_nil in Hin.
  - apply NoDup_cons in Hnd as [Hk' Hnd].
    apply elem_of_cons in Hin as [[= -> ->]|Hin].
    + by rewrite (proj2 (str_eqb_eq k' k')).
    + destruct (str_eqb k' k) eqn:Heq; [|by apply IH].
      apply str_eqb_eq in Heq as ->. destruct Hk'.
      apply list_elem_of_fmap. by exists (k, v).
Qed.

Lemma assoc_key (k : str) (items : list (str * json)) :
  k ∈ map fst items -> is_Some (assoc k items).
Proof.
  induction items as [|[k' v'] items IH]; simpl; intros Hin.
  - by apply elem_of_nil in Hin.
  - destruct (str_eqb k' k) eqn:Heq; [done|].
    apply elem_of_cons in Hin as [->|Hin]; [|by apply IH].
    by rewrite (proj2 (str_eqb_eq k' k')) in Heq.
Qed.

Lemma apply_db_param_paths (p : PluginParameter) (nm : str) (v : json) (st : arg_state) :
  path_param_names (apply_db_param p nm v st) =
  path_param_names st ++
  (if str_eqb (db_action p) (lit "store") && str_eqb (db_type p) (lit "path")
   then [nm] else []).
Proof.
  unfold apply_db_param.
  destruct (str_eqb (db_action p) (lit "store")) eqn:Hstore.
  - apply str_eqb_eq in Hstore. rewrite Hstore.
    change (str_eqb (lit "store") (lit "store_true")) with false.
    change (str_eqb (lit "store") (lit "store_false")) with false.
    cbn [andb]. destruct (str_eqb (db_type p) (lit "unextpath"));
      destruct (str_eqb (db_type p) (lit "path")); cbn; by rewrite ?app_nil_r.
  - cbn [andb]. rewrite app_nil_r.
    destruct (str_eqb (db_action p) (lit "store_true") && truthy v);
      destruct (str_eqb (db_action p) (lit "store_false") && negb (truthy v)); done.
Qed.

Lemma scan_db_parameters_paths (db : list PluginParameter) (nm : str) (v : json)
    (st : arg_state) :
  path_param_names (scan_db_parameters db nm v st) =
  path_param_names st ++ (if store_path db nm then [nm] else []).
Proof.
  unfold store_path, find_db_param.
  induction db as [|p db IH]; simpl; [by rewrite app_nil_r|].
  destruct (str_eqb (db_name p) nm); [apply apply_db_param_paths | apply IH].
Qed.

Lemma scan_parameter_dict_paths (db : list PluginParameter)
    (parameter_dict : list (str * json)) (names : list str) (st : arg_state) :
  names ⊆ map fst parameter_dict ->
  exists st',
    scan_parameter_dict db parameter_dict names st = Ret st'
    /\ path_param_names st' =
       path_param_names st ++ filter (fun nm => store_path db nm = true) names.
Proof.
  revert st. induction names as [|nm names IH]; intros st Hsub; simpl.
  - exists st. by rewrite app_nil_r.
  - destruct (assoc_key nm parameter_dict) as [v ->]; [set_solver|].
    destruct (IH (scan_db_parameters db nm v st)) as (st' & -> & Hst'); [set_solver|].
    exists st'. split; [done|]. rewrite Hst', scan_db_parameters_paths.
    rewrite filter_cons. destruct (store_path db nm) eqn:Hsp.
    + rewrite decide_True by done. by rewrite <- app_assoc.
    + rewrite decide_False by done. by rewrite app_nil_r.
Qed.


Lemma last_path_value_filter (P : str -> bool) (parameter_dict : list (str * json)) :
  NoDup (map fst parameter_dict) ->
  last_path_value parameter_dict (filter (fun nm => P nm = true) (map fst parameter_dict))
  = Ret match last (filter (fun kv => P kv.1 = true) parameter_dict) with
        | Some kv => kv.2
        | None => JStr []
        end.
Proof.
  intros Hnd. unfold last_path_value, last_item.
  assert (filter (fun nm => P nm = true) (map fst parameter_dict)
          = map fst (filter (fun kv => P kv.1 = true) parameter_dict)) as ->.
  { clear Hnd. induction parameter_dict as [|[k v] d IH]; [done|].
    cbn [map]. rewrite !filter_cons. cbn [fst].
    destruct (decide (P k = true)); cbn [map fst]; by rewrite IH. }
  destruct (last (filter (fun kv => P kv.1 = true) parameter_dict)) as [[k v]|] eqn:Hlast.
  - assert (last (map fst (filter (fun kv => P kv.1 = true) parameter_dict)) = Some k) as ->.
    { change (map fst ?l) with (fst <$> l). by rewrite fmap_last, Hlast. }
    rewrite (assoc_elem k v); [done | done |].
    apply last_Some_elem_of in Hlast. apply list_elem_of_filter in Hlast. tauto.
  - apply last_None in Hlast. by rewrite Hlast.
Qed.



(** ** A job with a previous job *)

Section Submit.

Context (E : env).
Variable isprintable : N -> bool.
Variable self : PluginInstanceManager.

(** Whatever the service answers, a call sends one request and does
    not touch the object store. *)
Lemma call_app_service_trace (d_msg : json) (w : world) :
  trace (snd (call_app_service E isprintable self d_msg w))
  = trace w ++ [EvRemote (compute_url (c_plugin_inst self)) d_msg]
  /\ objects (snd (call_app_service E isprintable self d_msg w)) = objects w.
Proof.
  unfold call_app_service, contains. msimpl.
  destruct (remote_reply E (tick w) _ d_msg) as [[ | b | n | s | l | d ]|];
    msimpl; try done.
  - destruct (str_in _ s); done.
  - destruct (existsb _ l); done.
  - destruct (existsb _ d); done.
Qed.

Lemma send_coordinate_trace (st : arg_state) (str_inputdir : str) (w : world) :
  exists d_msg,
    trace (snd (send_coordinate E isprintable self st str_inputdir w))
    = trace w ++ [EvRemote (compute_url (c_plugin_inst self)) d_msg]
    /\ lookup_path d_msg [lit "meta-data"; lit "localSource"; lit "path"]
       = Some (JStr str_inputdir)
    /\ objects (snd (send_coordinate E isprintable self st str_inputdir w))
       = objects w.
Proof.
  unfold send_coordinate. cbv zeta.
  eexists. 
  erewrite run_bind by (msimpl; reflexivity).
  unfold mbind, M_bind.
  match goal with
  | |- context [call_app_service E isprintable self ?m ?w0] =>
      destruct (call_app_service_trace m w0) as [Htr Hobj];
      destruct (call_app_service E isprintable self m w0) as [[r|e] w']
  end; cbn [snd trace objects] in *; (split; [exact Htr|]; split; [reflexivity|exact Hobj]).
Qed.

End Submit.

(** C5. For a job whose [previous] is set, whatever values are submitted:
    [run_plugin_instance_app] sends one request, the envelope with the
    previous job's output path as its [localSource] path; no call is made
    to the object store (no existence check, no squash upload) and the
    store is left as it was. *)
Theorem run_plugin_instance_app_previous_wins
    (E : env) (isprintable : N -> bool) (self : PluginInstanceManager)
    (prev : PluginInstance) (parameter_dict : list (str * json)) (w : world) :
  previous (c_plugin_inst self) = Some prev ->
  exists d_msg,
    trace (snd (run_plugin_instance_app E isprintable self parameter_dict w))
    = trace w ++ [EvRemote (compute_url (c_plugin_inst self)) d_msg]
    /\ lookup_path d_msg [lit "meta-data"; lit "localSource"; lit "path"]
       = Some (JStr (get_output_path prev))
    /\ objects (snd (run_plugin_instance_app E isprintable self parameter_dict w))
       = objects w.
Proof.
  intros Hprev.
  destruct (scan_parameter_dict_paths (parameters (plugin (c_plugin_inst self)))
              parameter_dict (map fst parameter_dict)
              (ArgState (initial_app_args self) [] []))
    as (st & Hscan & _); [done|].
  unfold run_plugin_instance_app. rewrite Hscan, Hprev.
  erewrite run_bind by reflexivity. cbv beta iota.
  erewrite run_bind by reflexivity.
  apply send_coordinate_trace.
Qed.

Lemma run_plugin_instance_app_previous_wins_witness :
  exists d_msg,
    remote_requests
      (trace (snd (run_plugin_instance_app (Sample.env_reply JNull)
                     Sample.isprintable Sample2.ds_self
                     [(lit "extra", JStr (lit "foo/uploads"))] Sample.world0)))
    = [d_msg]
    /\ lookup_path d_msg [lit "meta-data"; lit "localSource"; lit "path"]
       = Some (JStr (lit "foo/feed_7/pl-dircopy_42/data")).
Proof.
  destruct (run_plugin_instance_app_previous_wins
              (Sample.env_reply JNull) Sample.isprintable Sample2.ds_self
              Sample.root_job [(lit "extra", JStr (lit "foo/uploads"))]
              Sample.world0 eq_refl)
    as (d_msg & Htr & Hpath & _).
  exists d_msg. rewrite Htr. split; [reflexivity|].
  rewrite Hpath. vm_compute. reflexivity.
Defined.

(** ** Paths of the squash files *)

Lemma lstrip_by_app (p : N -> bool) (a : str) (x : N) (r : str) :
  p x = false -> lstrip_by p (a ++ x :: r) = lstrip_by p a ++ x :: r.
Proof.
  intros Hx. induction a as [|c a IH]; simpl; [by rewrite Hx|].
  destruct (p c); [exact IH | done].
Qed.

Lemma rstrip_by_snoc (p : N -> bool) (a : str) (x c : N) :
  p x = false -> p c = true -> rstrip_by p ((a ++ [x]) ++ [c]) = a ++ [x].
Proof.
  intros Hx Hc. unfold rstrip_by. rewrite !rev_app_distr. simpl.
  rewrite Hc, Hx. simpl. by rewrite rev_involutive.
Qed.

Lemma rfind_from_app (c : N) (a s : str) (i last : Z) :
  rfind_from c (a ++ s) i last =
  rfind_from c s (i + Z.of_nat (length a)) (rfind_from c a i last).
Proof.
  revert i last. induction a as [|x a IH]; intros i last; simpl.
  - f_equal. lia.
  - rewrite IH. f_equal. lia.
Qed.

Lemma rfind_from_absent (c : N) (s : str) (i last : Z) :
  forallb (fun x => negb (x =? c)%N) s = true -> rfind_from c s i last = last.
Proof.
  revert i last. induction s as [|x s IH]; intros i last; simpl; [done|].
  intros [Hx Hs]%andb_prop. rewrite IH by done.
  by destruct (x =? c)%N.
Qed.

(** The directory of [<a>/<leaf>], for a leaf without a slash and a
    directory that does not end with one *)
Lemma dirname_join (a : str) (x : N) (leaf : str) :
  is_slash x = false ->
  forallb (fun c => negb (c =? slash)%N) leaf = true ->
  dirname ((a ++ [x]) ++ [slash] ++ leaf) = a ++ [x].
Proof.
  intros Hx Hleaf. unfold dirname, rfind.
  rewrite rfind_from_app. cbn [app rfind_from]. rewrite N.eqb_refl.
  rewrite rfind_from_absent by done. cbn zeta.
  replace (Z.to_nat (0 + Z.of_nat (length (a ++ [x])) + 1))
    with (length ((a ++ [x]) ++ [slash])) by (rewrite !length_app; simpl; lia).
  change ((a ++ [x]) ++ slash :: leaf) with ((a ++ [x]) ++ [slash] ++ leaf).
  rewrite app_assoc, take_app_length.
  assert (forallb is_slash ((a ++ [x]) ++ [slash]) = false) as ->.
  { rewrite !forallb_app. simpl. rewrite Hx. by rewrite andb_false_r. }
  assert (bool_decide ((a ++ [x]) ++ [slash] = []) = false) as ->.
  { apply bool_decide_eq_false. by destruct a. }
  cbn [negb andb]. by apply rstrip_by_snoc.
Qed.

Lemma data_dir_shape (self : PluginInstanceManager) :
  exists p, data_dir self = (p ++ lit "dat") ++ [97%N].
Proof.
  unfold data_dir, path_join.
  change (startswith [slash] (lit "data")) with false. cbv iota.
  destruct (bool_decide (home self = []) || endswith [slash] (home self)).
  - exists (home self). by rewrite <- app_assoc.
  - exists (home self ++ [slash]). by rewrite <- !app_assoc.
Qed.

Lemma endswith_slash_snoc (a : str) (x : N) :
  is_slash x = false -> endswith [slash] (a ++ [x]) = false.
Proof.
  intros Hx. unfold endswith. rewrite rev_unit. cbn [rev app startswith].
  unfold is_slash in Hx. rewrite N.eqb_sym. by rewrite Hx.
Qed.

(** The squash file of an empty input is [<placeholder-dir>/squashEmptyDir.txt],
    the placeholder directory being the directory the method returns. *)
Lemma squashEmptyDir_file_split (self : PluginInstanceManager) :
  squashEmptyDir_file self
  = dirname (squashEmptyDir_file self) ++ lit "/squashEmptyDir.txt".
Proof.
  unfold squashEmptyDir_file. destruct (data_dir_shape self) as [p Hp].
  assert (path_join (data_dir self) (lit "squashEmptyDir/squashEmptyDir.txt")
          = p ++ 100%N :: lit "ata/squashEmptyDir/squashEmptyDir.txt") as ->.
  { rewrite Hp. unfold path_join.
    change (startswith [slash] (lit "squashEmptyDir/squashEmptyDir.txt")) with false.
    rewrite endswith_slash_snoc by done.
    assert (bool_decide ((p ++ lit "dat") ++ [97%N] = []) = false) as ->.
    { apply bool_decide_eq_false. by destruct p. }
    cbv iota. cbn [orb]. rewrite <- !app_assoc. reflexivity. }
  rewrite lstrip_by_app by done.
  set (q := lstrip_by is_slash p).
  replace (q ++ 100%N :: lit "ata/squashEmptyDir/squashEmptyDir.txt")
    with (((q ++ lit "data/squashEmptyDi") ++ [114%N]) ++ [slash]
          ++ lit "squashEmptyDir.txt")
    by (rewrite <- !app_assoc; reflexivity).
  rewrite dirname_join by done. rewrite <- !app_assoc. reflexivity.
Qed.

(** ** The squash fallback *)

Ltac swift_unfold :=
  unfold squash, swift_path_exists, swift_obj_exists, swift_upload_obj,
    swift_ls, swift_download_obj, swift_call, try_ClientException.

Lemma percent_storage_error (detail : str) :
  percent (lit "Swift storage error, detail: %s") [detail]
  = lit "Swift storage error, detail: " ++ detail.
Proof. cbv -[app]. by rewrite app_nil_r. Qed.

Section Squash.

Context (E : env).
Variable self : PluginInstanceManager.

(** An input that is empty once trimmed goes to the squash of the
    empty directory. *)
Lemma manage_app_service_fsplugin_inputdir_empty (inputdir : str) :
  lstrip_by is_dot (strip inputdir) = [] ->
  manage_app_service_fsplugin_inputdir E self (JStr inputdir)
  = squash E [] (squashEmptyDir_file self) (lit "Empty input dir.").
Proof.
  intros H. unfold manage_app_service_fsplugin_inputdir. rewrite H. reflexivity.
Qed.


(** When no call to the store fails, the squash object is there
    afterwards and the directory of the squash file is returned. *)
Lemma squash_success (str_inputdir str_squashFile str_squashMsg : str) (w : world) :
  swift_fault E (tick w) (OpObjExists str_squashFile) = None ->
  swift_fault E (S (tick w))
    (OpUploadObj str_squashFile str_squashMsg (lit "text/plain")) = None ->
  exists w',
    squash E str_inputdir str_squashFile str_squashMsg w
    = (Ret (dirname str_squashFile), w')
    /\ (objects w !! str_squashFile = None ->
        objects w' = <[str_squashFile := (str_squashMsg, lit "text/plain")]> (objects w))
    /\ (is_Some (objects w !! str_squashFile) -> objects w' = objects w).
Proof.
  intros Hex Hup. swift_unfold. msimpl. rewrite Hex. msimpl.
  destruct (objects w !! str_squashFile) as [o|] eqn:Hobj.
  - assert (bool_decide (is_Some (Some o)) = true) as ->.
    { by apply bool_decide_eq_true. }
    cbn [negb]. msimpl. eexists. split; [reflexivity|]. split; [done|]. done.
  - assert (bool_decide (is_Some (@None (str * str))) = false) as ->.
    { apply bool_decide_eq_false. by intros [? ?]. }
    cbn [negb]. msimpl. rewrite Hup. msimpl.
    eexists. split; [reflexivity|]. split; [done|]. by intros [? ?].
Qed.

End Squash.



(** ** A root job without input *)

Lemma store_path_declared_true (db : list PluginParameter) (nm : str) :
  store_path db nm = true -> declared_path db nm = true.
Proof.
  unfold store_path, declared_path. destruct (find_db_param db nm); [|done].
  by intros [_ H]%andb_prop.
Qed.

Lemma filter_none {A : Type} (P : A -> Prop) `{forall x, Decision (P x)} (l : list A) :
  (forall x, x ∈ l -> ~ P x) -> filter P l = [].
Proof.
  induction l as [|a l IH]; intros Hl; [done|].
  rewrite filter_cons, decide_False by (apply Hl; left).
  apply IH. intros x Hx. apply Hl. by right.
Qed.

(** C7 (amended). For a root job with no parameter declared of type
    [path] among the submitted ones, when the calls to the object store
    succeed: the envelope carries the squash-empty placeholder directory as
    input location; the squash file is [<placeholder-dir>/squashEmptyDir.txt];
    after resolution an object exists there, with the text
    "Empty input dir." when there was none before, and the object that was
    already there otherwise. *)
Theorem run_plugin_instance_app_squash_empty
    (E : env) (isprintable : N -> bool) (self : PluginInstanceManager)
    (parameter_dict : list (str * json)) (w : world) :
  let file := squashEmptyDir_file self in
  let placeholder := dirname file in
  let w' := snd (run_plugin_instance_app E isprintable self parameter_dict w) in
  previous (c_plugin_inst self) = None ->
  (forall nm, nm ∈ map fst parameter_dict ->
              declared_path (parameters (plugin (c_plugin_inst self))) nm = false) ->
  swift_fault E (tick w) (OpObjExists file) = None ->
  swift_fault E (S (tick w))
    (OpUploadObj file (lit "Empty input dir.") (lit "text/plain")) = None ->
  exists d_msg,
    last (trace w') = Some (EvRemote (compute_url (c_plugin_inst self)) d_msg)
    /\ lookup_path d_msg [lit "meta-data"; lit "localSource"; lit "path"]
       = Some (JStr placeholder)
    /\ file = placeholder ++ lit "/squashEmptyDir.txt"
    /\ (objects w !! file = None ->
        objects w' !! file = Some (lit "Empty input dir.", lit "text/plain"))
    /\ (forall o, objects w !! file = Some o -> objects w' !! file = Some o).
Proof.
  intros file placeholder w' Hprev Hnone Hex Hup.
  destruct (scan_parameter_dict_paths (parameters (plugin (c_plugin_inst self)))
              parameter_dict (map fst parameter_dict)
              (ArgState (initial_app_args self) [] []))
    as (st & Hscan & Hpaths); [done|].
  assert (path_param_names st = []) as Hst.
  { rewrite Hpaths. cbn [path_param_names app].
    apply filter_none. intros nm Hnm Hsp%store_path_declared_true.
    by rewrite (Hnone nm Hnm) in Hsp. }
  destruct (squash_success E [] file (lit "Empty input dir.") w Hex Hup)
    as (w1 & Hsquash & Hnew & Hold).
  destruct (send_coordinate_trace E isprintable self st placeholder w1)
    as (d_msg & Htr & Hpath & Hobj).
  assert (w' = snd (send_coordinate E isprintable self st placeholder w1)) as Hw'.
  { subst w'. unfold run_plugin_instance_app. rewrite Hscan, Hprev.
    erewrite run_bind by reflexivity. cbv beta iota. rewrite Hst.
    change (last_path_value parameter_dict []) with (@Ret json (JStr [])).
    erewrite (run_bind (_ ≫= _)); [reflexivity|].
    erewrite run_bind by reflexivity.
    rewrite (manage_app_service_fsplugin_inputdir_empty E self []) by reflexivity.
    exact Hsquash. }
  exists d_msg. rewrite Hw', Htr, Hobj. split; [by rewrite last_snoc|].
  split; [exact Hpath|]. split; [apply squashEmptyDir_file_split|].
  split.
  - intros Habsent. rewrite (Hnew Habsent). apply lookup_insert_eq.
  - intros o Ho. rewrite Hold by (by rewrite Ho). exact Ho.
Qed.

Lemma run_plugin_instance_app_squash_empty_witness :
  objects (snd (run_plugin_instance_app (Sample.env_reply JNull) Sample.isprintable
                  Sample.self [(lit "verbose", JBool true)] Sample.world0))
  !! squashEmptyDir_file Sample.self
  = Some (lit "Empty input dir.", lit "text/plain").
Proof.
  destruct (run_plugin_instance_app_squash_empty
              (Sample.env_reply JNull) Sample.isprintable Sample.self
              [(lit "verbose", JBool true)] Sample.world0)
    as (d_msg & _ & _ & _ & Hnew & _).
  - reflexivity.
  - intros nm [->|Hnm%elem_of_nil]%elem_of_cons; [reflexivity | done].
  - reflexivity.
  - reflexivity.
  - apply Hnew. reflexivity.
Defined.

(** C7 as stated fails: with all calls succeeding, an object that was
    already stored at the key of the squash file keeps its content. *)
Lemma squash_empty_content_counterexample :
  let file := squashEmptyDir_file Sample.self in
  let w' := snd (run_plugin_instance_app (Sample.env_reply JNull) Sample.isprintable
                   Sample.self [] (Sample.world_squash_taken file)) in
  fst <$> (objects w' !! file) = Some (lit "unrelated")
  /\ fst <$> (objects w' !! file) <> Some (lit "Empty input dir.").
Proof. vm_compute. split; [reflexivity | discriminate]. Qed.

(** ** The archive builder *)

Lemma digits_from_no_slash (fuel : nat) (n : N) (acc : str) :
  forallb (fun c => negb (c =? slash)%N) acc = true ->
  forallb (fun c => negb (c =? slash)%N) (digits_from fuel n acc) = true.
Proof.
  assert (forall m, negb (48 + m mod 10 =? slash)%N = true) as Hd.
  { intros m. apply negb_true_iff, N.eqb_neq. unfold slash. intros Heq.
    pose proof (N.le_add_r 48 (m mod 10)) as Hle. rewrite Heq in Hle.
    by apply N.leb_le in Hle. }
  revert n acc. induction fuel as [|f IH]; intros n acc Hacc; simpl.
  - by rewrite Hd, Hacc.
  - destruct (n / 10 =? 0)%N; [simpl; by rewrite Hd, Hacc|].
    apply IH. simpl. by rewrite Hd, Hacc.
Qed.

Lemma str_of_Z_no_slash (z : Z) :
  forallb (fun c => negb (c =? slash)%N) (str_of_Z z) = true.
Proof.
  unfold str_of_Z, str_of_N. destruct (z <? 0).
  - rewrite forallb_app. by rewrite digits_from_no_slash.
  - by apply digits_from_no_slash.
Qed.

(** The archive is written into the staging directory. *)
Lemma dirname_zipfile_path (self : PluginInstanceManager) :
  dirname (zipfile_path self) = data_dir self.
Proof.
  unfold zipfile_path. destruct (data_dir_shape self) as [p Hp]. rewrite Hp.
  unfold path_join, str_job_id.
  change (startswith [slash] ((lit "chris-jid-" ++ ?d) ++ ?z)) with false.
  rewrite endswith_slash_snoc by done.
  assert (bool_decide ((p ++ lit "dat") ++ [97%N] = []) = false) as ->.
  { apply bool_decide_eq_false. by destruct p. }
  cbv iota. cbn [orb].
  apply dirname_join; [done|].
  rewrite !forallb_app. by rewrite str_of_Z_no_slash.
Qed.

Lemma try_ClientException_ret {A B : Type} (body : M A) (handler : str -> M B)
    (orelse : A -> M B) (w w' : world) (a : A) :
  body w = (Ret a, w') -> try_ClientException body handler orelse w = orelse a w'.
Proof. intros H. unfold try_ClientException. by rewrite H. Qed.

Lemma try_ClientException_caught {A B : Type} (body : M A) (handler : str -> M B)
    (orelse : A -> M B) (w w' : world) (d : str) :
  body w = (Raise (ClientException d), w') ->
  try_ClientException body handler orelse w = handler d w'.
Proof. intros H. unfold try_ClientException. by rewrite H. Qed.

Lemma entries_of_cons (objs : gmap str (str * str)) (k data ctype : str)
    (rest : list str) :
  objs !! k = Some (data, ctype) ->
  entries_of objs (k :: rest) = (zip_name k, data) :: entries_of objs rest.
Proof. intros H. unfold entries_of. simpl. by rewrite H. Qed.

Section Archive.

Context (E : env).
Variable self : PluginInstanceManager.

Lemma swift_download_obj_run (k data ctype : str) (w : world) :
  swift_fault E (tick w) (OpDownloadObj k) = None ->
  objects w !! k = Some (data, ctype) ->
  swift_download_obj E k w
  = (Ret data,
     World (S (tick w)) (objects w) (dirs w) (zips w) (inst w) (db w) (log w)
       (trace w ++ [EvSwift (OpDownloadObj k)])).
Proof.
  intros Hf Hk. unfold swift_download_obj, swift_call. msimpl.
  rewrite Hf. msimpl. by rewrite Hk.
Qed.

Lemma swift_ls_run (path : str) (w : world) :
  swift_fault E (tick w) (OpLs path) = None ->
  swift_ls E path w
  = (Ret (keys_with_prefix path (objects w)),
     World (S (tick w)) (objects w) (dirs w) (zips w) (inst w) (db w) (log w)
       (trace w ++ [EvSwift (OpLs path)])).
Proof.
  intros Hf. unfold swift_ls, swift_call. msimpl. by rewrite Hf.
Qed.

Lemma swift_ls_fails (path detail : str) (w : world) :
  swift_fault E (tick w) (OpLs path) = Some detail ->
  swift_ls E path w
  = (Raise (ClientException detail),
     World (S (tick w)) (objects w) (dirs w) (zips w) (inst w) (db w) (log w)
       (trace w ++ [EvSwift (OpLs path)])).
Proof.
  intros Hf. unfold swift_ls, swift_call. msimpl. by rewrite Hf.
Qed.

Hypothesis downloads_succeed :
  forall t k, swift_fault E t (OpDownloadObj k) = None.

Lemma download_loop_run (zp : str) (l_ls : list str) (contents : option str)
    (old : list zip_entry) (w : world) :
  (forall k, k ∈ l_ls -> is_Some (objects w !! k)) ->
  zips w !! zp = Some old ->
  exists contents' w',
    download_loop E self zp l_ls contents w = (Ret contents', w')
    /\ objects w' = objects w /\ dirs w' = dirs w
    /\ tick w' = (tick w + length l_ls)%nat
    /\ zips w' !! zp = Some (old ++ entries_of (objects w) l_ls).
Proof.
  revert contents old w. induction l_ls as [|k rest IH]; intros contents old w Hin Hzp.
  - exists contents, w. cbn. rewrite app_nil_r, Nat.add_0_r. done.
  - destruct (Hin k) as [[data ctype] Hk]; [by left|].
    pose proof (swift_download_obj_run k data ctype w (downloads_succeed _ _) Hk) as Hdl.
    set (w1 := World (S (tick w)) (objects w) (dirs w) (zips w) (inst w) (db w)
                 (log w) (trace w ++ [EvSwift (OpDownloadObj k)])) in *.
    set (w2 := World (tick w1) (objects w1) (dirs w1)
                 (<[zp := old ++ [(zip_name k, data)]]> (zips w1))
                 (inst w1) (db w1) (log w1) (trace w1)).
    destruct (IH (Some data) (old ++ [(zip_name k, data)]) w2)
      as (c' & w' & Hrun & Hobj & Hdirs & Htick & Hz).
    { intros k' Hk'. apply Hin. by right. }
    { apply lookup_insert_eq. }
    exists c', w'. split.
    + cbn [download_loop].
      eapply run_bind_eq.
      { erewrite try_ClientException_ret by exact Hdl. reflexivity. }
      cbv beta. eapply run_bind_eq; [reflexivity|]. cbv beta.
      eapply run_bind_eq.
      { unfold ZipFile_writestr. msimpl. change (zips w1) with (zips w).
        rewrite Hzp. reflexivity. }
      exact Hrun.
    + subst w2 w1. cbn [objects dirs tick] in *. split; [done|]. split; [done|].
      split; [cbn [length]; lia|].
      rewrite Hz, (entries_of_cons _ _ _ _ _ Hk). by rewrite <- app_assoc.
Qed.

Lemma keys_with_prefix_present (path k : str) (objs : gmap str (str * str)) :
  k ∈ keys_with_prefix path objs -> is_Some (objs !! k).
Proof.
  unfold keys_with_prefix. intros [_ Hk]%list_elem_of_filter.
  apply list_elem_of_fmap in Hk as ([k' o] & -> & Hk).
  apply elem_of_map_to_list in Hk. by eexists.
Qed.

(** Without a failed download, the loop over the prefixes returns and
    adds to the archive the objects of every prefix whose listing
    succeeded; a failed listing adds nothing and stops nothing. *)
Lemma paths_loop_run (zp : str) (swift_paths : list str) (contents : option str)
    (old : list zip_entry) (w : world) :
  zips w !! zp = Some old ->
  exists contents' w',
    paths_loop E self zp swift_paths contents w = (Ret contents', w')
    /\ objects w' = objects w /\ dirs w' = dirs w
    /\ zips w' !! zp = Some (old ++ archive_of E (objects w) swift_paths (tick w)).
Proof.
  revert contents old w.
  induction swift_paths as [|p rest IH]; intros contents old w Hzp.
  - exists contents, w. cbn. by rewrite app_nil_r.
  - cbn [paths_loop archive_of].
    destruct (swift_fault E (tick w) (OpLs p)) as [detail|] eqn:Hf.
    + pose proof (swift_ls_fails p detail w Hf) as Hls.
      set (w1 := World (S (tick w)) (objects w) (dirs w) (zips w) (inst w) (db w)
                   (log w) (trace w ++ [EvSwift (OpLs p)])) in *.
      set (w2 := snd (logger ERROR
                        (percent (lit "Listing of swift storage files in %s failed, detail: %s")
                           [p; detail]) [] w1)).
      destruct (IH contents old w2 Hzp) as (c' & w' & Hrun & Hobj & Hdirs & Hz).
      exists c', w'. split; [|done].
      eapply run_bind_eq.
      { erewrite try_ClientException_caught by exact Hls. reflexivity. }
      cbv beta. eapply run_bind_eq; [reflexivity|]. exact Hrun.
    + pose proof (swift_ls_run p w Hf) as Hls.
      set (w1 := World (S (tick w)) (objects w) (dirs w) (zips w) (inst w) (db w)
                   (log w) (trace w ++ [EvSwift (OpLs p)])) in *.
      destruct (download_loop_run zp (keys_with_prefix p (objects w)) contents old w1)
        as (c1 & w2 & Hdl & Hobj2 & Hdirs2 & Htick2 & Hz2).
      { intros k. apply keys_with_prefix_present. }
      { exact Hzp. }
      destruct (IH c1 _ w2 Hz2) as (c' & w' & Hrun & Hobj & Hdirs & Hz).
      exists c', w'. split.
      * eapply run_bind_eq.
        { erewrite try_ClientException_ret by exact Hls. reflexivity. }
        cbv beta. eapply run_bind_eq; [exact Hdl|]. exact Hrun.
      * subst w1. cbn [objects dirs tick] in *. split; [congruence|]. split; [congruence|].
        rewrite Hz, Hobj2, Htick2. cbn zeta. by rewrite <- app_assoc.
Qed.

End Archive.

(** C9 (amended). [create_zip_file] has no return value: when the staging
    directory is there or can be made and no download fails, it returns
    [None] for every sequence of prefixes and whatever listings fail, the
    archive being the file [<data_dir>/<job id>.zip] with the objects of
    the prefixes whose listing succeeded. *)
Theorem create_zip_file_returns_None
    (E : env) (self : PluginInstanceManager) (swift_paths : list str) (w : world) :
  (forall t k, swift_fault E t (OpDownloadObj k) = None) ->
  (data_dir self ∈ dirs w)
  \/ ((data_dir self ∉ dirs w) /\ zips w !! data_dir self = None
      /\ makedirs_fault E (tick w) (data_dir self) = None) ->
  exists w',
    create_zip_file E self swift_paths w = (Ret JNull, w')
    /\ zips w' !! zipfile_path self
       = Some (archive_of E (objects w) swift_paths
                 (if bool_decide (data_dir self ∈ dirs w) then tick w else S (tick w)))
    /\ objects w' = objects w.
Proof.
  intros Hdl Hdir. unfold create_zip_file, os_path_exists, ZipFile_open_w.
  rewrite dirname_zipfile_path.
  destruct Hdir as [Hin | (Hnin & Hfile & Hmk)].
  - rewrite (bool_decide_eq_true_2 _ Hin).
    set (w1 := World (tick w) (objects w) (dirs w) (<[zipfile_path self := []]> (zips w))
                 (inst w) (db w) (log w) (trace w)).
    destruct (paths_loop_run E self Hdl (zipfile_path self) swift_paths None [] w1)
      as (c & w' & Hrun & Hobj & _ & Hz); [apply lookup_insert_eq|].
    exists w'. split; [|done].
    eapply run_bind_eq; [msimpl; rewrite (bool_decide_eq_true_2 _ Hin); reflexivity|].
    cbv beta. cbn [orb negb].
    eapply run_bind_eq; [reflexivity|]. cbv beta.
    eapply run_bind_eq.
    { msimpl. rewrite (bool_decide_eq_true_2 _ Hin), orb_true_r. reflexivity. }
    cbv beta. eapply run_bind_eq; [exact Hrun|]. reflexivity.
  - rewrite (bool_decide_eq_false_2 _ Hnin).
    set (w1 := World (S (tick w)) (objects w) ({[data_dir self]} ∪ dirs w)
                 (<[zipfile_path self := []]> (zips w))
                 (inst w) (db w) (log w) (trace w ++ [EvMakedirs (data_dir self)])).
    destruct (paths_loop_run E self Hdl (zipfile_path self) swift_paths None [] w1)
      as (c & w' & Hrun & Hobj & _ & Hz); [apply lookup_insert_eq|].
    exists w'. split; [|done].
    assert (bool_decide (is_Some (zips w !! data_dir self)) = false) as Hno.
    { rewrite Hfile. apply bool_decide_eq_false. by intros [? ?]. }
    eapply run_bind_eq.
    { msimpl. rewrite (bool_decide_eq_false_2 _ Hnin), Hno. reflexivity. }
    cbv beta. cbn [orb negb].
    eapply run_bind_eq.
    { unfold try_OSError, os_makedirs. msimpl. rewrite Hmk. msimpl. reflexivity. }
    cbv beta.
    eapply run_bind_eq.
    { msimpl.
      assert (bool_decide (data_dir self ∈ {[data_dir self]} ∪ dirs w) = true) as ->.
      { apply bool_decide_eq_true. set_solver. }
      rewrite orb_true_r. reflexivity. }
    cbv beta. eapply run_bind_eq; [exact Hrun|]. reflexivity.
Qed.

Lemma create_zip_file_returns_None_witness :
  fst (create_zip_file (Sample.env_zip_faults None) Sample.self
         [lit "a/"; lit "b/"] Sample.world_store) = Ret JNull.
Proof.
  destruct (create_zip_file_returns_None (Sample.env_zip_faults None) Sample.self
              [lit "a/"; lit "b/"] Sample.world_store)
    as (w' & -> & _).
  - reflexivity.
  - right. split; [set_solver|]. split; reflexivity.
  - reflexivity.
Defined.

(** C9 as stated fails: the value of [create_zip_file] is [None], not the
    path of the archive. *)
Lemma create_zip_file_path_counterexample :
  fst (create_zip_file (Sample.env_reply JNull) Sample.self [] Sample.world0)
  <> Ret (JStr (zipfile_path Sample.self)).
Proof. vm_compute. discriminate. Qed.

(** C3. The failing input: the download of [a/x] fails after that of
    [a/y] succeeded (and the listing of [b/] fails).  The method returns,
    and the archive holds a member [a/x] with the data of [a/y]: a failed
    download is logged but not skipped. *)
Theorem create_zip_file_keeps_failed_download :
  let r := create_zip_file (Sample.env_zip_faults (Some (lit "a/x"))) Sample.self
             [lit "a/"; lit "b/"] Sample.world_store in
  fst r = Ret JNull
  /\ zips (snd r) !! zipfile_path Sample.self
     = Some [(lit "a/y", lit "data of y"); (lit "a/x", lit "data of y")]
  /\ map log_level (log (snd r)) = [ERROR; ERROR].
Proof. vm_compute. done. Qed.

(** When the first download of all fails, [contents] is unbound and the
    method ends with UnboundLocalError. *)
Example create_zip_file_unbound_contents :
  fst (create_zip_file (Sample.env_zip_faults (Some (lit "a/y"))) Sample.self
         [lit "a/"; lit "b/"] Sample.world_store)
  = Raise (UnboundLocalError (lit "contents")).
Proof. vm_compute. done. Qed.

(** ** Reading numbers back *)

Lemma scan_digits_app (ds rest : str) (a : N) :
  forallb is_digit ds = true ->
  match rest with c :: _ => is_digit c = false | [] => True end ->
  scan_digits (ds ++ rest) a = (dec_value ds a, rest).
Proof.
  revert a. induction ds as [|d ds IH]; intros a Hds Hrest; simpl.
  - destruct rest as [|c r]; [done|]. simpl. by rewrite Hrest.
  - apply andb_prop in Hds as [Hd Hds]. rewrite Hd. by apply IH.
Qed.

(** The digits [digits_from] writes in front of [acc] *)
Lemma digits_from_spec (fuel : nat) (n : N) (acc : str) :
  (n < 2 ^ N.of_nat fuel)%N ->
  exists d ds,
    digits_from fuel n acc = (d :: ds) ++ acc
    /\ forallb is_digit (d :: ds) = true
    /\ (forall a, dec_value (d :: ds) a = (a * 10 ^ N.of_nat (length (d :: ds)) + n)%N)
    /\ (d = 48%N -> n = 0%N /\ ds = []).
Proof.
  revert n acc. induction fuel as [|f IH]; intros n acc Hn.
  - assert (n = 0%N) as -> by (simpl in Hn; lia).
    exists 48%N, []. cbn. split; [done|]. split; [done|]. split; [intros; lia|done].
  - cbn [digits_from].
    assert (n mod 10 < 10)%N as Hmod by (apply N.mod_upper_bound; lia).
    pose proof (N.div_mod n 10 ltac:(lia)) as Hdm.
    rewrite Nat2N.inj_succ, N.pow_succ_r' in Hn.
    set (r := (n mod 10)%N) in *. set (q := (n / 10)%N) in *.
    set (p := (2 ^ N.of_nat f)%N) in *. clearbody r q p.
    assert (is_digit (48 + r) = true) as Hr.
    { unfold is_digit. apply andb_true_intro. split; apply N.leb_le; lia. }
    destruct (q =? 0)%N eqn:Hq.
    + apply N.eqb_eq in Hq. exists (48 + r)%N, []. cbn [app forallb length].
      split; [done|]. split; [by rewrite Hr|].
      split; [intros a; cbn; lia|]. intros Hd. split; [lia|done].
    + apply N.eqb_neq in Hq.
      destruct (IH q ((48 + r)%N :: acc)) as (d & ds & Heq & Hdig & Hval & Hz);
        [lia|].
      exists d, (ds ++ [(48 + r)%N]). split.
      { rewrite Heq. cbn. by rewrite <- app_assoc. }
      split.
      { change (d :: ds ++ ?x) with ((d :: ds) ++ x). rewrite forallb_app, Hdig.
        cbn [forallb andb]. by rewrite Hr. }
      split.
      { intros a. change (d :: ds ++ ?x) with ((d :: ds) ++ x).
        unfold dec_value in *. rewrite fold_left_app, Hval. cbn [fold_left].
        rewrite length_app. cbn [length].
        rewrite Nat.add_1_r, !Nat2N.inj_succ, !N.pow_succ_r'.
        set (e := (10 ^ N.of_nat (length ds))%N). clearbody e. lia. }
      intros ->. destruct (Hz eq_refl) as [H0 _]. contradiction.
Qed.

Lemma N_size_bound (n : N) : (n < 2 ^ N.of_nat (N.to_nat (N.size n)))%N.
Proof. rewrite N2Nat.id. apply N.size_gt. Qed.

Lemma str_of_N_spec (n : N) :
  exists d ds,
    str_of_N n = d :: ds
    /\ forallb is_digit (d :: ds) = true
    /\ dec_value (d :: ds) 0 = n
    /\ (d = 48%N -> n = 0%N /\ ds = []).
Proof.
  unfold str_of_N.
  destruct (digits_from_spec (N.to_nat (N.size n)) n [] (N_size_bound n))
    as (d & ds & Heq & Hdig & Hval & Hz).
  exists d, ds. rewrite Heq, app_nil_r. split; [done|]. split; [done|].
  split; [rewrite Hval; lia | done].
Qed.

Lemma closes_not_digit (rest : str) :
  closes rest = true ->
  match rest with c :: _ => is_digit c = false | [] => True end.
Proof.
  destruct rest as [|c r]; [done|]. unfold closes.
  intros H.
  apply orb_prop in H as [H|H]; [apply orb_prop in H as [H|H]|];
    apply N.eqb_eq in H; subst c; reflexivity.
Qed.

Lemma closes_not_float (rest : str) : closes rest = true -> is_float_tail rest = false.
Proof.
  destruct rest as [|c [|d r]]; [done|done|]. unfold closes, is_float_tail.
  intros H.
  apply orb_prop in H as [H|H]; [apply orb_prop in H as [H|H]|];
    apply N.eqb_eq in H; subst c; reflexivity.
Qed.

Lemma scan_number_str_of_Z (z : Z) (rest : str) :
  closes rest = true ->
  scan_number (str_of_Z z ++ rest) = Some (JInt z, rest).
Proof.
  intros Hrest. unfold str_of_Z.
  destruct (str_of_N_spec (Z.abs_N z)) as (d & ds & Heq & Hdig & Hval & Hz).
  pose proof Hdig as Hdig'. cbn [forallb] in Hdig'. apply andb_prop in Hdig' as [Hd _].
  assert ((d =? 45)%N = false) as Hd45.
  { unfold is_digit in Hd. apply andb_prop in Hd as [Hd _]. apply N.leb_le in Hd.
    apply N.eqb_neq. lia. }
  rewrite Heq. unfold scan_number. destruct (z <? 0) eqn:Hneg.
  - apply Z.ltb_lt in Hneg. cbn [lit map list_ascii_of_string app].
    change (N_of_ascii "-") with 45%N. rewrite N.eqb_refl. cbn [drop].
    destruct (d =? 48)%N eqn:Hd0.
    + apply N.eqb_eq in Hd0. destruct (Hz Hd0) as [H0 _]. lia.
    + rewrite Hd.
      change (d :: ds ++ rest) with ((d :: ds) ++ rest).
      rewrite scan_digits_app by (done || by apply closes_not_digit).
      cbn [fst snd]. rewrite closes_not_float by done. rewrite Hval.
      do 3 f_equal. lia.
  - apply Z.ltb_ge in Hneg. cbn [app]. rewrite Hd45.
    destruct (d =? 48)%N eqn:Hd0.
    + apply N.eqb_eq in Hd0. destruct (Hz Hd0) as [H0 ->]. cbn [app].
      rewrite closes_not_float by done. do 3 f_equal. lia.
    + rewrite Hd.
      change (d :: ds ++ rest) with ((d :: ds) ++ rest).
      rewrite scan_digits_app by (done || by apply closes_not_digit).
      cbn [fst snd]. rewrite closes_not_float by done. rewrite Hval.
      do 3 f_equal. lia.
Qed.

(** ** Reading strings back *)

Lemma hex_value_hex_digit (d : N) : (d < 16)%N -> hex_value (hex_digit d) = Some d.
Proof.
  intros Hd. unfold hex_digit, hex_value, is_digit.
  destruct (d <? 10)%N eqn:H10.
  - apply N.ltb_lt in H10.
    assert ((48 <=? 48 + d)%N && (48 + d <=? 57)%N = true) as ->.
    { apply andb_true_intro. split; apply N.leb_le; lia. }
    f_equal. lia.
  - apply N.ltb_ge in H10.
    assert ((48 <=? 87 + d)%N && (87 + d <=? 57)%N = false) as ->.
    { apply andb_false_iff. right. apply N.leb_gt. lia. }
    assert ((97 <=? 87 + d)%N && (87 + d <=? 102)%N = true) as ->.
    { apply andb_true_intro. split; apply N.leb_le; lia. }
    f_equal. lia.
Qed.

Lemma hex4_value (c : N) :
  (c < 65536)%N ->
  ((((c / 4096) mod 16 * 16 + (c / 256) mod 16) * 16 + (c / 16) mod 16) * 16
   + c mod 16 = c)%N.
Proof.
  intros Hc.
  pose proof (N.div_mod c 16 ltac:(lia)) as H0.
  pose proof (N.div_mod (c / 16) 16 ltac:(lia)) as H1.
  pose proof (N.div_mod (c / 16 / 16) 16 ltac:(lia)) as H2.
  pose proof (N.div_mod (c / 16 / 16 / 16) 16 ltac:(lia)) as H3.
  pose proof (N.mod_upper_bound c 16 ltac:(lia)) as B0.
  pose proof (N.mod_upper_bound (c / 16) 16 ltac:(lia)) as B1.
  pose proof (N.mod_upper_bound (c / 16 / 16) 16 ltac:(lia)) as B2.
  pose proof (N.mod_upper_bound (c / 16 / 16 / 16) 16 ltac:(lia)) as B3.
  replace (c / 4096)%N with (c / 16 / 16 / 16)%N by (rewrite !N.Div0.div_div; f_equal).
  replace (c / 256)%N with (c / 16 / 16)%N by (rewrite !N.Div0.div_div; f_equal).
  set (r0 := (c mod 16)%N) in *. set (q1 := (c / 16)%N) in *.
  set (r1 := (q1 mod 16)%N) in *. set (q2 := (q1 / 16)%N) in *.
  set (r2 := (q2 mod 16)%N) in *. set (q3 := (q2 / 16)%N) in *.
  set (r3 := (q3 mod 16)%N) in *. set (q4 := (q3 / 16)%N) in *.
  clearbody r0 q1 r1 q2 r2 q3 r3 q4. lia.
Qed.

Lemma decode_uXXXX_hex4 (c : N) (tail : str) :
  (c < 65536)%N -> decode_uXXXX (hex4 c ++ tail) = Some (c, tail).
Proof.
  intros Hc. unfold hex4, decode_uXXXX. cbn [app].
  rewrite !hex_value_hex_digit by (apply N.mod_upper_bound; lia).
  cbn. by rewrite hex4_value.
Qed.

Lemma astral_join (c : N) :
  (65536 <= c < 1114112)%N ->
  (65536 + (55296 + ((c - 65536) / 1024) mod 1024 - 55296) * 1024
   + (56320 + (c - 65536) mod 1024 - 56320) = c)%N.
Proof.
  intros Hc. remember (c - 65536)%N as v eqn:Hv.
  assert (v < 1048576)%N as Hlt by lia.
  pose proof (N.div_mod v 1024 ltac:(lia)) as H0.
  pose proof (N.mod_upper_bound v 1024 ltac:(lia)) as B0.
  assert (v / 1024 < 1024)%N as B1 by (apply N.Div0.div_lt_upper_bound; lia).
  rewrite (N.mod_small (v / 1024) 1024) by done.
  set (r := (v mod 1024)%N) in *. set (q := (v / 1024)%N) in *.
  clearbody r q. lia.
Qed.

(** The four shapes of an escaped character *)
Lemma escape_char_cases (c : N) :
  (c < 1114112)%N ->
  (exists e, escape_char c = [backslash; e] /\ (e =? 117)%N = false
             /\ simple_escape e = Some c)
  \/ (escape_char c = [c] /\ (c =? dquote)%N = false /\ (c =? backslash)%N = false
      /\ (c <? 32)%N = false)
  \/ (escape_char c = backslash :: 117%N :: hex4 c /\ (c < 65536)%N)
  \/ (escape_char c
      = (backslash :: 117%N :: hex4 (55296 + ((c - 65536) / 1024) mod 1024))
        ++ backslash :: 117%N :: hex4 (56320 + (c - 65536) mod 1024)
      /\ (65536 <= c)%N).
Proof.
  intros Hc. unfold escape_char.
  destruct (c =? dquote)%N eqn:E1.
  { apply N.eqb_eq in E1 as ->. left. by exists dquote. }
  destruct (c =? backslash)%N eqn:E2.
  { apply N.eqb_eq in E2 as ->. left. by exists backslash. }
  destruct (c =? 10)%N eqn:E3.
  { apply N.eqb_eq in E3 as ->. left. by exists 110%N. }
  destruct (c =? 13)%N eqn:E4.
  { apply N.eqb_eq in E4 as ->. left. by exists 114%N. }
  destruct (c =? 9)%N eqn:E5.
  { apply N.eqb_eq in E5 as ->. left. by exists 116%N. }
  destruct (c =? 8)%N eqn:E6.
  { apply N.eqb_eq in E6 as ->. left. by exists 98%N. }
  destruct (c =? 12)%N eqn:E7.
  { apply N.eqb_eq in E7 as ->. left. by exists 102%N. }
  destruct ((32 <=? c)%N && (c <=? 126)%N) eqn:E8.
  { right. left. apply andb_prop in E8 as [H32 _]. apply N.leb_le in H32.
    split; [done|]. split; [done|]. split; [done|]. apply N.ltb_ge. lia. }
  destruct (c <? 65536)%N eqn:E9.
  { right. right. left. apply N.ltb_lt in E9. done. }
  right. right. right. apply N.ltb_ge in E9. done.
Qed.

Lemma high_half_not_low (v : N) :
  is_low_surrogate (55296 + (v / 1024) mod 1024) = false.
Proof.
  pose proof (N.mod_upper_bound (v / 1024) 1024 ltac:(lia)) as B.
  set (r := ((v / 1024) mod 1024)%N) in *. clearbody r.
  unfold is_low_surrogate. apply andb_false_iff. left. apply N.leb_gt. lia.
Qed.

Lemma high_half_high (v : N) :
  is_high_surrogate (55296 + (v / 1024) mod 1024) = true.
Proof.
  pose proof (N.mod_upper_bound (v / 1024) 1024 ltac:(lia)) as B.
  set (r := ((v / 1024) mod 1024)%N) in *. clearbody r.
  unfold is_high_surrogate. apply andb_true_intro. split; apply N.leb_le; lia.
Qed.

Lemma low_half_low (v : N) : is_low_surrogate (56320 + v mod 1024) = true.
Proof.
  pose proof (N.mod_upper_bound v 1024 ltac:(lia)) as B.
  set (r := (v mod 1024)%N) in *. clearbody r.
  unfold is_low_surrogate. apply andb_true_intro. split; apply N.leb_le; lia.
Qed.

Lemma half_bmp (a v : N) : (a <= 56320)%N -> (a + v mod 1024 < 65536)%N.
Proof.
  intros Ha. pose proof (N.mod_upper_bound v 1024 ltac:(lia)) as B.
  set (r := (v mod 1024)%N) in *. clearbody r. lia.
Qed.

Lemma str_ok_cons (c : N) (s : str) :
  str_ok (c :: s) = true ->
  (c < 1114112)%N
  /\ (is_high_surrogate c = true ->
      match s with d :: _ => is_low_surrogate d = false | [] => True end)
  /\ str_ok s = true.
Proof.
  cbn [str_ok]. intros [[Hc Hpair]%andb_prop Hs]%andb_prop.
  apply N.ltb_lt in Hc. split; [done|]. split; [|done].
  intros Hh. rewrite Hh in Hpair. destruct s as [|d s']; [done|].
  by apply negb_true_iff in Hpair.
Qed.

(** What follows a [\u] escape: when the text goes on with [\u], four
    hexadecimal digits follow, and they spell a low surrogate only when
    the next character of the string is one. *)
Lemma peek_escape (s rest : str) :
  str_ok s = true ->
  startswith [backslash; 117%N] (escaped s ++ dquote :: rest) = true ->
  exists x r,
    decode_uXXXX (drop 2 (escaped s ++ dquote :: rest)) = Some (x, r)
    /\ (is_low_surrogate x = true ->
        match s with d :: _ => is_low_surrogate d = true | [] => False end).
Proof.
  destruct s as [|d s']; [done|].
  intros (Hd & _ & _)%str_ok_cons. unfold escaped. cbn [map concat].
  destruct (escape_char_cases d Hd)
    as [(e & -> & He & _) | [(-> & _ & Hb & _) | [(-> & Hlt) | (-> & Hge)]]].
  - cbn [app startswith]. rewrite (N.eqb_sym 117 e), He. by rewrite andb_false_r.
  - cbn [app startswith]. rewrite (N.eqb_sym backslash d), Hb. done.
  - intros _. cbn [app skipn]. rewrite drop_0, <- app_assoc.
    rewrite decode_uXXXX_hex4 by done.
    eexists _, _. split; [reflexivity|done].
  - intros _. cbn [app skipn]. rewrite drop_0, <- !app_assoc.
    rewrite decode_uXXXX_hex4 by (apply half_bmp; lia).
    eexists _, _. split; [reflexivity|]. by rewrite high_half_not_low.
Qed.

Lemma scanstring_step (c : N) (s rest acc : str) (f : nat) :
  str_ok (c :: s) = true ->
  scanstring (S f) (escape_char c ++ escaped s ++ dquote :: rest) acc
  = scanstring f (escaped s ++ dquote :: rest) (c :: acc).
Proof.
  intros Hok. pose proof Hok as (Hc & Hpair & Hs)%str_ok_cons.
  set (tail := escaped s ++ dquote :: rest) in *.
  destruct (escape_char_cases c Hc)
    as [(e & -> & He & Hsimple) | [(-> & Hq & Hb & H32) | [(-> & Hlt) | (-> & Hge)]]].
  - cbn [app scanstring]. change (backslash =? dquote)%N with false.
    rewrite N.eqb_refl. cbv iota. rewrite He, Hsimple. done.
  - cbn [app scanstring]. by rewrite Hq, Hb, H32.
  - cbn [app scanstring]. change (backslash =? dquote)%N with false.
    rewrite N.eqb_refl. cbv iota. change (117 =? 117)%N with true. cbv iota.
    rewrite decode_uXXXX_hex4 by done.
    destruct (is_high_surrogate c && startswith [backslash; 117%N] tail) eqn:Hpeek; [|done].
    apply andb_prop in Hpeek as [Hhigh Hstart].
    destruct (peek_escape s rest Hs Hstart) as (x & r & Hdec & Hlow).
    fold tail in Hdec. rewrite Hdec.
    destruct (is_low_surrogate x) eqn:Hx; [|done].
    specialize (Hlow eq_refl). specialize (Hpair Hhigh).
    destruct s as [|d s']; [done|]. congruence.
  - cbn [app scanstring]. change (backslash =? dquote)%N with false.
    rewrite N.eqb_refl. cbv iota. change (117 =? 117)%N with true. cbv iota.
    rewrite <- app_assoc.
    rewrite decode_uXXXX_hex4 by (apply half_bmp; lia).
    rewrite high_half_high. cbn [app startswith andb].
    rewrite !N.eqb_refl. cbn [andb skipn]. rewrite drop_0.
    rewrite decode_uXXXX_hex4 by (apply half_bmp; lia).
    rewrite low_half_low. by rewrite astral_join.
Qed.

Lemma scanstring_escaped (s rest acc : str) (fuel : nat) :
  str_ok s = true -> (length s < fuel)%nat ->
  scanstring fuel (escaped s ++ dquote :: rest) acc = Some (rev acc ++ s, rest).
Proof.
  revert acc fuel. induction s as [|c s IH]; intros acc fuel Hok Hfuel.
  - destruct fuel as [|f]; [cbn in Hfuel; lia|].
    cbn. by rewrite app_nil_r.
  - destruct fuel as [|f]; [cbn in Hfuel; lia|].
    unfold escaped. cbn [map concat]. rewrite <- app_assoc.
    fold (escaped s). rewrite scanstring_step by done.
    pose proof Hok as (_ & _ & Hs)%str_ok_cons.
    rewrite IH by (done || cbn in Hfuel; lia).
    cbn [rev]. by rewrite <- app_assoc.
Qed.

Lemma length_escaped (s : str) : (length s <= length (escaped s))%nat.
Proof.
  induction s as [|c s IH]; [done|]. unfold escaped in *. cbn [map concat].
  rewrite length_app. cbn [length].
  assert (1 <= length (escape_char c))%nat; [|lia].
  unfold escape_char.
  repeat match goal with
         | |- context [if ?b then _ else _] => destruct b
         end; cbn; lia.
Qed.

(** A quoted string is read back. *)
Lemma scanstring_json_quote (s rest : str) :
  str_ok s = true ->
  scanstring (S (length (escaped s ++ dquote :: rest)))
    (escaped s ++ dquote :: rest) [] = Some (s, rest).
Proof.
  intros Hok. apply (scanstring_escaped s rest []); [done|].
  rewrite length_app. pose proof (length_escaped s). lia.
Qed.

(** ** Reading values back *)

Lemma parse_value_S (f : nat) (c : N) (r : str) :
  parse_value (S f) (c :: r)
  = if (c =? dquote)%N then
      match scanstring (S (length r)) r [] with
      | Some (x, r') => Some (JStr x, r')
      | None => None
      end
    else if (c =? 91)%N then
      if startswith [93%N] (skip_ws r)
      then Some (JList [], drop 1 (skip_ws r))
      else parse_elems f (skip_ws r) []
    else if (c =? 123)%N then
      if startswith [125%N] (skip_ws r)
      then Some (JDict [], drop 1 (skip_ws r))
      else parse_members f (skip_ws r) []
    else if startswith (lit "null") (c :: r) then Some (JNull, drop 4 (c :: r))
    else if startswith (lit "true") (c :: r) then Some (JBool true, drop 4 (c :: r))
    else if startswith (lit "false") (c :: r) then Some (JBool false, drop 5 (c :: r))
    else scan_number (c :: r).
Proof. reflexivity. Qed.

Lemma parse_elems_S (f : nat) (s : str) (acc : list json) :
  parse_elems (S f) s acc
  = match parse_value f s with
    | None => None
    | Some (v, r) =>
        if startswith [44%N] (skip_ws r)
        then parse_elems f (skip_ws (drop 1 (skip_ws r))) (v :: acc)
        else if startswith [93%N] (skip_ws r)
        then Some (JList (rev (v :: acc)), drop 1 (skip_ws r))
        else None
    end.
Proof. reflexivity. Qed.

Lemma parse_members_S (f : nat) (s : str) (acc : list (str * json)) :
  parse_members (S f) s acc
  = if startswith [dquote] s then
      match scanstring (length s) (drop 1 s) [] with
      | None => None
      | Some (k, r1) =>
          if startswith [58%N] (skip_ws r1) then
            match parse_value f (skip_ws (drop 1 (skip_ws r1))) with
            | None => None
            | Some (v, r3) =>
                if startswith [44%N] (skip_ws r3)
                then parse_members f (skip_ws (drop 1 (skip_ws r3))) ((k, v) :: acc)
                else if startswith [125%N] (skip_ws r3)
                then Some (JDict (dict_of_pairs (rev ((k, v) :: acc))),
                           drop 1 (skip_ws r3))
                else None
            end
          else None
      end
    else None.
Proof. reflexivity. Qed.

Lemma skip_ws_head (c : N) (r : str) :
  is_json_ws c = false -> skip_ws (c :: r) = c :: r.
Proof. intros H. unfold skip_ws. cbn [lstrip_by]. by rewrite H. Qed.

Lemma skip_ws_space (r : str) : skip_ws (32%N :: r) = skip_ws r.
Proof. reflexivity. Qed.

Lemma str_of_Z_head (z : Z) :
  exists c r, str_of_Z z = c :: r /\ (c = 45%N \/ is_digit c = true).
Proof.
  unfold str_of_Z.
  destruct (str_of_N_spec (Z.abs_N z)) as (d & ds & Heq & Hdig & _).
  cbn [forallb] in Hdig. apply andb_prop in Hdig as [Hd _].
  rewrite Heq. destruct (z <? 0).
  - exists 45%N, (d :: ds). split; [reflexivity | by left].
  - exists d, ds. split; [reflexivity | by right].
Qed.

Lemma digit_range (c : N) : is_digit c = true -> (48 <= c <= 57)%N.
Proof.
  unfold is_digit. intros [H1 H2]%andb_prop.
  apply N.leb_le in H1. apply N.leb_le in H2. lia.
Qed.

(** A text that starts as a number is read as a number. *)
Lemma parse_value_number (f : nat) (c : N) (r : str) :
  c = 45%N \/ is_digit c = true ->
  parse_value (S f) (c :: r) = scan_number (c :: r).
Proof.
  intros H. rewrite parse_value_S.
  assert (forall k, (k = 34 \/ k = 91 \/ k = 123 \/ k = 110 \/ k = 116 \/ k = 102)%N ->
                    (c =? k)%N = false) as Hne.
  { intros k Hk. apply N.eqb_neq. destruct H as [-> | H%digit_range]; lia. }
  unfold dquote. rewrite !Hne by lia.
  change (lit "null") with [110; 117; 108; 108]%N.
  change (lit "true") with [116; 114; 117; 101]%N.
  change (lit "false") with [102; 97; 108; 115; 101]%N.
  cbn [startswith].
  rewrite (N.eqb_sym 110 c), (N.eqb_sym 116 c), (N.eqb_sym 102 c).
  rewrite !Hne by lia. reflexivity.
Qed.

(** The text of a value starts with a character that is neither white
    space nor a closing bracket. *)
Lemma json_dumps_head (v : json) :
  exists c r, json_dumps v = c :: r /\ is_json_ws c = false /\ (93 =? c)%N = false.
Proof.
  destruct v as [ | [|] | z | s | l | d ].
  - by exists 110%N, [117; 108; 108]%N.
  - by exists 116%N, [114; 117; 101]%N.
  - by exists 102%N, [97; 108; 115; 101]%N.
  - destruct (str_of_Z_head z) as (c & r & Heq & Hc). exists c, r.
    split; [done|]. destruct Hc as [-> | Hc%digit_range]; [done|].
    split; [|apply N.eqb_neq; lia].
    unfold is_json_ws. repeat (apply orb_false_intro); apply N.eqb_neq; lia.
  - cbn [json_dumps]. unfold json_quote. by eexists _, _.
  - cbn [json_dumps]. by eexists 91%N, _.
  - cbn [json_dumps]. by eexists 123%N, _.
Qed.

Lemma skip_ws_json_dumps (v : json) (rest : str) :
  skip_ws (json_dumps v ++ rest) = json_dumps v ++ rest.
Proof.
  destruct (json_dumps_head v) as (c & r & -> & Hws & _).
  cbn [app]. by apply skip_ws_head.
Qed.

Lemma join_head (sep x : str) (l : list str) :
  exists t, join sep (x :: l) = x ++ t.
Proof.
  destruct l as [|y l].
  - exists []. cbn [join]. by rewrite app_nil_r.
  - by eexists.
Qed.

Lemma closes_comma (r : str) : closes (44%N :: r) = true.
Proof. reflexivity. Qed.

Lemma closes_bracket (r : str) : closes (93%N :: r) = true.
Proof. reflexivity. Qed.

Lemma closes_brace (r : str) : closes (125%N :: r) = true.
Proof. reflexivity. Qed.

(** ** A dict read item by item *)

Lemma dict_set_fresh (k : str) (v : json) (items : list (str * json)) :
  k ∉ map fst items -> dict_set k v items = items ++ [(k, v)].
Proof.
  induction items as [|[k' v'] items IH]; intros Hk; [done|].
  cbn [dict_set]. cbn [map fst] in Hk. apply not_elem_of_cons in Hk as [Hne Hk].
  destruct (str_eqb k' k) eqn:E.
  - apply str_eqb_eq in E. congruence.
  - cbn [app]. by rewrite IH.
Qed.

Lemma dict_of_pairs_fresh (pairs d0 : list (str * json)) :
  NoDup (map fst (d0 ++ pairs)) ->
  fold_left (fun d kv => dict_set kv.1 kv.2 d) pairs d0 = d0 ++ pairs.
Proof.
  revert d0. induction pairs as [|[k v] pairs IH]; intros d0 Hnd.
  - by rewrite app_nil_r.
  - cbn [fold_left fst snd].
    assert (d0 ++ (k, v) :: pairs = (d0 ++ [(k, v)]) ++ pairs) as Heq
      by (by rewrite <- app_assoc).
    rewrite Heq in Hnd. rewrite Heq.
    rewrite dict_set_fresh.
    + by apply IH.
    + rewrite !map_app in Hnd. apply NoDup_app in Hnd as [Hnd _].
      apply NoDup_app in Hnd as (_ & Hdisj & _).
      intros Hin. apply (Hdisj k Hin). cbn [map fst]. constructor.
Qed.

Lemma dict_of_pairs_NoDup (d : list (str * json)) :
  NoDup (map fst d) -> dict_of_pairs d = d.
Proof. intros H. unfold dict_of_pairs. by rewrite dict_of_pairs_fresh. Qed.

Lemma startswith_1 (c : N) (r : str) : startswith [c] (c :: r) = true.
Proof. cbn [startswith]. by rewrite N.eqb_refl. Qed.

Lemma drop_1_cons (c : N) (r : str) : drop 1 (c :: r) = r.
Proof. reflexivity. Qed.

Lemma parse_members_quote (f : nat) (r : str) (acc : list (str * json)) :
  parse_members (S f) (dquote :: r) acc
  = match scanstring (S (length r)) r [] with
    | None => None
    | Some (k, r1) =>
        if startswith [58%N] (skip_ws r1) then
          match parse_value f (skip_ws (drop 1 (skip_ws r1))) with
          | None => None
          | Some (v, r3) =>
              if startswith [44%N] (skip_ws r3)
              then parse_members f (skip_ws (drop 1 (skip_ws r3))) ((k, v) :: acc)
              else if startswith [125%N] (skip_ws r3)
              then Some (JDict (dict_of_pairs (rev ((k, v) :: acc))),
                         drop 1 (skip_ws r3))
              else None
          end
        else None
    end.
Proof. reflexivity. Qed.

(** ** The text of a value is read back as the value *)

Lemma parse_elems_dumps (l : list json) :
  forall (x : json) (acc : list json) (fuel : nat) (rest : str),
    Forall reads_back (x :: l) ->
    forallb json_ok (x :: l) = true ->
    (fold_right (fun x n => S (jsize x + n)) O (x :: l) <= fuel)%nat ->
    parse_elems fuel
      (join (lit ", ") (map json_dumps (x :: l)) ++ 93%N :: rest) acc
    = Some (JList (rev acc ++ x :: l), rest).
Proof.
  induction l as [|y l IH]; intros x acc fuel rest Hall Hok Hfuel.
  - apply Forall_cons in Hall as [Hx _].
    cbn [forallb] in Hok. apply andb_prop in Hok as [Hokx _].
    cbn [fold_right] in Hfuel. destruct fuel as [|f]; [lia|].
    rewrite parse_elems_S. cbn [map join].
    rewrite (Hx f (93%N :: rest)) by (done || lia).
    rewrite skip_ws_head by done. cbn [startswith N.eqb Pos.eqb andb skipn].
    rewrite ?drop_0. done.
  - apply Forall_cons in Hall as [Hx Hall].
    cbn [forallb] in Hok. apply andb_prop in Hok as [Hokx Hok].
    cbn [fold_right] in Hfuel. destruct fuel as [|f]; [lia|].
    rewrite parse_elems_S.
    change (map json_dumps (x :: y :: l))
      with (json_dumps x :: map json_dumps (y :: l)).
    change (join (lit ", ") (json_dumps x :: map json_dumps (y :: l)))
      with (json_dumps x ++ [44; 32]%N ++ join (lit ", ") (map json_dumps (y :: l))).
    rewrite <- !app_assoc. cbn [app].
    rewrite (Hx f) by (done || cbn [fold_right] in *; lia).
    rewrite skip_ws_head by done. cbn [startswith N.eqb Pos.eqb andb skipn].
    rewrite ?drop_0, skip_ws_space.
    destruct (join_head (lit ", ") (json_dumps y) (map json_dumps l)) as [t Ht].
    assert (skip_ws (join (lit ", ") (map json_dumps (y :: l)) ++ 93%N :: rest)
            = join (lit ", ") (map json_dumps (y :: l)) ++ 93%N :: rest) as ->.
    { cbn [map]. rewrite Ht, <- app_assoc. apply skip_ws_json_dumps. }
    rewrite (IH y (x :: acc) f rest) by (done || cbn [fold_right] in *; lia).
    cbn [rev]. by rewrite <- app_assoc.
Qed.

Lemma parse_members_dumps (d : list (str * json)) :
  forall (k : str) (v : json) (acc : list (str * json)) (fuel : nat) (rest : str),
    Forall (fun kv => reads_back kv.2) ((k, v) :: d) ->
    forallb (fun kv => match kv with (k, x) => str_ok k && json_ok x end)
      ((k, v) :: d) = true ->
    (fold_right (fun kv n => S (jsize kv.2 + n)) O ((k, v) :: d) <= fuel)%nat ->
    parse_members fuel
      (join (lit ", ") (map dumps_item ((k, v) :: d)) ++ 125%N :: rest) acc
    = Some (JDict (dict_of_pairs (rev acc ++ (k, v) :: d)), rest).
Proof.
  assert (forall k v tail f acc,
    str_ok k = true ->
    parse_members (S f) (dumps_item (k, v) ++ tail) acc
    = match parse_value f (json_dumps v ++ tail) with
      | None => None
      | Some (v, r3) =>
          if startswith [44%N] (skip_ws r3)
          then parse_members f (skip_ws (drop 1 (skip_ws r3))) ((k, v) :: acc)
          else if startswith [125%N] (skip_ws r3)
          then Some (JDict (dict_of_pairs (rev ((k, v) :: acc))),
                     drop 1 (skip_ws r3))
          else None
      end) as Hstep.
  { intros k v tail f acc Hk.
    assert (dumps_item (k, v) ++ tail
            = dquote :: escaped k ++ dquote :: 58%N :: 32%N :: json_dumps v ++ tail)
      as ->.
    { unfold dumps_item, json_quote, escaped. change (lit ": ") with [58; 32]%N.
      cbn [app]. by rewrite <- !app_assoc. }
    rewrite parse_members_quote, (scanstring_json_quote k) by done.
    rewrite skip_ws_head, startswith_1, drop_1_cons by done.
    by rewrite skip_ws_space, skip_ws_json_dumps. }
  induction d as [|[k' v'] d IH]; intros k v acc fuel rest Hall Hok Hfuel.
  - apply Forall_cons in Hall as [Hx _]. cbn [snd] in Hx.
    cbn [forallb] in Hok. apply andb_prop in Hok as [[Hk Hokx]%andb_prop _].
    cbn [fold_right snd] in Hfuel. destruct fuel as [|f]; [lia|].
    cbn [map join]. rewrite Hstep by done.
    rewrite (Hx f (125%N :: rest)) by (done || lia).
    rewrite skip_ws_head by done. cbn [startswith N.eqb Pos.eqb andb skipn].
    rewrite ?drop_0. done.
  - apply Forall_cons in Hall as [Hx Hall]. cbn [snd] in Hx.
    cbn [forallb] in Hok. apply andb_prop in Hok as [[Hk Hokx]%andb_prop Hok].
    cbn [fold_right snd] in Hfuel. destruct fuel as [|f]; [lia|].
    change (map dumps_item ((k, v) :: (k', v') :: d))
      with (dumps_item (k, v) :: map dumps_item ((k', v') :: d)).
    change (join (lit ", ") (dumps_item (k, v) :: map dumps_item ((k', v') :: d)))
      with (dumps_item (k, v) ++ [44; 32]%N ++ join (lit ", ") (map dumps_item ((k', v') :: d))).
    rewrite <- !app_assoc. rewrite Hstep by done. cbn [app].
    rewrite (Hx f) by (done || cbn [fold_right snd] in *; lia).
    rewrite skip_ws_head by done. cbn [startswith N.eqb Pos.eqb andb skipn].
    rewrite ?drop_0, skip_ws_space.
    assert (skip_ws (join (lit ", ") (map dumps_item ((k', v') :: d)) ++ 125%N :: rest)
            = join (lit ", ") (map dumps_item ((k', v') :: d)) ++ 125%N :: rest) as ->.
    { cbn [map].
      destruct (join_head (lit ", ") (dumps_item (k', v')) (map dumps_item d)) as [t ->].
      unfold dumps_item at 1, json_quote. cbn [app]. by apply skip_ws_head. }
    rewrite (IH k' v' ((k, v) :: acc) f rest)
      by (done || cbn [fold_right snd] in *; lia).
    cbn [rev]. by rewrite <- app_assoc.
Qed.

Lemma parse_value_dumps (v : json) : reads_back v.
Proof.
  induction v as [ | b | z | s | l IHl | d IHd ] using json_ind;
    intros fuel rest Hok Hrest Hfuel;
    (destruct fuel as [|f]; [cbn [jsize] in Hfuel; lia|]).
  - reflexivity.
  - by destruct b.
  - destruct (str_of_Z_head z) as (c & r & Heq & Hc).
    cbn [json_dumps]. pose proof (scan_number_str_of_Z z rest Hrest) as Hnum.
    rewrite Heq in *. cbn [app] in *. by rewrite parse_value_number.
  - cbn [json_dumps json_ok] in *. unfold json_quote.
    cbn [app]. rewrite <- !app_assoc. cbn [app]. rewrite parse_value_S, N.eqb_refl.
    fold (escaped s). by rewrite (scanstring_json_quote s rest).
  - cbn [json_dumps json_ok jsize] in *. change (lit "[") with [91%N].
    change (lit "]") with [93%N]. rewrite <- !app_assoc. cbn [app].
    rewrite parse_value_S. cbn [N.eqb Pos.eqb dquote].
    destruct l as [|x l].
    + cbn [map join app]. by rewrite skip_ws_head.
    + destruct (join_head (lit ", ") (json_dumps x) (map json_dumps l)) as [t Ht].
      assert (skip_ws (join (lit ", ") (map json_dumps (x :: l)) ++ 93%N :: rest)
              = join (lit ", ") (map json_dumps (x :: l)) ++ 93%N :: rest) as ->.
      { cbn [map]. rewrite Ht, <- app_assoc. apply skip_ws_json_dumps. }
      assert (startswith [93%N]
                (join (lit ", ") (map json_dumps (x :: l)) ++ 93%N :: rest)
              = false) as ->.
      { cbn [map]. rewrite Ht, <- app_assoc.
        destruct (json_dumps_head x) as (c & r & -> & _ & Hc).
        cbn [app startswith]. by rewrite Hc. }
      rewrite (parse_elems_dumps l x [] f rest) by (done || lia). done.
  - cbn [json_dumps json_ok jsize] in *. change (lit "{") with [123%N].
    change (lit "}") with [125%N]. rewrite <- !app_assoc. cbn [app].
    rewrite parse_value_S. cbn [N.eqb Pos.eqb dquote].
    apply andb_prop in Hok as [Hok Hnd]. apply bool_decide_eq_true in Hnd.
    destruct d as [|[k v] d].
    + cbn [map join app]. by rewrite skip_ws_head.
    + fold dumps_item.
      destruct (join_head (lit ", ") (dumps_item (k, v)) (map dumps_item d)) as [t Ht].
      assert (exists r, join (lit ", ") (map dumps_item ((k, v) :: d)) ++ 125%N :: rest
                        = dquote :: r) as [r Hr].
      { cbn [map]. rewrite Ht. unfold dumps_item at 1, json_quote. by eexists. }
      pose proof (parse_members_dumps d k v [] f rest IHd Hok ltac:(lia)) as Hm.
      rewrite Hr in *. rewrite skip_ws_head by done.
      cbn [startswith N.eqb Pos.eqb dquote andb]. rewrite Hm.
      cbn [rev app]. by rewrite dict_of_pairs_NoDup.
Qed.

(** ** [json.loads] of [json.dumps] *)

Lemma str_of_Z_length (z : Z) : (1 <= length (str_of_Z z))%nat.
Proof. destruct (str_of_Z_head z) as (c & r & -> & _). cbn [length]. lia. Qed.

Lemma length_join_dumps {A : Type} (size : A -> nat) (text : A -> str) (l : list A) :
  Forall (fun x => (size x <= length (text x))%nat) l ->
  (fold_right (fun x n => S (size x + n)) O l
   <= length (join (lit ", ") (map text l)) + 1)%nat.
Proof.
  induction 1 as [|x l Hx Hl IH]; [cbn; lia|].
  destruct l as [|y l].
  - cbn [fold_right map join]. lia.
  - change (map text (x :: y :: l)) with (text x :: map text (y :: l)).
    change (join (lit ", ") (text x :: map text (y :: l)))
      with (text x ++ [44; 32]%N ++ join (lit ", ") (map text (y :: l))).
    rewrite !length_app. cbn [fold_right length] in *. lia.
Qed.

Lemma jsize_le_length (v : json) : (jsize v <= length (json_dumps v))%nat.
Proof.
  induction v as [ | b | z | s | l IHl | d IHd ] using json_ind.
  - cbn. lia.
  - destruct b; cbn; lia.
  - cbn [jsize json_dumps]. apply str_of_Z_length.
  - cbn [jsize json_dumps]. unfold json_quote. cbn [length]. lia.
  - cbn [jsize json_dumps]. rewrite !length_app.
    pose proof (length_join_dumps jsize json_dumps l IHl).
    change (length (lit "[")) with 1%nat. change (length (lit "]")) with 1%nat. lia.
  - cbn [jsize json_dumps]. rewrite !length_app.
    pose proof (length_join_dumps (fun kv => jsize kv.2) dumps_item d) as H.
    change (length (lit "{")) with 1%nat. change (length (lit "}")) with 1%nat.
    fold dumps_item. cut (Forall (fun kv => (jsize kv.2 <= length (dumps_item kv))%nat) d).
    { intros Hd. specialize (H Hd). lia. }
    eapply Forall_impl; [exact IHd|]. intros [k v] Hv. cbn [snd] in *.
    unfold dumps_item. rewrite !length_app. lia.
Qed.

Lemma json_loads_dumps (v : json) :
  json_ok v = true -> json_loads (json_dumps v) = Some v.
Proof.
  intros Hok. unfold json_loads.
  rewrite <- (app_nil_r (json_dumps v)) at 2.
  rewrite skip_ws_json_dumps.
  rewrite (parse_value_dumps v (S (length (json_dumps v))) [] Hok eq_refl)
    by (pose proof (jsize_le_length v); lia).
  reflexivity.
Qed.

(** ** ASCII text through UTF-8 *)

Lemma utf8_decode_ascii (s : str) :
  is_ascii s = true -> utf8_decode (map byte_of_N s) = Some s.
Proof.
  induction s as [|c s IH]; [done|].
  cbn [is_ascii forallb]. intros [Hc Hs]%andb_prop.
  pose proof Hc as Hlt. apply N.ltb_lt in Hlt.
  cbn [map utf8_decode]. cbv zeta. rewrite byte_of_N_to_N by lia.
  rewrite Hc, (IH Hs). reflexivity.
Qed.

(** ** base64 *)

Ltac ndiv := zify; Z.to_euclidean_division_equations; lia.

Lemma b64_value_char (i : N) : (i < 64)%N -> b64_value (b64_char i) = Some i.
Proof.
  intros Hi. rewrite <- (N2Nat.id i).
  assert (N.to_nat i < 64)%nat as Hn by lia.
  generalize dependent (N.to_nat i). intros n Hn.
  do 64 (destruct n as [|n]; [reflexivity|]). lia.
Qed.

Lemma b64_char_not_pad (i : N) : (b64_char i =? b64_pad)%N = false.
Proof.
  apply N.eqb_neq. unfold b64_char, b64_pad.
  repeat match goal with
         | |- context [if ?b then _ else _] => destruct b eqn:?
         end;
    repeat match goal with
           | H : (_ <? _)%N = _ |- _ =>
               first [apply N.ltb_lt in H | apply N.ltb_ge in H]
           end; lia.
Qed.

Lemma byte_bound (b : byte) : (Byte.to_N b < 256)%N.
Proof. pose proof (Byte.to_N_bounded b). lia. Qed.

Lemma byte_of_to_N (b : byte) : byte_of_N (Byte.to_N b) = b.
Proof. unfold byte_of_N. by rewrite Byte.of_to_N. Qed.

Lemma to_N_quad (n : N) (keep : nat) :
  map Byte.to_N (b64_quad n keep)
  = take keep [b64_char (n / 262144); b64_char ((n / 4096) mod 64);
               b64_char ((n / 64) mod 64); b64_char (n mod 64)]%N
    ++ repeat b64_pad (4 - keep).
Proof.
  destruct (b64_quad_decode n keep) as (l & Heq & Hl).
  unfold b64_quad in *. rewrite map_map.
  rewrite <- (map_id (take _ _ ++ _)) at 2.
  apply map_ext_Forall. apply Forall_app. split.
  - apply Forall_take. repeat constructor; cbn;
      apply byte_of_N_to_N; 
      match goal with |- (b64_char ?i < _)%N => pose proof (b64_char_ascii i) end; lia.
  - apply Forall_forall. intros x Hx. apply list_elem_of_In, repeat_spec in Hx.
    by subst x.
Qed.

Ltac byte_eq := etransitivity; [|apply byte_of_to_N]; f_equal; ndiv.

Lemma b64decode_groups_quad (n : N) (rest : str) (tail : list byte) :
  (n < 16777216)%N ->
  b64decode_groups rest = Some tail ->
  b64decode_groups
    (b64_char (n / 262144) :: b64_char ((n / 4096) mod 64)
     :: b64_char ((n / 64) mod 64) :: b64_char (n mod 64) :: rest)
  = Some (b64_bytes n ++ tail).
Proof.
  intros Hn Hrest. cbn [b64decode_groups].
  rewrite !b64_value_char by ndiv. cbn [mbind option_bind].
  assert ((n / 262144 * 262144 + n / 4096 mod 64 * 4096 + n / 64 mod 64 * 64
           + n mod 64)%N = n) as -> by ndiv.
  destruct rest as [|c rest'].
  - rewrite b64_char_not_pad. cbn in Hrest. injection Hrest as <-.
    by rewrite app_nil_r.
  - by rewrite Hrest.
Qed.

Lemma b64decode_groups_b64encode (bs : list byte) :
  b64decode_groups (map Byte.to_N (b64encode bs)) = Some bs.
Proof.
  assert (forall n (bs : list byte), length bs = n ->
            b64decode_groups (map Byte.to_N (b64encode bs)) = Some bs) as H;
    [|by apply (H (length bs))].
  clear bs. induction n as [n IH] using lt_wf_ind.
  intros [|a [|b [|c rest]]] Hlen.
  - reflexivity.
  - cbn [b64encode]. rewrite to_N_quad. cbn [take repeat app Nat.sub].
    pose proof (byte_bound a).
    cbn [b64decode_groups]. rewrite !b64_value_char by ndiv.
    cbn [mbind option_bind]. rewrite !N.eqb_refl.
    unfold b64_bytes. cbn [take]. do 2 f_equal. byte_eq.
  - cbn [b64encode]. rewrite to_N_quad. cbn [take repeat app Nat.sub].
    pose proof (byte_bound a). pose proof (byte_bound b).
    cbn [b64decode_groups]. rewrite !b64_value_char by ndiv.
    cbn [mbind option_bind]. rewrite N.eqb_refl, b64_char_not_pad.
    cbn [mbind option_bind].
    unfold b64_bytes. cbn [take]. f_equal.
    f_equal; [byte_eq|]. f_equal. byte_eq.
  - cbn [b64encode]. rewrite map_app, to_N_quad. cbn [take repeat Nat.sub].
    rewrite app_nil_r.
    pose proof (byte_bound a). pose proof (byte_bound b). pose proof (byte_bound c).
    cbn [app].
    rewrite (b64decode_groups_quad _ _ rest) by (ndiv || (apply (IH (length rest)); [cbn in Hlen; lia | done])).
    unfold b64_bytes. cbn [app].
    f_equal. f_equal; [byte_eq|]. f_equal; [byte_eq|]. f_equal. byte_eq.
Qed.

Lemma b64_char_alphabet (i : N) : is_Some (b64_value (b64_char i)).
Proof.
  destruct (N.lt_ge_cases i 64) as [Hi|Hi].
  - by rewrite b64_value_char.
  - assert (b64_char i = 47%N) as ->; [|done].
    unfold b64_char.
    repeat match goal with
           | |- context [(?a <? ?b)%N] => destruct (N.ltb_spec a b); [lia|]
           end.
    destruct (N.eqb_spec i 62); [lia|done].
Qed.

Lemma b64_alphabet_quad (n : N) (keep : nat) :
  Forall (fun c => is_Some (b64_value c) \/ c = b64_pad)
    (map Byte.to_N (b64_quad n keep)).
Proof.
  rewrite to_N_quad. apply Forall_app. split.
  - apply Forall_take.
    repeat (apply Forall_cons_2; [left; apply b64_char_alphabet|]).
    constructor.
  - apply Forall_forall. intros x Hx. apply list_elem_of_In, repeat_spec in Hx.
    by right.
Qed.

Lemma b64_alphabet (bs : list byte) :
  Forall (fun c => is_Some (b64_value c) \/ c = b64_pad)
    (map Byte.to_N (b64encode bs)).
Proof.
  assert (forall n (bs : list byte), length bs = n ->
            Forall (fun c => is_Some (b64_value c) \/ c = b64_pad)
              (map Byte.to_N (b64encode bs))) as H;
    [|by apply (H (length bs))].
  clear bs. induction n as [n IH] using lt_wf_ind.
  intros [|a [|b [|c rest]]] Hlen.
  - constructor.
  - apply b64_alphabet_quad.
  - apply b64_alphabet_quad.
  - cbn [b64encode]. rewrite map_app. apply Forall_app. split.
    + apply b64_alphabet_quad.
    + apply (IH (length rest)); [cbn in Hlen; lia | done].
Qed.

Lemma filter_all {A : Type} (P : A -> Prop) `{forall x, Decision (P x)} (l : list A) :
  Forall P l -> filter P l = l.
Proof.
  induction 1 as [|x l Hx Hl IH]; [done|].
  rewrite filter_cons_True by done. by rewrite IH.
Qed.

(** What [b64encode] wrote, [b64decode] reads. *)
Lemma b64decode_b64encode (bs : list byte) :
  b64decode (map Byte.to_N (b64encode bs)) = Some bs.
Proof.
  unfold b64decode. rewrite filter_all by apply b64_alphabet.
  apply b64decode_groups_b64encode.
Qed.

(** ** The raw blob read back *)




(** * Further properties *)

(** ** The job identifier *)

Lemma str_of_Z_inj (a b : Z) : str_of_Z a = str_of_Z b -> a = b.
Proof.
  intros H.
  pose proof (scan_number_str_of_Z a [] eq_refl) as Ha.
  pose proof (scan_number_str_of_Z b [] eq_refl) as Hb.
  rewrite H in Ha. congruence.
Qed.

(** X1. The job identifier [chris-jid-<id>] set by the constructor
    determines the plugin instance: two managers with the same job
    identifier manage instances with the same id. *)
Theorem str_job_id_inj (self1 self2 : PluginInstanceManager) :
  str_job_id self1 = str_job_id self2 ->
  id (c_plugin_inst self1) = id (c_plugin_inst self2).
Proof.
  unfold str_job_id. intros H%app_inv_head. by apply str_of_Z_inj.
Qed.

Lemma str_job_id_inj_witness :
  let other := {| c_plugin_inst := Sample.root_job; home := lit "/root" |} in
  str_job_id Sample.self = str_job_id other
  /\ id (c_plugin_inst Sample.self) = id (c_plugin_inst other).
Proof.
  intros other. split; [reflexivity|].
  apply (str_job_id_inj Sample.self other). reflexivity.
Defined.

(** ** The shape of the raw blob *)




(** ** The command line *)

Lemma apply_db_param_args (p : PluginParameter) (nm : str) (v : json) (st : arg_state) :
  app_args (apply_db_param p nm v st) = app_args st ++ param_args p v.
Proof.
  unfold apply_db_param, param_args.
  destruct (str_eqb (db_action p) (lit "store")) eqn:Hstore.
  - apply str_eqb_eq in Hstore. rewrite Hstore. eval_str_eqb. cbn [andb].
    destruct (str_eqb (db_type p) (lit "unextpath")) eqn:Hun.
    + apply str_eqb_eq in Hun. rewrite Hun. eval_str_eqb. cbn [orb app_args].
      by rewrite <- app_assoc.
    + destruct (str_eqb (db_type p) (lit "path")); cbn [orb app_args];
        by rewrite <- app_assoc.
  - destruct (str_eqb (db_action p) (lit "store_true")) eqn:Htrue.
    + apply str_eqb_eq in Htrue. rewrite Htrue. eval_str_eqb. cbn [andb].
      destruct (truthy v); cbn [app_args]; by rewrite ?app_nil_r.
    + cbn [andb].
      destruct (str_eqb (db_action p) (lit "store_false")); cbn [andb];
        [destruct (truthy v)|]; cbn [negb app_args]; by rewrite ?app_nil_r.
Qed.

Lemma scan_db_parameters_args (db : list PluginParameter) (nm : str) (v : json)
    (st : arg_state) :
  app_args (scan_db_parameters db nm v st) = app_args st ++ submitted_args db (nm, v).
Proof.
  unfold submitted_args, find_db_param. cbn [fst snd].
  induction db as [|p db IH]; cbn [scan_db_parameters find].
  - by rewrite app_nil_r.
  - destruct (str_eqb (db_name p) nm); [apply apply_db_param_args | exact IH].
Qed.

Lemma scan_parameter_dict_args (db : list PluginParameter)
    (parameter_dict d : list (str * json)) (st : arg_state) :
  (forall k v, (k, v) ∈ d -> assoc k parameter_dict = Some v) ->
  exists st',
    scan_parameter_dict db parameter_dict (map fst d) st = Ret st'
    /\ app_args st' = app_args st ++ concat (map (submitted_args db) d).
Proof.
  revert st. induction d as [|[k v] d IH]; intros st Hd.
  - exists st. split; [done|]. cbn. by rewrite app_nil_r.
  - cbn [map fst scan_parameter_dict]. rewrite (Hd k v) by constructor.
    destruct (IH (scan_db_parameters db k v st)) as (st' & Hscan & Hargs).
    { intros k' v' Hin. apply Hd. by constructor. }
    exists st'. split; [done|].
    rewrite Hargs, scan_db_parameters_args. cbn [concat]. by rewrite <- app_assoc.
Qed.

Lemma percent_two (a b : str) :
  percent (lit "%s %s") [a; b] = a ++ lit " " ++ b.
Proof. cbv -[app]. by rewrite app_nil_r. Qed.

Lemma coordinate_msg_cmd (self : PluginInstanceManager)
    (str_inputdir str_outputdir str_cmd : str) :
  lookup_path (coordinate_msg self str_inputdir str_outputdir str_cmd)
    [lit "meta-compute"; lit "cmd"]
  = Some (JStr (execshell (plugin (c_plugin_inst self)) ++ lit " " ++ str_cmd)).
Proof.
  transitivity
    (Some (JStr (percent (lit "%s %s")
                   [execshell (plugin (c_plugin_inst self)); str_cmd])));
    [reflexivity | by rewrite percent_two].
Qed.

(** X3. The command line.  For a dict of submitted values, the argument
    loop of [run_plugin_instance_app] returns the positional arguments
    followed, in the order of submission, by what each submitted parameter
    adds given the first declaration of its name; and the request then sent
    carries as command the shell, the executable and these arguments,
    separated by spaces. *)
Theorem run_plugin_instance_app_command
    (E : env) (isprintable : N -> bool) (self : PluginInstanceManager)
    (parameter_dict : list (str * json)) :
  NoDup (map fst parameter_dict) ->
  let pl := plugin (c_plugin_inst self) in
  let args := initial_app_args self
              ++ concat (map (submitted_args (parameters pl)) parameter_dict) in
  exists st,
    scan_parameter_dict (parameters pl) parameter_dict (map fst parameter_dict)
      (ArgState (initial_app_args self) [] []) = Ret st
    /\ app_args st = args
    /\ forall (str_inputdir : str) (w : world),
        exists d_msg,
          trace (snd (send_coordinate E isprintable self st str_inputdir w))
          = trace w ++ [EvRemote (compute_url (c_plugin_inst self)) d_msg]
          /\ lookup_path d_msg [lit "meta-compute"; lit "cmd"]
             = Some (JStr (execshell pl ++ lit " "
                           ++ path_join (selfpath pl) (selfexec pl) ++ lit " "
                           ++ join (lit " ") (map (py_str isprintable) args))).
Proof.
  intros Hnd pl args.
  destruct (scan_parameter_dict_args (parameters pl) parameter_dict parameter_dict
              (ArgState (initial_app_args self) [] []))
    as (st & Hscan & Hargs).
  { intros k v. by apply assoc_elem. }
  exists st. split; [exact Hscan|]. split; [exact Hargs|].
  intros str_inputdir w. unfold send_coordinate. cbv zeta.
  eexists.
  erewrite run_bind by (msimpl; reflexivity).
  unfold mbind, M_bind.
  match goal with
  | |- context [call_app_service E isprintable self ?m ?w0] =>
      destruct (call_app_service_trace E isprintable self m w0) as [Htr _];
      destruct (call_app_service E isprintable self m w0) as [[r|e] w']
  end; cbn [snd trace] in *; (split; [exact Htr|]);
    by rewrite coordinate_msg_cmd, percent_two, Hargs.
Qed.

Lemma run_plugin_instance_app_command_witness :
  exists st,
    scan_parameter_dict (parameters Sample.dircopy) Sample2.submitted
      (map fst Sample2.submitted) (ArgState (initial_app_args Sample.self) [] [])
    = Ret st
    /\ map (py_str Sample.isprintable) (app_args st)
       = [lit "/share/outgoing"; lit "--saveinputmeta"; lit "--saveoutputmeta";
          lit "--dir"; lit "/share/incoming"; lit "--verbose"].
Proof.
  destruct (run_plugin_instance_app_command (Sample.env_reply JNull)
              Sample.isprintable Sample.self Sample2.submitted)
    as (st & Hscan & Hargs & _).
  - apply (bool_decide_unpack (NoDup (map fst Sample2.submitted))). vm_compute. exact I.
  - exists st. split; [exact Hscan|]. rewrite Hargs. reflexivity.
Defined.

(** ** A submitted name that the plugin does not declare *)

Lemma scan_db_parameters_undeclared (db : list PluginParameter) (nm : str) (v : json)
    (st : arg_state) :
  find_db_param db nm = None -> scan_db_parameters db nm v st = st.
Proof.
  unfold find_db_param. induction db as [|p db IH]; cbn [scan_db_parameters find];
    [done|].
  destruct (str_eqb (db_name p) nm); [done | exact IH].
Qed.

Lemma scan_parameter_dict_ext (db : list PluginParameter)
    (d d' : list (str * json)) (names : list str) (st : arg_state) :
  (forall k, k ∈ names -> assoc k d = assoc k d') ->
  scan_parameter_dict db d names st = scan_parameter_dict db d' names st.
Proof.
  revert st. induction names as [|k names IH]; intros st H; [done|].
  cbn [scan_parameter_dict]. rewrite <- (H k) by constructor.
  destruct (assoc k d); [|done]. apply IH. intros k' Hk'. apply H. by constructor.
Qed.

Lemma scan_parameter_dict_skip (db : list PluginParameter)
    (d : list (str * json)) (nm : str) (a b : list str) (st : arg_state) :
  find_db_param db nm = None -> is_Some (assoc nm d) ->
  scan_parameter_dict db d (a ++ nm :: b) st = scan_parameter_dict db d (a ++ b) st.
Proof.
  intros Hun [v Hv]. revert st. induction a as [|k a IH]; intros st.
  - cbn [app scan_parameter_dict]. by rewrite Hv, scan_db_parameters_undeclared.
  - cbn [app scan_parameter_dict]. destruct (assoc k d); [apply IH | done].
Qed.

Lemma assoc_app (k : str) (a b : list (str * json)) :
  assoc k (a ++ b) = match assoc k a with Some x => Some x | None => assoc k b end.
Proof.
  induction a as [|[k' v'] a IH]; [done|]. cbn [app assoc].
  by destruct (str_eqb k' k).
Qed.

Lemma assoc_without (k nm : str) (v : json) (a b : list (str * json)) :
  k <> nm -> assoc k (a ++ (nm, v) :: b) = assoc k (a ++ b).
Proof.
  intros Hne. rewrite !assoc_app. cbn [assoc].
  destruct (str_eqb nm k) eqn:E; [|done].
  apply str_eqb_eq in E. congruence.
Qed.

Lemma last_path_value_ext (d d' : list (str * json)) (names : list str) :
  (forall k, k ∈ names -> assoc k d = assoc k d') ->
  last_path_value d names = last_path_value d' names.
Proof.
  intros H. unfold last_path_value, last_item.
  destruct (last names) as [nm|] eqn:Hlast; [|done].
  rewrite (H nm); [done|].
  apply last_Some in Hlast as [l' ->]. apply elem_of_app. right. constructor.
Qed.

(** X4. A submitted parameter whose name the plugin does not declare is
    ignored: with or without it in the submitted dict,
    [run_plugin_instance_app] does the same and returns the same. *)
Theorem run_plugin_instance_app_undeclared
    (E : env) (isprintable : N -> bool) (self : PluginInstanceManager)
    (before after : list (str * json)) (nm : str) (v : json) (w : world) :
  NoDup (map fst (before ++ (nm, v) :: after)) ->
  find_db_param (parameters (plugin (c_plugin_inst self))) nm = None ->
  run_plugin_instance_app E isprintable self (before ++ (nm, v) :: after) w
  = run_plugin_instance_app E isprintable self (before ++ after) w.
Proof.
  intros Hnd Hun.
  set (db := parameters (plugin (c_plugin_inst self))) in *.
  set (d := before ++ (nm, v) :: after) in *. set (d' := before ++ after).
  assert (forall k, k ∈ map fst d' -> assoc k d = assoc k d') as Hassoc.
  { intros k Hk. apply assoc_without. intros ->.
    subst d d'. rewrite map_app in Hnd, Hk. cbn [map fst] in Hnd.
    apply NoDup_app in Hnd as (_ & Hdisj & Hnd2).
    apply NoDup_cons in Hnd2 as [Hnot _]. apply elem_of_app in Hk as [Hk|Hk].
    - apply (Hdisj nm Hk). constructor.
    - by apply Hnot. }
  assert (scan_parameter_dict db d (map fst d) (ArgState (initial_app_args self) [] [])
          = scan_parameter_dict db d' (map fst d')
              (ArgState (initial_app_args self) [] [])) as Hscan.
  { subst d d'. rewrite !map_app. cbn [map fst].
    rewrite scan_parameter_dict_skip.
    - apply scan_parameter_dict_ext. by rewrite <- map_app.
    - exact Hun.
    - apply assoc_key. rewrite map_app. cbn [map fst].
      apply elem_of_app. right. constructor. }
  unfold run_plugin_instance_app. fold db. rewrite Hscan.
  destruct (scan_parameter_dict_paths db d' (map fst d')
              (ArgState (initial_app_args self) [] []))
    as (st & Hst & Hpaths); [done|].
  rewrite Hst. erewrite !run_bind by reflexivity.
  destruct (previous (c_plugin_inst self)); [done|].
  rewrite (last_path_value_ext d d'); [done|].
  intros k Hk. apply Hassoc. rewrite Hpaths in Hk. cbn [path_param_names app] in Hk.
  by apply list_elem_of_filter in Hk as [_ Hk].
Qed.

Lemma run_plugin_instance_app_undeclared_witness :
  run_plugin_instance_app (Sample.env_reply JNull) Sample.isprintable Sample.self
    ([(lit "dir", JStr (lit "foo/uploads"))]
     ++ (lit "colour", JStr (lit "red")) :: [(lit "verbose", JBool true)])
    Sample.world0
  = run_plugin_instance_app (Sample.env_reply JNull) Sample.isprintable Sample.self
      Sample2.submitted Sample.world0.
Proof.
  apply (run_plugin_instance_app_undeclared (Sample.env_reply JNull)
           Sample.isprintable Sample.self
           [(lit "dir", JStr (lit "foo/uploads"))] [(lit "verbose", JBool true)]
           (lit "colour") (JStr (lit "red")) Sample.world0).
  - apply (bool_decide_unpack (NoDup _)). vm_compute. exact I.
  - reflexivity.
Defined.

(** ** The error collector *)

Lemma percent_one (a : str) : percent (lit "%s") [a] = a.
Proof. cbv -[app]. by rewrite app_nil_r. Qed.

Lemma last_app_cons {A : Type} (l : list A) (x : A) (r : list A) :
  last (l ++ x :: r) = last (x :: r).
Proof.
  induction l as [|y l IH]; [done|].
  cbn [app]. destruct (l ++ x :: r) eqn:E; [by destruct l|]. by rewrite <- IH.
Qed.

Lemma str_deepnest_cons (isprintable : N -> bool) (k : str) (v : json)
    (rest : list (str * json)) (str_deepVal : str) :
  str_deepnest isprintable (JDict ((k, v) :: rest)) str_deepVal
  = match v with
    | JDict _ =>
        match str_deepnest isprintable v str_deepVal with
        | Ret s => str_deepnest isprintable (JDict rest) s
        | Raise e => Raise e
        end
    | _ => str_deepnest isprintable (JDict rest)
             (percent (lit "%s") [k ++ lit " : " ++ py_str isprintable v])
    end.
Proof. by destruct v. Qed.

Lemma leaves_cons (k : str) (v : json) (rest : list (str * json)) :
  leaves (JDict ((k, v) :: rest))
  = match v with
    | JDict _ => leaves v ++ leaves (JDict rest)
    | _ => (k, v) :: leaves (JDict rest)
    end.
Proof. by destruct v. Qed.

Lemma str_deepnest_leaves (isprintable : N -> bool) (d : json) :
  forall items, d = JDict items ->
  forall str_deepVal,
    str_deepnest isprintable d str_deepVal
    = Ret match last (leaves d) with
          | Some (k, v) => k ++ lit " : " ++ py_str isprintable v
          | None => str_deepVal
          end.
Proof.
  induction d as [ | | | | | d IH ] using json_ind; intros items Hd; try discriminate.
  clear items Hd. induction IH as [|[k v] rest Hv Hrest IHrest]; intros acc; [done|].
  rewrite str_deepnest_cons, leaves_cons. cbn [snd] in Hv.
  destruct v as [ | b | n | s | l | its ];
    try (rewrite IHrest, percent_one;
         destruct (leaves (JDict rest)) as [|kv more]; [done|];
         change (last (?x :: kv :: more)) with (last (kv :: more));
         by destruct (last (kv :: more)) as [[? ?]|] eqn:El;
           [|apply last_None in El]).
  rewrite (Hv its eq_refl), IHrest.
  destruct (leaves (JDict rest)) as [|kv more].
  - by rewrite app_nil_r.
  - rewrite last_app_cons.
    by destruct (last (kv :: more)) as [[? ?]|] eqn:El; [|apply last_None in El].
Qed.

(** X5. [str_deepnest] returns for every (nested) dict, and keeps in
    [str_deepVal] the text [<key> : <value>] of the last leaf it meets;
    a dict without a leaf leaves [str_deepVal] as it was. *)
Theorem str_deepnest_last_leaf (isprintable : N -> bool)
    (items : list (str * json)) (str_deepVal : str) :
  str_deepnest isprintable (JDict items) str_deepVal
  = Ret match last (leaves (JDict items)) with
        | Some (k, v) => k ++ lit " : " ++ py_str isprintable v
        | None => str_deepVal
        end.
Proof. by apply (str_deepnest_leaves isprintable (JDict items) items). Qed.

(** ** Talking to the remote service *)

(** X6. [call_app_service] sends one request, whatever comes back, and
    touches neither the job nor the object store.  It returns the reply
    when the reply is a dict, a list or a string; a reply that is a
    number, a boolean or null makes the membership test
    ["Connection refused" in d_response] raise TypeError, and a reply that
    is no JSON text makes [json.loads] raise. *)
Theorem call_app_service_outcome
    (E : env) (isprintable : N -> bool) (self : PluginInstanceManager)
    (d_msg : json) (w : world) :
  let url := compute_url (c_plugin_inst self) in
  let r := call_app_service E isprintable self d_msg w in
  fst r = match remote_reply E (tick w) url d_msg with
          | None => Raise JSONDecodeError
          | Some (JDict items) => Ret (JDict items)
          | Some (JList l) => Ret (JList l)
          | Some (JStr s) => Ret (JStr s)
          | Some _ => Raise TypeError
          end
  /\ trace (snd r) = trace w ++ [EvRemote url d_msg]
  /\ tick (snd r) = S (tick w)
  /\ inst (snd r) = inst w /\ db (snd r) = db w /\ objects (snd r) = objects w.
Proof.
  intros url r. subst url r. unfold call_app_service, contains. msimpl.
  destruct (remote_reply E (tick w) _ d_msg) as [[ | b | n | s | l | d ]|];
    msimpl; try done.
  - destruct (str_in _ s); done.
  - destruct (existsb _ l); done.
  - destruct (existsb _ d); done.
Qed.

Section Collect.

Context (E : env).
Variable isprintable : N -> bool.
Variable self : PluginInstanceManager.

Lemma call_app_service_dict (d_msg : json) (items : list (str * json)) (w : world) :
  remote_reply E (tick w) (compute_url (c_plugin_inst self)) d_msg = Some (JDict items) ->
  exists w',
    call_app_service E isprintable self d_msg w = (Ret (JDict items), w')
    /\ trace w' = trace w ++ [EvRemote (compute_url (c_plugin_inst self)) d_msg]
    /\ inst w' = inst w /\ db w' = db w /\ tick w' = S (tick w)
    /\ objects w' = objects w /\ dirs w' = dirs w /\ zips w' = zips w
    /\ exists recs,
        log w' = log w ++ recs
        /\ Forall (fun r => log_fmt r <> lit "deepVal = %s") recs.
Proof.
  intros Hreply.
  unfold call_app_service, contains. msimpl. rewrite Hreply. msimpl.
  destruct (existsb _ items); msimpl; eexists; (split; [reflexivity|]);
    cbn [trace inst db tick objects dirs zips log];
    repeat (split; [done|]); rewrite <- !app_assoc; eexists;
    (split; [reflexivity|]); by repeat constructor.
Qed.

(** The text [str_deepnest] leaves for a dict *)
Lemma str_deepnest_run (items : list (str * json)) (acc : str) (w : world) :
  lift_outcome (str_deepnest isprintable (JDict items) acc) w
  = (Ret match last (leaves (JDict items)) with
         | Some (k, v) => k ++ lit " : " ++ py_str isprintable v
         | None => acc
         end, w).
Proof.
  unfold lift_outcome.
  by rewrite (str_deepnest_leaves isprintable (JDict items) items eq_refl).
Qed.

End Collect.

(** X7. The error collector.  When the service answers both searches
    with a dict holding a dict [d_ret], [handle_app_remote_error] sends
    two requests, the search for [stderr] and then the search for
    [returncode], and logs after each the last leaf of its [d_ret]; when
    the second [d_ret] has no leaf, the second record repeats the first
    text, since [str_deepVal] is kept between the two traversals. *)
Theorem handle_app_remote_error_requests
    (E : env) (isprintable : N -> bool) (self : PluginInstanceManager)
    (r1 r2 items1 items2 : list (str * json)) (w : world) :
  let url := compute_url (c_plugin_inst self) in
  let text (items : list (str * json)) (previous : str) :=
    match last (leaves (JDict items)) with
    | Some (k, v) => k ++ lit " : " ++ py_str isprintable v
    | None => previous
    end in
  remote_reply E (tick w) url (search_msg self (lit "stderr")) = Some (JDict r1) ->
  assoc (lit "d_ret") r1 = Some (JDict items1) ->
  remote_reply E (S (tick w)) url (search_msg self (lit "returncode")) = Some (JDict r2) ->
  assoc (lit "d_ret") r2 = Some (JDict items2) ->
  exists w',
    handle_app_remote_error E isprintable self w = (Ret tt, w')
    /\ trace w' = trace w ++ [EvRemote url (search_msg self (lit "stderr"));
                              EvRemote url (search_msg self (lit "returncode"))]
    /\ filter (fun r => log_fmt r = lit "deepVal = %s") (drop (length (log w)) (log w'))
       = [LogRecord ERROR (lit "deepVal = %s") [AStr (text items1 [])];
          LogRecord ERROR (lit "deepVal = %s") [AStr (text items2 (text items1 []))]]
    /\ objects w' = objects w /\ inst w' = inst w.
Proof.
  intros url text Hr1 Hd1 Hr2 Hd2.
  destruct (call_app_service_dict E isprintable self _ _ w Hr1)
    as (w1 & Hcall1 & Htr1 & Hinst1 & Hdb1 & Htick1 & Hobj1 & _ & _ & recs1 & Hlog1 & Hrecs1).
  set (w1' := snd (logger ERROR (lit "deepVal = %s") [AStr (text items1 [])] w1)).
  assert (remote_reply E (tick w1') url (search_msg self (lit "returncode"))
          = Some (JDict r2)) as Hr2'.
  { subst w1'. cbn [logger snd tick]. by rewrite Htick1. }
  destruct (call_app_service_dict E isprintable self _ _ w1' Hr2')
    as (w2 & Hcall2 & Htr2 & Hinst2 & Hdb2 & Htick2 & Hobj2 & _ & _ & recs2 & Hlog2 & Hrecs2).
  eexists. split.
  - unfold handle_app_remote_error.
    eapply run_bind_eq; [exact Hcall1|]. cbv beta.
    eapply run_bind_eq; [apply getitem_lookup; cbn [lookup_path]; by rewrite Hd1|].
    cbv beta.
    eapply run_bind_eq; [apply str_deepnest_run|]. cbv beta.
    eapply run_bind_eq; [reflexivity|]. cbv beta.
    eapply run_bind_eq; [exact Hcall2|]. cbv beta.
    eapply run_bind_eq; [apply getitem_lookup; cbn [lookup_path]; by rewrite Hd2|].
    cbv beta.
    eapply run_bind_eq; [apply str_deepnest_run|]. cbv beta.
    reflexivity.
  - cbn [logger snd trace objects inst log].
    subst w1'. cbn [logger snd trace objects inst log] in *.
    rewrite Htr2, Htr1, <- app_assoc. split; [done|].
    split; [|split; congruence].
    rewrite Hlog2, Hlog1, <- !app_assoc, drop_app_length.
    rewrite !filter_app, (filter_none _ recs1), (filter_none _ recs2).
    + reflexivity.
    + intros r Hr. by apply (proj1 (Forall_forall _ _) Hrecs2).
    + intros r Hr. by apply (proj1 (Forall_forall _ _) Hrecs1).
Qed.

Lemma handle_app_remote_error_requests_witness :
  let reply := JDict [(lit "status", JBool true);
                      (lit "d_ret", JDict [(lit "0", JDict [(lit "stderr", JStr [])])])] in
  exists w',
    handle_app_remote_error (Sample.env_reply reply) Sample.isprintable Sample.self
      Sample.world0 = (Ret tt, w')
    /\ remote_requests (trace w')
       = [search_msg Sample.self (lit "stderr");
          search_msg Sample.self (lit "returncode")].
Proof.
  intros reply.
  destruct (handle_app_remote_error_requests (Sample.env_reply reply)
              Sample.isprintable Sample.self
              [(lit "status", JBool true);
               (lit "d_ret", JDict [(lit "0", JDict [(lit "stderr", JStr [])])])]
              [(lit "status", JBool true);
               (lit "d_ret", JDict [(lit "0", JDict [(lit "stderr", JStr [])])])]
              [(lit "0", JDict [(lit "stderr", JStr [])])]
              [(lit "0", JDict [(lit "stderr", JStr [])])]
              Sample.world0)
    as (w' & Hrun & Htrace & _); try reflexivity.
  exists w'. split; [exact Hrun|]. rewrite Htrace. reflexivity.
Defined.

(** ** Resolving the input location *)

Lemma squashInvalidDir_file_split (self : PluginInstanceManager) :
  squashInvalidDir_file self
  = dirname (squashInvalidDir_file self) ++ lit "/squashInvalidDir.txt".
Proof.
  unfold squashInvalidDir_file. destruct (data_dir_shape self) as [p Hp].
  assert (path_join (data_dir self) (lit "squashInvalidDir/squashInvalidDir.txt")
          = p ++ 100%N :: lit "ata/squashInvalidDir/squashInvalidDir.txt") as ->.
  { rewrite Hp. unfold path_join.
    change (startswith [slash] (lit "squashInvalidDir/squashInvalidDir.txt")) with false.
    rewrite endswith_slash_snoc by done.
    assert (bool_decide ((p ++ lit "dat") ++ [97%N] = []) = false) as ->.
    { apply bool_decide_eq_false. by destruct p. }
    cbv iota. cbn [orb]. rewrite <- !app_assoc. reflexivity. }
  rewrite lstrip_by_app by done.
  set (q := lstrip_by is_slash p).
  replace (q ++ 100%N :: lit "ata/squashInvalidDir/squashInvalidDir.txt")
    with (((q ++ lit "data/squashInvalidDi") ++ [114%N]) ++ [slash]
          ++ lit "squashInvalidDir.txt")
    by (rewrite <- !app_assoc; reflexivity).
  rewrite dirname_join by done. rewrite <- !app_assoc. reflexivity.
Qed.

Section Resolve.

Context (E : env).
Variable self : PluginInstanceManager.

Lemma swift_path_exists_run (path : str) (w : world) :
  swift_fault E (tick w) (OpPathExists path) = None ->
  swift_path_exists E path w
  = (Ret (negb (bool_decide (keys_with_prefix path (objects w) = []))),
     World (S (tick w)) (objects w) (dirs w) (zips w) (inst w) (db w) (log w)
       (trace w ++ [EvSwift (OpPathExists path)])).
Proof. intros H. swift_unfold. msimpl. rewrite H. reflexivity. Qed.

Lemma swift_path_exists_fails (path detail : str) (w : world) :
  swift_fault E (tick w) (OpPathExists path) = Some detail ->
  swift_path_exists E path w
  = (Raise (ClientException detail),
     World (S (tick w)) (objects w) (dirs w) (zips w) (inst w) (db w) (log w)
       (trace w ++ [EvSwift (OpPathExists path)])).
Proof. intros H. swift_unfold. msimpl. rewrite H. reflexivity. Qed.

Lemma manage_app_service_fsplugin_inputdir_nonempty (inputdir : str) :
  lstrip_by is_dot (strip inputdir) <> [] ->
  manage_app_service_fsplugin_inputdir E self (JStr inputdir)
  = let str_inputdir := lstrip_by is_dot (strip inputdir) in
    try_ClientException
      (swift_path_exists E str_inputdir)
      (fun e =>
         logger ERROR (percent (lit "Swift storage error, detail: %s") [e]) [];;
         mret str_inputdir)
      (fun path_exists =>
         if path_exists : bool then mret str_inputdir
         else squash E str_inputdir (squashInvalidDir_file self)
                (lit "Path specified in object storage does not exist!")).
Proof.
  intros H. unfold manage_app_service_fsplugin_inputdir.
  by rewrite bool_decide_eq_false_2.
Qed.

(** The squash object is there already: nothing is uploaded. *)
Lemma squash_present (str_inputdir str_squashFile str_squashMsg : str) (w : world) :
  swift_fault E (tick w) (OpObjExists str_squashFile) = None ->
  is_Some (objects w !! str_squashFile) ->
  squash E str_inputdir str_squashFile str_squashMsg w
  = (Ret (dirname str_squashFile),
     World (S (tick w)) (objects w) (dirs w) (zips w) (inst w) (db w) (log w)
       (trace w ++ [EvSwift (OpObjExists str_squashFile)])).
Proof.
  intros Hex Hobj. swift_unfold. msimpl. rewrite Hex. msimpl.
  by rewrite bool_decide_eq_true_2.
Qed.

(** The squash object is not there: it is uploaded. *)
Lemma squash_absent (str_inputdir str_squashFile str_squashMsg : str) (w : world) :
  swift_fault E (tick w) (OpObjExists str_squashFile) = None ->
  swift_fault E (S (tick w))
    (OpUploadObj str_squashFile str_squashMsg (lit "text/plain")) = None ->
  objects w !! str_squashFile = None ->
  squash E str_inputdir str_squashFile str_squashMsg w
  = (Ret (dirname str_squashFile),
     World (S (S (tick w)))
       (<[str_squashFile := (str_squashMsg, lit "text/plain")]> (objects w))
       (dirs w) (zips w) (inst w) (db w) (log w)
       (trace w ++ [EvSwift (OpObjExists str_squashFile);
                    EvSwift (OpUploadObj str_squashFile str_squashMsg
                               (lit "text/plain"))])).
Proof.
  intros Hex Hup Hobj. swift_unfold. msimpl. rewrite Hex. msimpl.
  rewrite Hobj, bool_decide_eq_false_2 by (by intros [? ?]).
  cbn [negb]. msimpl. rewrite Hup. msimpl. by rewrite <- app_assoc.
Qed.

End Resolve.

(** X8. A path that exists in the object store is used as it is: for an
    input whose trimmed text (surrounding whitespace, then leading dots
    dropped) is not empty and is the prefix of a stored object,
    [manage_app_service_fsplugin_inputdir] returns the trimmed text after
    one call to the store, the existence check; nothing is uploaded and
    nothing is logged. *)
Theorem manage_app_service_fsplugin_inputdir_existing
    (E : env) (self : PluginInstanceManager) (inputdir : str) (w : world) :
  let str_inputdir := lstrip_by is_dot (strip inputdir) in
  str_inputdir <> [] ->
  swift_fault E (tick w) (OpPathExists str_inputdir) = None ->
  keys_with_prefix str_inputdir (objects w) <> [] ->
  exists w',
    manage_app_service_fsplugin_inputdir E self (JStr inputdir) w
    = (Ret str_inputdir, w')
    /\ trace w' = trace w ++ [EvSwift (OpPathExists str_inputdir)]
    /\ objects w' = objects w /\ log w' = log w.
Proof.
  intros str_inputdir Hne Hfault Hkeys.
  rewrite manage_app_service_fsplugin_inputdir_nonempty by done. cbv zeta.
  fold str_inputdir.
  erewrite try_ClientException_ret by (by apply swift_path_exists_run).
  rewrite bool_decide_eq_false_2 by done. cbn [negb].
  eexists. split; [reflexivity|]. done.
Qed.

Lemma manage_app_service_fsplugin_inputdir_existing_witness :
  fst (manage_app_service_fsplugin_inputdir (Sample.env_reply JNull) Sample.self
         (JStr (lit "  ..a/ ")) Sample.world_store)
  = Ret (lit "a/").
Proof.
  destruct (manage_app_service_fsplugin_inputdir_existing (Sample.env_reply JNull)
              Sample.self (lit "  ..a/ ") Sample.world_store)
    as (w' & -> & _).
  - by vm_compute.
  - reflexivity.
  - by vm_compute.
  - reflexivity.
Defined.

(** X9. When the existence check of the submitted path fails with a
    storage-client error, the error is logged and
    [manage_app_service_fsplugin_inputdir] returns the trimmed path; the
    squash object is neither looked for nor uploaded. *)
Theorem manage_app_service_fsplugin_inputdir_check_fails
    (E : env) (self : PluginInstanceManager) (inputdir detail : str) (w : world) :
  let str_inputdir := lstrip_by is_dot (strip inputdir) in
  str_inputdir <> [] ->
  swift_fault E (tick w) (OpPathExists str_inputdir) = Some detail ->
  exists w',
    manage_app_service_fsplugin_inputdir E self (JStr inputdir) w
    = (Ret str_inputdir, w')
    /\ trace w' = trace w ++ [EvSwift (OpPathExists str_inputdir)]
    /\ log w' = log w ++ [LogRecord ERROR (lit "Swift storage error, detail: " ++ detail) []]
    /\ objects w' = objects w.
Proof.
  intros str_inputdir Hne Hfault.
  rewrite manage_app_service_fsplugin_inputdir_nonempty by done. cbv zeta.
  fold str_inputdir.
  erewrite try_ClientException_caught by (by apply swift_path_exists_fails).
  msimpl. rewrite percent_storage_error.
  eexists. split; [reflexivity|]. done.
Qed.

Lemma manage_app_service_fsplugin_inputdir_check_fails_witness :
  let E := Env (fun _ _ _ => Some JNull)
             (fun _ op => match op with
                          | OpPathExists _ => Some (lit "Container HEAD failed")
                          | _ => None
                          end)
             (fun _ _ => None) (fun _ => 0) in
  fst (manage_app_service_fsplugin_inputdir E Sample.self
         (JStr (lit "foo/uploads")) Sample.world0)
  = Ret (lit "foo/uploads").
Proof.
  intros E.
  destruct (manage_app_service_fsplugin_inputdir_check_fails E Sample.self
              (lit "foo/uploads") (lit "Container HEAD failed") Sample.world0)
    as (w' & -> & _).
  - by vm_compute.
  - reflexivity.
  - reflexivity.
Defined.

(** X10. A path that does not exist in the object store is squashed: when
    no object has the trimmed path as prefix and no call to the store
    fails, [manage_app_service_fsplugin_inputdir] returns the directory of
    the squash file [<dir>/squashInvalidDir.txt], after uploading the
    squash message there unless an object is already stored under that
    key, which is then left as it is. *)
Theorem manage_app_service_fsplugin_inputdir_invalid
    (E : env) (self : PluginInstanceManager) (inputdir : str) (w : world) :
  let str_inputdir := lstrip_by is_dot (strip inputdir) in
  let file := squashInvalidDir_file self in
  let msg := lit "Path specified in object storage does not exist!" in
  str_inputdir <> [] ->
  keys_with_prefix str_inputdir (objects w) = [] ->
  swift_fault E (tick w) (OpPathExists str_inputdir) = None ->
  swift_fault E (S (tick w)) (OpObjExists file) = None ->
  swift_fault E (S (S (tick w))) (OpUploadObj file msg (lit "text/plain")) = None ->
  exists w',
    manage_app_service_fsplugin_inputdir E self (JStr inputdir) w
    = (Ret (dirname file), w')
    /\ file = dirname file ++ lit "/squashInvalidDir.txt"
    /\ (objects w !! file = None ->
        objects w' = <[file := (msg, lit "text/plain")]> (objects w))
    /\ (is_Some (objects w !! file) -> objects w' = objects w).
Proof.
  intros str_inputdir file msg Hne Hkeys Hcheck Hex Hup.
  rewrite manage_app_service_fsplugin_inputdir_nonempty by done. cbv zeta.
  fold str_inputdir.
  erewrite try_ClientException_ret by (by apply swift_path_exists_run).
  rewrite Hkeys, bool_decide_eq_true_2 by done. cbn [negb].
  fold file msg.
  destruct (objects w !! file) as [o|] eqn:Hobj.
  - rewrite squash_present by (done || by rewrite Hobj).
    eexists. split; [reflexivity|].
    split; [apply squashInvalidDir_file_split|]. done.
  - rewrite squash_absent by done.
    eexists. split; [reflexivity|].
    split; [apply squashInvalidDir_file_split|].
    split; [done|]. by intros [? ?].
Qed.

Lemma manage_app_service_fsplugin_inputdir_invalid_witness :
  let r := manage_app_service_fsplugin_inputdir (Sample.env_reply JNull) Sample.self
             (JStr (lit "foo/nowhere")) Sample.world_store in
  fst r = Ret (lit "home/localuser/data/squashInvalidDir")
  /\ fst <$> (objects (snd r) !! lit "home/localuser/data/squashInvalidDir/squashInvalidDir.txt")
     = Some (lit "Path specified in object storage does not exist!").
Proof.
  intros r. subst r.
  destruct (manage_app_service_fsplugin_inputdir_invalid (Sample.env_reply JNull)
              Sample.self (lit "foo/nowhere") Sample.world_store)
    as (w' & -> & _ & Habsent & _).
  - by vm_compute.
  - by vm_compute.
  - reflexivity.
  - reflexivity.
  - reflexivity.
  - cbn [fst snd]. split; [by vm_compute|].
    rewrite Habsent by (by vm_compute).
    change (squashInvalidDir_file Sample.self)
      with (lit "home/localuser/data/squashInvalidDir/squashInvalidDir.txt").
    by rewrite lookup_insert_eq.
Defined.

(** X11. Resolving an empty input twice.  After a resolution of an empty
    input during which no call to the store failed, a second one returns
    the same placeholder directory after the existence check of the
    squash object alone: nothing is uploaded again and the store is left
    as it is. *)
Theorem manage_app_service_fsplugin_inputdir_empty_again
    (E : env) (self : PluginInstanceManager) (inputdir inputdir' : str) (w : world) :
  let file := squashEmptyDir_file self in
  let first := manage_app_service_fsplugin_inputdir E self (JStr inputdir) w in
  lstrip_by is_dot (strip inputdir) = [] ->
  lstrip_by is_dot (strip inputdir') = [] ->
  swift_fault E (tick w) (OpObjExists file) = None ->
  swift_fault E (S (tick w))
    (OpUploadObj file (lit "Empty input dir.") (lit "text/plain")) = None ->
  swift_fault E (tick (snd first)) (OpObjExists file) = None ->
  exists w2,
    manage_app_service_fsplugin_inputdir E self (JStr inputdir') (snd first)
    = (fst first, w2)
    /\ fst first = Ret (dirname file)
    /\ trace w2 = trace (snd first) ++ [EvSwift (OpObjExists file)]
    /\ objects w2 = objects (snd first).
Proof.
  intros file first Hempty Hempty' Hex Hup Hex'. subst first.
  rewrite !manage_app_service_fsplugin_inputdir_empty in * by done.
  fold file in Hex' |- *.
  assert (exists w1,
            squash E [] file (lit "Empty input dir.") w = (Ret (dirname file), w1)
            /\ is_Some (objects w1 !! file)) as (w1 & Hfirst & Hobj).
  { destruct (objects w !! file) as [o|] eqn:Hobj.
    - rewrite squash_present by (done || by rewrite Hobj).
      eexists. split; [reflexivity|]. cbn [objects]. by rewrite Hobj.
    - rewrite squash_absent by done.
      eexists. split; [reflexivity|]. cbn [objects]. by rewrite lookup_insert_eq. }
  rewrite Hfirst in *. cbn [fst snd] in *.
  rewrite squash_present by done.
  eexists. split; [reflexivity|]. done.
Qed.

Lemma manage_app_service_fsplugin_inputdir_empty_again_witness :
  let E := Sample.env_reply JNull in
  let first := manage_app_service_fsplugin_inputdir E Sample.self (JStr []) Sample.world0 in
  let second := manage_app_service_fsplugin_inputdir E Sample.self (JStr (lit " . "))
                  (snd first) in
  fst second = fst first /\ objects (snd second) = objects (snd first).
Proof.
  intros E first second. subst second first.
  destruct (manage_app_service_fsplugin_inputdir_empty_again E Sample.self
              [] (lit " . ") Sample.world0)
    as (w2 & -> & _ & _ & Hobj); try reflexivity.
  by vm_compute.
Defined.

(** ** Reconciliation: what is saved, and when *)

Section Saved.

Context (E : env).
Variable zlib_compress : list byte -> list byte.
Variable isprintable : N -> bool.
Variable self : PluginInstanceManager.

(** The row [serialize_app_response_status] saves *)
Lemma serialize_app_response_status_saves
    (d_response summ jobOperation s1 s2 s3 s4 s5 : json) (w : world) :
  lookup_path d_response [lit "jobOperationSummary"] = Some summ ->
  lookup_path d_response [lit "jobOperation"] = Some jobOperation ->
  phase_status d_response [lit "pushPath"] = Some s1 ->
  phase_status d_response [lit "compute"; lit "submit"] = Some s2 ->
  phase_status d_response [lit "compute"; lit "return"] = Some s3 ->
  phase_status d_response [lit "pullPath"] = Some s4 ->
  phase_status d_response [lit "swiftPut"] = Some s5 ->
  let row := JobRow (status (inst w)) (end_date (inst w)) (json_dumps summ)
               (map Byte.to_N
                  (b64encode (zlib_compress (map byte_of_N (json_dumps jobOperation))))) in
  serialize_app_response_status zlib_compress isprintable d_response w
  = (Ret (normalized_status isprintable s1 s2 s3 s4 s5),
     World (tick w) (objects w) (dirs w) (zips w) row row (log w)
       (trace w ++ [EvSetattr FSummary; EvSetattr FRaw; EvSave row])).
Proof.
  intros Hsumm Hjo H1 H2 H3 H4 H5 row.
  destruct (container_logs_run d_response w) as [logs Hlogs].
  pose proof (lift_outcome_run _ _ w
                (json_zipToStr_returns zlib_compress jobOperation)) as Hraw.
  unfold serialize_app_response_status.
  eapply run_bind_eq; [apply getitem_lookup; exact Hsumm|]. cbv beta.
  eapply run_bind_eq; [apply getitem_lookup; exact Hjo|]. cbv beta.
  eapply run_bind_eq; [exact Hraw|]. cbv beta.
  eapply run_bind_eq; [exact Hlogs|]. cbv beta.
  do 3 mstep.
  rewrite (status_actions_run isprintable d_response s1 s2 s3 s4 s5) by done.
  rewrite <- !app_assoc. reflexivity.
Qed.

End Saved.

Lemma json_unzipStr_blob (zlib_compress : list byte -> list byte)
    (zlib_decompress : list byte -> option (list byte)) (v : json) :
  json_ok v = true ->
  zlib_decompress (zlib_compress (map byte_of_N (json_dumps v)))
  = Some (map byte_of_N (json_dumps v)) ->
  json_unzipStr zlib_decompress
    (map Byte.to_N (b64encode (zlib_compress (map byte_of_N (json_dumps v)))))
  = Some v.
Proof.
  intros Hok Hzlib. unfold json_unzipStr.
  rewrite b64decode_b64encode. cbn [mbind option_bind].
  rewrite Hzlib. cbn [mbind option_bind].
  rewrite utf8_decode_ascii by apply is_ascii_json_dumps.
  cbn [mbind option_bind]. by apply json_loads_dumps.
Qed.

(** X12. What a status check leaves in the job store can be read back.
    For a response that holds [jobOperation] and the five phase statuses,
    [serialize_app_response_status] saves the job with the status and the
    end date it had, a [summary] that [json.loads] reads back as the
    [jobOperationSummary] of the response, and a [raw] blob that decodes
    (base64, zlib, UTF-8, JSON) to its [jobOperation]; both values being
    JSON values without surrogate pairs, and zlib giving back what it
    compressed. *)
Theorem serialize_app_response_status_saved
    (zlib_compress : list byte -> list byte)
    (zlib_decompress : list byte -> option (list byte))
    (isprintable : N -> bool)
    (d_response summ jobOperation s1 s2 s3 s4 s5 : json) (w : world) :
  let w' := snd (serialize_app_response_status zlib_compress isprintable d_response w) in
  lookup_path d_response [lit "jobOperationSummary"] = Some summ ->
  lookup_path d_response [lit "jobOperation"] = Some jobOperation ->
  phase_status d_response [lit "pushPath"] = Some s1 ->
  phase_status d_response [lit "compute"; lit "submit"] = Some s2 ->
  phase_status d_response [lit "compute"; lit "return"] = Some s3 ->
  phase_status d_response [lit "pullPath"] = Some s4 ->
  phase_status d_response [lit "swiftPut"] = Some s5 ->
  json_ok summ = true -> json_ok jobOperation = true ->
  (forall text, utf8_encode (json_dumps jobOperation) = Some text ->
                zlib_decompress (zlib_compress text) = Some text) ->
  db w' = inst w'
  /\ status (db w') = status (inst w) /\ end_date (db w') = end_date (inst w)
  /\ json_loads (summary (db w')) = Some summ
  /\ json_unzipStr zlib_decompress (raw (db w')) = Some jobOperation.
Proof.
  intros w' Hsumm Hjo H1 H2 H3 H4 H5 Hoks Hokj Hzlib. subst w'.
  rewrite (serialize_app_response_status_saves zlib_compress isprintable
             d_response summ jobOperation s1 s2 s3 s4 s5 w) by done.
  cbn [snd db inst status end_date summary raw].
  repeat (split; [done|]). split.
  - by apply json_loads_dumps.
  - apply json_unzipStr_blob; [done|].
    apply Hzlib, utf8_encode_ascii, is_ascii_json_dumps.
Qed.

Lemma serialize_app_response_status_saved_witness :
  let w' := snd (serialize_app_response_status zlib_compress_stored Sample.isprintable
                   Sample.response_success Sample.world0) in
  json_unzipStr zlib_decompress_stored (raw (db w')) = Some Sample.job_operation
  /\ status (db w') = lit "started".
Proof.
  intros w'. subst w'.
  destruct (serialize_app_response_status_saved zlib_compress_stored
              zlib_decompress_stored Sample.isprintable Sample.response_success
              (JDict
                 [(lit "pushPath", Sample.status_of (JBool true));
                  (lit "compute",
                   JDict [(lit "submit", Sample.status_of (JBool true));
                          (lit "return",
                           Sample.status_of (JStr (lit "finished Successfully")))]);
                  (lit "pullPath", Sample.status_of (JBool true));
                  (lit "swiftPut", Sample.status_of (JBool true))])
              Sample.job_operation
              (JBool true) (JBool true) (JStr (lit "finished Successfully"))
              (JBool true) (JBool true) Sample.world0)
    as (_ & Hstatus & _ & _ & Hraw).
  1-7: reflexivity.
  - by vm_compute.
  - by vm_compute.
  - intros text Htext. vm_compute in Htext. injection Htext as <-. by vm_compute.
  - split; [exact Hraw | exact Hstatus].
Defined.

Lemma getitem_missing (items : list (str * json)) (key : str) (w : world) :
  assoc key items = None -> getitem (JDict items) key w = (Raise (KeyError key), w).
Proof. intros H. unfold getitem. by rewrite H. Qed.

Lemma getitem_found (items : list (str * json)) (key : str) (x : json) (w : world) :
  assoc key items = Some x -> getitem (JDict items) key w = (Ret x, w).
Proof. intros H. unfold getitem. by rewrite H. Qed.

(** X13. A response without [jobOperationSummary]: the status check
    raises KeyError right after the request; the job is left as it was,
    in memory and in the store, and nothing is saved. *)
Theorem check_plugin_instance_app_exec_status_no_summary
    (E : env) (zlib_compress : list byte -> list byte) (isprintable : N -> bool)
    (self : PluginInstanceManager) (items : list (str * json)) (w : world) :
  let url := compute_url (c_plugin_inst self) in
  remote_reply E (tick w) url (status_msg self) = Some (JDict items) ->
  assoc (lit "jobOperationSummary") items = None ->
  exists w',
    check_plugin_instance_app_exec_status E zlib_compress isprintable self w
    = (Raise (KeyError (lit "jobOperationSummary")), w')
    /\ trace w' = trace w ++ [EvRemote url (status_msg self)]
    /\ inst w' = inst w /\ db w' = db w.
Proof.
  intros url Hreply Hmissing.
  destruct (call_app_service_dict E isprintable self _ _ w Hreply)
    as (w1 & Hcall & Htr & Hinst & Hdb & _).
  unfold check_plugin_instance_app_exec_status,
    check_plugin_instance_app_exec_status_with.
  eexists. split.
  - eapply run_bind_eq; [exact Hcall|]. cbv beta.
    mstep.
    eapply run_bind_raise. unfold serialize_app_response_status.
    eapply run_bind_raise. by apply getitem_missing.
  - cbn [trace inst db]. done.
Qed.

Lemma check_plugin_instance_app_exec_status_no_summary_witness :
  let reply := JDict [(lit "status", JBool false)] in
  let r := check_plugin_instance_app_exec_status (Sample.env_reply reply)
             zlib_compress_stored Sample.isprintable Sample.self Sample.world0 in
  fst r = Raise (KeyError (lit "jobOperationSummary"))
  /\ db (snd r) = Sample.row_started.
Proof.
  intros reply r. subst r.
  destruct (check_plugin_instance_app_exec_status_no_summary
              (Sample.env_reply reply) zlib_compress_stored Sample.isprintable
              Sample.self [(lit "status", JBool false)] Sample.world0)
    as (w' & -> & _ & _ & Hdb); try reflexivity.
  split; [reflexivity | exact Hdb].
Defined.

(** X14. A response whose summary lacks a phase: the summary and the raw
    blob are saved before the phase statuses are read, so that when
    [jobOperationSummary] holds no [pushPath] the status check raises
    KeyError with both fields already saved; the status and the end date
    of the job are left as they were. *)
Theorem check_plugin_instance_app_exec_status_no_phase
    (E : env) (zlib_compress : list byte -> list byte) (isprintable : N -> bool)
    (self : PluginInstanceManager) (items phases : list (str * json))
    (jobOperation : json) (w : world) :
  let url := compute_url (c_plugin_inst self) in
  let row := JobRow (status (inst w)) (end_date (inst w)) (json_dumps (JDict phases))
               (map Byte.to_N
                  (b64encode (zlib_compress (map byte_of_N (json_dumps jobOperation))))) in
  remote_reply E (tick w) url (status_msg self) = Some (JDict items) ->
  assoc (lit "jobOperationSummary") items = Some (JDict phases) ->
  assoc (lit "jobOperation") items = Some jobOperation ->
  assoc (lit "pushPath") phases = None ->
  exists w',
    check_plugin_instance_app_exec_status E zlib_compress isprintable self w
    = (Raise (KeyError (lit "pushPath")), w')
    /\ trace w' = trace w ++ [EvRemote url (status_msg self);
                              EvSetattr FSummary; EvSetattr FRaw; EvSave row]
    /\ inst w' = row /\ db w' = row.
Proof.
  intros url row Hreply Hsumm Hjo Hmissing.
  destruct (call_app_service_dict E isprintable self _ _ w Hreply)
    as (w1 & Hcall & Htr & Hinst & Hdb & _).
  destruct (container_logs_run (JDict items)
              (snd (logger INFO (lit "d_response = %s") [AJson 4 true (JDict items)] w1)))
    as [logs Hlogs].
  unfold check_plugin_instance_app_exec_status,
    check_plugin_instance_app_exec_status_with.
  eexists. split.
  - eapply run_bind_eq; [exact Hcall|]. cbv beta.
    mstep.
    eapply run_bind_raise. unfold serialize_app_response_status.
    eapply run_bind_eq; [by apply getitem_found|]. cbv beta.
    eapply run_bind_eq; [by apply getitem_found|]. cbv beta.
    eapply run_bind_eq;
      [apply lift_outcome_run, json_zipToStr_returns|]. cbv beta.
    eapply run_bind_eq; [exact Hlogs|]. cbv beta.
    do 3 mstep.
    rewrite status_actions_cons. eval_str_eqb. cbv iota.
    eapply run_bind_raise.
    eapply run_bind_eq; [by apply getitem_found|]. cbv beta.
    eapply run_bind_raise. by apply getitem_missing.
  - cbn [trace inst db]. rewrite Htr, Hinst, <- !app_assoc. done.
Qed.

Lemma check_plugin_instance_app_exec_status_no_phase_witness :
  let reply := JDict [(lit "jobOperation", Sample.job_operation);
                      (lit "jobOperationSummary", JDict [])] in
  let r := check_plugin_instance_app_exec_status (Sample.env_reply reply)
             zlib_compress_stored Sample.isprintable Sample.self Sample.world0 in
  fst r = Raise (KeyError (lit "pushPath"))
  /\ summary (db (snd r)) = lit "{}".
Proof.
  intros reply r. subst r.
  destruct (check_plugin_instance_app_exec_status_no_phase
              (Sample.env_reply reply) zlib_compress_stored Sample.isprintable
              Sample.self
              [(lit "jobOperation", Sample.job_operation);
               (lit "jobOperationSummary", JDict [])] [] Sample.job_operation
              Sample.world0)
    as (w' & -> & _ & _ & Hdb); try reflexivity.
  cbn [fst snd]. split; [reflexivity | by rewrite Hdb].
Defined.

(** X15. A job that has not finished.  When the normalized status of a
    well-formed response does not contain [swiftPut:True], the status
    check saves the summary and the raw blob and nothing else: no output
    file is registered, and the status and the end date of the job stay
    as they were. *)
Theorem check_plugin_instance_app_exec_status_pending
    (E : env) (zlib_compress : list byte -> list byte) (isprintable : N -> bool)
    (self : PluginInstanceManager)
    (d_response summ jobOperation s1 s2 s3 s4 s5 : json) (w : world) :
  let url := compute_url (c_plugin_inst self) in
  remote_reply E (tick w) url (status_msg self) = Some d_response ->
  lookup_path d_response [lit "jobOperationSummary"] = Some summ ->
  lookup_path d_response [lit "jobOperation"] = Some jobOperation ->
  phase_status d_response [lit "pushPath"] = Some s1 ->
  phase_status d_response [lit "compute"; lit "submit"] = Some s2 ->
  phase_status d_response [lit "compute"; lit "return"] = Some s3 ->
  phase_status d_response [lit "pullPath"] = Some s4 ->
  phase_status d_response [lit "swiftPut"] = Some s5 ->
  str_in (lit "swiftPut:True") (normalized_status isprintable s1 s2 s3 s4 s5) = false ->
  exists w' row,
    check_plugin_instance_app_exec_status E zlib_compress isprintable self w
    = (Ret tt, w')
    /\ trace w' = trace w ++ [EvRemote url (status_msg self);
                              EvSetattr FSummary; EvSetattr FRaw; EvSave row]
    /\ registrations (trace w') = registrations (trace w)
    /\ status (inst w') = status (inst w) /\ end_date (inst w') = end_date (inst w)
    /\ db w' = inst w'.
Proof.
  intros url Hreply Hsumm Hjo H1 H2 H3 H4 H5 Hpending.
  destruct (call_app_service_run E isprintable self _ _ _ _ _ w Hreply Hjo)
    as (w1 & Hcall & Htr1 & Hinst1 & Htick1 & _).
  pose proof (serialize_app_response_status_saves zlib_compress isprintable
                d_response summ jobOperation s1 s2 s3 s4 s5
                (snd (logger INFO (lit "d_response = %s") [AJson 4 true d_response] w1))
                Hsumm Hjo H1 H2 H3 H4 H5) as Hser.
  cbv zeta in Hser. cbn [logger snd inst trace tick objects dirs zips db log] in Hser.
  unfold check_plugin_instance_app_exec_status,
    check_plugin_instance_app_exec_status_with.
  eapply ex_intro. eapply ex_intro. split.
  - eapply run_bind_eq; [exact Hcall|]. cbv beta.
    mstep.
    eapply run_bind_eq; [exact Hser|]. cbv beta.
    do 3 mstep.
    rewrite Hpending. cbn [andb].
    mstep.
    rewrite normalized_status_not_finishedWithError. reflexivity.
  - cbn [trace inst db status end_date]. rewrite Htr1, Hinst1, <- !app_assoc.
    split; [reflexivity|]. split; [|done].
    unfold registrations. by rewrite omap_app, app_nil_r.
Qed.

Lemma check_plugin_instance_app_exec_status_pending_witness :
  let r := check_plugin_instance_app_exec_status
             (Sample.env_reply Sample.response_error) zlib_compress_stored
             Sample.isprintable Sample.self Sample.world0 in
  fst r = Ret tt
  /\ registrations (trace (snd r)) = []
  /\ status (inst (snd r)) = lit "started".
Proof.
  intros r. subst r.
  destruct (check_plugin_instance_app_exec_status_pending
              (Sample.env_reply Sample.response_error) zlib_compress_stored
              Sample.isprintable Sample.self Sample.response_error
              (JDict
                 [(lit "pushPath", Sample.status_of (JBool true));
                  (lit "compute",
                   JDict [(lit "submit", Sample.status_of (JBool true));
                          (lit "return",
                           Sample.status_of (JStr (lit "finishedWithError")))]);
                  (lit "pullPath", Sample.status_of (JBool false));
                  (lit "swiftPut", Sample.status_of (JBool false))])
              (JDict [(lit "info", JDict [])])
              (JBool true) (JBool true) (JStr (lit "finishedWithError"))
              (JBool false) (JBool false) Sample.world0)
    as (w' & row & -> & _ & Hreg & Hstatus & _); try reflexivity.
  cbn [fst snd]. split; [reflexivity|]. split; [exact Hreg | exact Hstatus].
Defined.

(** ** What a method leaves alone *)

Section Frame.

Variable R : world -> world -> Prop.
Hypothesis R_refl : forall w, R w w.
Hypothesis R_trans : forall a b c, R a b -> R b c -> R a c.

Lemma frame_bind {A B : Type} (m : M A) (f : A -> M B) (w : world) :
  R w (snd (m w)) ->
  (forall a w', m w = (Ret a, w') -> R w' (snd (f a w'))) ->
  R w (snd ((m ≫= f) w)).
Proof.
  unfold mbind, M_bind. destruct (m w) as [[a|e] w']; cbn [snd]; [|done].
  intros H1 H2. eapply R_trans; [exact H1 | by apply H2].
Qed.

Lemma frame_pure {A : Type} (m : M A) (w : world) :
  snd (m w) = w -> R w (snd (m w)).
Proof. intros ->. apply R_refl. Qed.

Lemma frame_try_ClientException {A B : Type} (body : M A) (handler : str -> M B)
    (orelse : A -> M B) (w : world) :
  R w (snd (body w)) ->
  (forall d w', R w' (snd (handler d w'))) ->
  (forall a w', R w' (snd (orelse a w'))) ->
  R w (snd (try_ClientException body handler orelse w)).
Proof.
  unfold try_ClientException. destruct (body w) as [[a|[]] w']; cbn [snd];
    intros H1 H2 H3; try done; eapply R_trans; eauto.
Qed.

Lemma frame_try_OSError (body : M unit) (handler : str -> M unit) (w : world) :
  R w (snd (body w)) ->
  (forall d w', R w' (snd (handler d w'))) ->
  R w (snd (try_OSError body handler w)).
Proof.
  unfold try_OSError. destruct (body w) as [[a|[]] w']; cbn [snd];
    intros H1 H2; try done; eapply R_trans; eauto.
Qed.

End Frame.

Lemma remote_requests_snoc (t : list event) (e : event) :
  match e with EvRemote _ _ => False | _ => True end ->
  remote_requests (t ++ [e]) = remote_requests t.
Proof.
  intros H. unfold remote_requests. rewrite omap_app.
  destruct e; cbn; try done; by rewrite app_nil_r.
Qed.

Lemma remote_requests_remote (t : list event) (url : str) (msg : json) :
  remote_requests (t ++ [EvRemote url msg]) = remote_requests t ++ [msg].
Proof. unfold remote_requests. by rewrite omap_app. Qed.

Lemma files_only_refl (w : world) : files_only w w.
Proof. by unfold files_only. Qed.

Lemma files_only_trans (a b c : world) :
  files_only a b -> files_only b c -> files_only a c.
Proof. unfold files_only. intros (?&?&?&?) (?&?&?&?). repeat split; congruence. Qed.

Lemma job_only_refl (w : world) : job_only w w.
Proof. by unfold job_only. Qed.

Lemma job_only_trans (a b c : world) :
  job_only a b -> job_only b c -> job_only a c.
Proof. unfold job_only. intros (?&?&?&?) (?&?&?&?). repeat split; congruence. Qed.

(** A step of the monad's plumbing keeps what the frame names. *)
Ltac frame_prim :=
  unfold files_only, job_only;
  msimpl; rewrite ?remote_requests_snoc by exact I; done.

Section ArchiveFrame.

Context (E : env).
Variable self : PluginInstanceManager.

Lemma files_only_swift_call {A : Type} (op : swift_op) (k : M A) (w : world) :
  (forall w', files_only w' (snd (k w'))) ->
  files_only w (snd (swift_call E op k w)).
Proof.
  intros Hk. unfold swift_call.
  apply (frame_bind _ files_only_trans); [frame_prim|]. intros t w1 _.
  apply (frame_bind _ files_only_trans); [frame_prim|]. intros [] w2 _.
  destruct (swift_fault E t op); [frame_prim | apply Hk].
Qed.

Lemma files_only_writestr (zp arcname data : str) (w : world) :
  files_only w (snd (ZipFile_writestr zp arcname data w)).
Proof. unfold ZipFile_writestr. frame_prim. Qed.

Lemma files_only_download_loop (zp : str) (l_ls : list str) :
  forall (contents : option str) (w : world),
    files_only w (snd (download_loop E self zp l_ls contents w)).
Proof.
  induction l_ls as [|k rest IH]; intros contents w; cbn [download_loop];
    [frame_prim|].
  apply (frame_bind _ files_only_trans).
  - apply (frame_try_ClientException _ files_only_trans).
    + apply files_only_swift_call. intros w'. unfold mbind, M_bind, get_world.
      destruct (objects w' !! k) as [[? ?]|]; frame_prim.
    + intros d w'. frame_prim.
    + intros a w'. frame_prim.
  - intros c w1 _.
    apply (frame_bind _ files_only_trans); [destruct c; frame_prim|].
    intros data w2 _.
    apply (frame_bind _ files_only_trans); [apply files_only_writestr|].
    intros [] w3 _. apply IH.
Qed.

Lemma files_only_paths_loop (zp : str) (swift_paths : list str) :
  forall (contents : option str) (w : world),
    files_only w (snd (paths_loop E self zp swift_paths contents w)).
Proof.
  induction swift_paths as [|p rest IH]; intros contents w; cbn [paths_loop];
    [frame_prim|].
  apply (frame_bind _ files_only_trans).
  - apply (frame_try_ClientException _ files_only_trans).
    + apply files_only_swift_call. intros w'. frame_prim.
    + intros d w'. frame_prim.
    + intros a w'. frame_prim.
  - intros l_ls w1 _.
    apply (frame_bind _ files_only_trans); [apply files_only_download_loop|].
    intros c w2 _. apply IH.
Qed.

End ArchiveFrame.

(** X16. [create_zip_file] only reads from the object store: whatever
    the prefixes, the state of the store and of the local files, and
    whatever fails on the way (also when the method ends with an
    exception), the objects stored are the same afterwards, the job is
    left as it was, in memory and in the job store, and no request is sent
    to the remote service. *)
Theorem create_zip_file_reads_only
    (E : env) (self : PluginInstanceManager) (swift_paths : list str) (w : world) :
  let w' := snd (create_zip_file E self swift_paths w) in
  objects w' = objects w /\ inst w' = inst w /\ db w' = db w
  /\ remote_requests (trace w') = remote_requests (trace w).
Proof.
  intros w'. subst w'. change (files_only w (snd (create_zip_file E self swift_paths w))).
  unfold create_zip_file.
  apply (frame_bind _ files_only_trans); [frame_prim|]. intros present w1 _.
  apply (frame_bind _ files_only_trans).
  { destruct present; cbn [negb]; [frame_prim|].
    apply (frame_try_OSError _ files_only_trans).
    - unfold os_makedirs.
      apply (frame_bind _ files_only_trans); [frame_prim|]. intros t w2 _.
      apply (frame_bind _ files_only_trans); [frame_prim|]. intros [] w3 _.
      destruct (makedirs_fault E t (data_dir self)); frame_prim.
    - intros d w2. frame_prim. }
  intros [] w2 _.
  apply (frame_bind _ files_only_trans).
  { unfold ZipFile_open_w, mbind, M_bind, get_world.
    destruct (_ || _); frame_prim. }
  intros [] w3 _.
  apply (frame_bind _ files_only_trans); [apply files_only_paths_loop|].
  intros c w4 _. frame_prim.
Qed.

Lemma call_app_service_frame (E : env) (isprintable : N -> bool)
    (self : PluginInstanceManager) (d_msg : json) (w : world) :
  let w' := snd (call_app_service E isprintable self d_msg w) in
  trace w' = trace w ++ [EvRemote (compute_url (c_plugin_inst self)) d_msg]
  /\ objects w' = objects w /\ dirs w' = dirs w /\ zips w' = zips w.
Proof.
  unfold call_app_service, contains. msimpl.
  destruct (remote_reply E (tick w) _ d_msg) as [[ | b | n | s | l | d ]|];
    msimpl; try done.
  - destruct (str_in _ s); done.
  - destruct (existsb _ l); done.
  - destruct (existsb _ d); done.
Qed.

Lemma snd_bind {A B : Type} (m : M A) (f : A -> M B) (w : world) :
  snd ((m ≫= f) w)
  = match m w with
    | (Ret a, w1) => snd (f a w1)
    | (Raise _, w1) => w1
    end.
Proof. unfold mbind, M_bind. by destruct (m w) as [[a|e] w1]. Qed.

Section CheckFrame.

Context (E : env).
Variable zlib_compress : list byte -> list byte.
Variable isprintable : N -> bool.
Variable self : PluginInstanceManager.

Lemma status_token_pure (label : str) (holder : json) (acc : str) (w : world) :
  snd (status_token isprintable label holder acc w) = w.
Proof.
  unfold status_token. apply bind_pure; [apply getitem_pure | done].
Qed.

Lemma status_parts_pure (d_response : json) (str_action : str) (parts : list str) :
  forall (acc : str) (w : world),
    snd (status_parts isprintable d_response str_action parts acc w) = w.
Proof.
  induction parts as [|p rest IH]; intros acc w; cbn [status_parts]; [done|].
  do 3 (apply bind_pure; [intros; apply getitem_pure | intros ?]).
  apply bind_pure; [intros; apply status_token_pure | intros ? ?; apply IH].
Qed.

Lemma status_actions_pure (d_response : json) (actions : list str) :
  forall (acc : str) (w : world),
    snd (status_actions isprintable d_response actions acc w) = w.
Proof.
  induction actions as [|a rest IH]; intros acc w; [done|].
  rewrite status_actions_cons.
  apply bind_pure; [|intros ? ?; apply IH].
  intros w0. destruct (str_eqb a (lit "compute")); [apply status_parts_pure|].
  do 2 (apply bind_pure; [intros; apply getitem_pure | intros ?]).
  intros w1. apply status_token_pure.
Qed.

Lemma job_only_serialize (d_response : json) (w : world) :
  job_only w (snd (serialize_app_response_status zlib_compress isprintable
                     d_response w)).
Proof.
  unfold serialize_app_response_status.
  apply (frame_bind _ job_only_trans);
    [apply (frame_pure _ job_only_refl), getitem_pure|]. intros summ w1 _.
  apply (frame_bind _ job_only_trans);
    [apply (frame_pure _ job_only_refl), getitem_pure|]. intros jo w2 _.
  apply (frame_bind _ job_only_trans); [frame_prim|]. intros str_raw w3 _.
  apply (frame_bind _ job_only_trans).
  { destruct (container_logs_run d_response w3) as [v ->]. apply job_only_refl. }
  intros logs w4 _.
  apply (frame_bind _ job_only_trans); [frame_prim|]. intros [] w5 _.
  apply (frame_bind _ job_only_trans); [frame_prim|]. intros [] w6 _.
  apply (frame_bind _ job_only_trans); [frame_prim|]. intros [] w7 _.
  apply (frame_pure _ job_only_refl), status_actions_pure.
Qed.

(** After the request, the status check works on the job only. *)
Lemma job_only_after_request (d_response : json) (w : world) :
  job_only w
    (snd ((logger INFO (lit "d_response = %s") [AJson 4 true d_response];;
           str_responseStatus ←
             serialize_app_response_status zlib_compress isprintable d_response;
           logger INFO (lit "Current job remote status = %s") [AStr str_responseStatus];;
           w ← get_world;
           let str_DBstatus := status (inst w) in
           logger INFO (lit "Current job DB status = %s") [AStr str_DBstatus];;
           (if str_in (lit "swiftPut:True") str_responseStatus
               && negb (str_eqb str_DBstatus (lit "finishedSuccessfully"))
            then
              a ← getitem d_response (lit "jobOperation");
              b ← getitem a (lit "info");
              d_swiftState ← getitem b (lit "swiftPut");
              register_output_files d_swiftState;;
              set_status (lit "finishedSuccessfully");;
              logger INFO (lit "Saving job DB status   as '%s'")
                [AStr (lit "finishedSuccessfully")];;
              now ← timezone_now E;
              set_end_date now;;
              logger INFO (lit "Saving job DB end_date as '%s'") [ADatetime now];;
              save
            else mret tt);;
           if str_eqb str_responseStatus (lit "finishedWithError")
           then handle_app_remote_error E isprintable self
           else mret tt) w)).
Proof.
  apply (frame_bind _ job_only_trans); [frame_prim|]. intros [] w1 _.
  apply (frame_bind _ job_only_trans); [apply job_only_serialize|].
  intros s w2 Hs.
  apply serialize_app_response_status_not_finishedWithError in Hs.
  apply (frame_bind _ job_only_trans); [frame_prim|]. intros [] w3 _.
  apply (frame_bind _ job_only_trans); [frame_prim|]. intros w4 w5 _.
  cbv zeta.
  apply (frame_bind _ job_only_trans); [frame_prim|]. intros [] w6 _.
  apply (frame_bind _ job_only_trans).
  { destruct (_ && _); [|frame_prim].
    do 3 (apply (frame_bind _ job_only_trans);
          [apply (frame_pure _ job_only_refl), getitem_pure|]; intros ? ? _).
    do 6 (apply (frame_bind _ job_only_trans); [frame_prim|]; intros ? ? _).
    frame_prim. }
  intros [] w7 _. rewrite Hs. frame_prim.
Qed.

End CheckFrame.

(** X17. One request for every status check.  Whatever the remote service
    answers and whatever state the job is in (also when the check ends
    with an exception), [check_plugin_instance_app_exec_status] sends the
    status query and no other request, and touches neither the object
    store nor the local files. *)
Theorem check_plugin_instance_app_exec_status_one_request
    (E : env) (zlib_compress : list byte -> list byte) (isprintable : N -> bool)
    (self : PluginInstanceManager) (w : world) :
  let w' := snd (check_plugin_instance_app_exec_status E zlib_compress isprintable
                   self w) in
  remote_requests (trace w') = remote_requests (trace w) ++ [status_msg self]
  /\ objects w' = objects w /\ dirs w' = dirs w /\ zips w' = zips w.
Proof.
  intros w'. subst w'.
  unfold check_plugin_instance_app_exec_status,
    check_plugin_instance_app_exec_status_with.
  rewrite snd_bind.
  pose proof (call_app_service_frame E isprintable self (status_msg self) w)
    as (Htr & Hobj & Hdirs & Hzips).
  destruct (call_app_service E isprintable self (status_msg self) w) as [[d|e] w1];
    cbn [snd] in Htr, Hobj, Hdirs, Hzips; cbv beta.
  - match goal with
    | |- remote_requests (trace ?x) = _ /\ _ =>
        assert (job_only w1 x) as (Hobj' & Hdirs' & Hzips' & Hreq)
          by exact (job_only_after_request E zlib_compress isprintable self d w1)
    end.
    rewrite Hreq, Hobj', Hdirs', Hzips', Htr, remote_requests_remote. done.
  - rewrite Htr, remote_requests_remote. done.
Qed.

(** ** The staging directory cannot be created *)





(** ** A path value that is no string *)

(** X19. When the value submitted for the last path parameter is not a
    string, a job without a previous job is not submitted:
    [run_plugin_instance_app] raises AttributeError (from
    [inputdir.strip()]) before anything is sent or stored. *)
Theorem run_plugin_instance_app_path_not_str
    (E : env) (isprintable : N -> bool) (self : PluginInstanceManager)
    (parameter_dict : list (str * json)) (nm : str) (v : json) (w : world) :
  let db_parameters := parameters (plugin (c_plugin_inst self)) in
  previous (c_plugin_inst self) = None ->
  NoDup (map fst parameter_dict) ->
  last (filter (fun kv => store_path db_parameters kv.1 = true) parameter_dict)
  = Some (nm, v) ->
  (forall s, v <> JStr s) ->
  run_plugin_instance_app E isprintable self parameter_dict w
  = (Raise AttributeError, w).
Proof.
  intros db_parameters Hprev Hnd Hlast Hv.
  destruct (scan_parameter_dict_paths db_parameters parameter_dict
              (map fst parameter_dict) (ArgState (initial_app_args self) [] []))
    as (st & Hscan & Hpaths); [done|].
  unfold run_plugin_instance_app. fold db_parameters. rewrite Hscan, Hprev.
  erewrite run_bind by reflexivity. cbv beta iota.
  rewrite Hpaths. cbn [path_param_names app].
  rewrite (last_path_value_filter (store_path db_parameters)) by done.
  rewrite Hlast. cbn [snd].
  eapply run_bind_raise. eapply run_bind_eq; [reflexivity|]. cbv beta.
  unfold manage_app_service_fsplugin_inputdir.
  destruct v; try reflexivity. by destruct (Hv s).
Qed.

Lemma run_plugin_instance_app_path_not_str_witness :
  run_plugin_instance_app (Sample.env_reply JNull) Sample.isprintable Sample.self
    [(lit "dir", JInt 7)] Sample.world0
  = (Raise AttributeError, Sample.world0).
Proof.
  apply (run_plugin_instance_app_path_not_str (Sample.env_reply JNull)
           Sample.isprintable Sample.self [(lit "dir", JInt 7)] (lit "dir") (JInt 7)
           Sample.world0).
  - reflexivity.
  - apply (bool_decide_unpack (NoDup _)). vm_compute. exact I.
  - reflexivity.
  - intros s. discriminate.
Defined.

(** ** Submitting a job keeps what is stored *)

Lemma objects_kept_refl (w : world) : objects_kept w w.
Proof. by unfold objects_kept. Qed.

Lemma objects_kept_trans (a b c : world) :
  objects_kept a b -> objects_kept b c -> objects_kept a c.
Proof.
  unfold objects_kept. intros (Hab&?&?&?&?) (Hbc&?&?&?&?).
  split; [intros k o Hk; by apply Hbc, Hab|]. repeat split; congruence.
Qed.

Ltac kept_prim := unfold objects_kept; msimpl; done.

Section SubmitFrame.

Context (E : env).
Variable isprintable : N -> bool.
Variable self : PluginInstanceManager.

Lemma call_app_service_keeps (d_msg : json) (w : world) :
  objects_kept w (snd (call_app_service E isprintable self d_msg w)).
Proof.
  unfold objects_kept, call_app_service, contains. msimpl.
  destruct (remote_reply E (tick w) _ d_msg) as [[ | b | n | s | l | d ]|];
    msimpl; try done.
  - destruct (str_in _ s); done.
  - destruct (existsb _ l); done.
  - destruct (existsb _ d); done.
Qed.

Lemma objects_kept_swift_call {A : Type} (op : swift_op) (k : M A) (w : world) :
  (forall w', objects w' = objects w -> objects_kept w' (snd (k w'))) ->
  objects_kept w (snd (swift_call E op k w)).
Proof.
  intros Hk. unfold swift_call.
  apply (frame_bind _ objects_kept_trans); [kept_prim|]. intros t w1 H1.
  apply (frame_bind _ objects_kept_trans); [kept_prim|]. intros [] w2 H2.
  destruct (swift_fault E t op); [kept_prim|]. apply Hk.
  unfold next_tick in H1. unfold emit in H2.
  injection H1 as _ <-. injection H2 as <-. reflexivity.
Qed.

Lemma swift_obj_exists_value (obj_path : str) (present : bool) (w w' : world) :
  swift_obj_exists E obj_path w = (Ret present, w') ->
  present = bool_decide (is_Some (objects w' !! obj_path)).
Proof.
  swift_unfold. msimpl. destruct (swift_fault E (tick w) _); msimpl; [done|].
  by intros [= <- <-].
Qed.

Lemma objects_kept_squash (str_inputdir str_squashFile str_squashMsg : str)
    (w : world) :
  objects_kept w (snd (squash E str_inputdir str_squashFile str_squashMsg w)).
Proof.
  unfold squash.
  apply (frame_try_ClientException _ objects_kept_trans);
    [|intros; kept_prim|intros; kept_prim].
  apply (frame_bind _ objects_kept_trans).
  - apply objects_kept_swift_call. intros w' _. kept_prim.
  - intros present w1 Hpresent. apply swift_obj_exists_value in Hpresent.
    destruct present; cbn [negb]; [kept_prim|].
    symmetry in Hpresent. apply bool_decide_eq_false in Hpresent.
    apply objects_kept_swift_call. intros w2 Hw2.
    unfold objects_kept. msimpl. split; [|done].
    intros k o Hk. rewrite Hw2 in Hk.
    rewrite lookup_insert_ne; [by rewrite Hw2|].
    intros <-. apply Hpresent. by rewrite Hk.
Qed.

Lemma objects_kept_manage (inputdir : json) (w : world) :
  objects_kept w (snd (manage_app_service_fsplugin_inputdir E self inputdir w)).
Proof.
  unfold manage_app_service_fsplugin_inputdir.
  destruct inputdir as [ | | | s | | ]; try kept_prim.
  destruct (negb _); [|apply objects_kept_squash].
  apply (frame_try_ClientException _ objects_kept_trans).
  - apply objects_kept_swift_call. intros w' _. kept_prim.
  - intros. kept_prim.
  - intros [] w'; [kept_prim | apply objects_kept_squash].
Qed.

Lemma objects_kept_send_coordinate (st : arg_state) (str_inputdir : str) (w : world) :
  objects_kept w (snd (send_coordinate E isprintable self st str_inputdir w)).
Proof.
  unfold send_coordinate. cbv zeta.
  apply (frame_bind _ objects_kept_trans); [kept_prim|]. intros [] w1 _.
  apply (frame_bind _ objects_kept_trans); [apply call_app_service_keeps|].
  intros r w2 _. kept_prim.
Qed.

End SubmitFrame.

(** X20. Submitting a job never changes or removes what is stored.
    Whatever is submitted, whatever the state of the store and whatever
    fails on the way, after [run_plugin_instance_app] every object that was
    in the object store is still there with the same data (a squash object
    is uploaded only under a key that holds nothing), and the job and the
    local files are as they were. *)
Theorem run_plugin_instance_app_keeps_objects
    (E : env) (isprintable : N -> bool) (self : PluginInstanceManager)
    (parameter_dict : list (str * json)) (w : world) :
  let w' := snd (run_plugin_instance_app E isprintable self parameter_dict w) in
  (forall k o, objects w !! k = Some o -> objects w' !! k = Some o)
  /\ inst w' = inst w /\ db w' = db w /\ dirs w' = dirs w /\ zips w' = zips w.
Proof.
  intros w'. subst w'.
  change (objects_kept w
            (snd (run_plugin_instance_app E isprintable self parameter_dict w))).
  unfold run_plugin_instance_app. cbv zeta.
  apply (frame_bind _ objects_kept_trans); [kept_prim|]. intros st w1 _.
  apply (frame_bind _ objects_kept_trans).
  - destruct (previous (c_plugin_inst self)); [kept_prim|].
    apply (frame_bind _ objects_kept_trans); [kept_prim|]. intros v w2 _.
    apply objects_kept_manage.
  - intros str_inputdir w2 _. apply objects_kept_send_coordinate.
Qed.

(** ** The row saved when a job has finished *)

(** X21. What is saved on success.  For a job not yet marked
    [finishedSuccessfully] and a well-formed response whose normalized
    status contains [swiftPut:True], the status check ends with the job
    saved: the row in the job store equals the job in memory, with the
    status [finishedSuccessfully], the time of the check as end date, and
    the summary and the raw blob of the response. *)
Theorem check_plugin_instance_app_exec_status_saved
    (E : env) (zlib_compress : list byte -> list byte) (isprintable : N -> bool)
    (self : PluginInstanceManager)
    (d_response summ jobOperation s1 s2 s3 s4 s5 d_swiftState : json) (w : world) :
  let url := compute_url (c_plugin_inst self) in
  remote_reply E (tick w) url (status_msg self) = Some d_response ->
  lookup_path d_response [lit "jobOperationSummary"] = Some summ ->
  lookup_path d_response [lit "jobOperation"] = Some jobOperation ->
  phase_status d_response [lit "pushPath"] = Some s1 ->
  phase_status d_response [lit "compute"; lit "submit"] = Some s2 ->
  phase_status d_response [lit "compute"; lit "return"] = Some s3 ->
  phase_status d_response [lit "pullPath"] = Some s4 ->
  phase_status d_response [lit "swiftPut"] = Some s5 ->
  str_in (lit "swiftPut:True") (normalized_status isprintable s1 s2 s3 s4 s5) = true ->
  lookup_path d_response [lit "jobOperation"; lit "info"; lit "swiftPut"]
  = Some d_swiftState ->
  status (inst w) <> lit "finishedSuccessfully" ->
  exists w',
    check_plugin_instance_app_exec_status E zlib_compress isprintable self w
    = (Ret tt, w')
    /\ db w' = inst w'
    /\ db w' = JobRow (lit "finishedSuccessfully") (Some (clock E (S (tick w))))
                 (json_dumps summ)
                 (map Byte.to_N
                    (b64encode (zlib_compress (map byte_of_N (json_dumps jobOperation))))).
Proof.
  intros url Hreply Hsumm Hjo H1 H2 H3 H4 H5 Hput Hst Hstatus.
  destruct (call_app_service_run E isprintable self _ _ _ _ _ w Hreply Hjo)
    as (w1 & Hcall & Htr1 & Hinst1 & Htick1 & _).
  pose proof (serialize_app_response_status_saves zlib_compress isprintable
                d_response summ jobOperation s1 s2 s3 s4 s5
                (snd (logger INFO (lit "d_response = %s") [AJson 4 true d_response] w1))
                Hsumm Hjo H1 H2 H3 H4 H5) as Hser.
  cbv zeta in Hser. cbn [logger snd inst trace tick objects dirs zips db log] in Hser.
  apply lookup_path_cons in Hst as (a & Ha & Hst).
  apply lookup_path_cons in Hst as (b & Hb & Hst).
  assert (str_eqb (status (inst w1)) (lit "finishedSuccessfully") = false) as Hne.
  { unfold str_eqb. apply bool_decide_eq_false. congruence. }
  unfold check_plugin_instance_app_exec_status,
    check_plugin_instance_app_exec_status_with.
  eapply ex_intro. split.
  - eapply run_bind_eq; [exact Hcall|]. cbv beta.
    mstep.
    eapply run_bind_eq; [exact Hser|]. cbv beta.
    do 3 mstep.
    cbn [inst status]. rewrite Hput, Hne. cbn [andb negb].
    eapply run_bind_eq.
    { eapply run_bind_eq; [apply getitem_lookup; exact Ha|]. cbv beta.
      eapply run_bind_eq; [apply getitem_lookup; exact Hb|]. cbv beta.
      eapply run_bind_eq; [apply getitem_lookup; exact Hst|]. cbv beta.
      do 7 mstep. msimpl. reflexivity. }
    cbv beta.
    rewrite normalized_status_not_finishedWithError. reflexivity.
  - cbn [db inst]. by rewrite Htick1.
Qed.

Lemma check_plugin_instance_app_exec_status_saved_witness :
  let r := check_plugin_instance_app_exec_status
             (Sample.env_reply Sample.response_success) zlib_compress_stored
             Sample.isprintable Sample.self Sample.world0 in
  fst r = Ret tt
  /\ status (db (snd r)) = lit "finishedSuccessfully"
  /\ end_date (db (snd r)) = Some 1617996735.
Proof.
  intros r. subst r.
  destruct (check_plugin_instance_app_exec_status_saved
              (Sample.env_reply Sample.response_success) zlib_compress_stored
              Sample.isprintable Sample.self Sample.response_success
              (JDict
                 [(lit "pushPath", Sample.status_of (JBool true));
                  (lit "compute",
                   JDict [(lit "submit", Sample.status_of (JBool true));
                          (lit "return",
                           Sample.status_of (JStr (lit "finished Successfully")))]);
                  (lit "pullPath", Sample.status_of (JBool true));
                  (lit "swiftPut", Sample.status_of (JBool true))])
              Sample.job_operation
              (JBool true) (JBool true) (JStr (lit "finished Successfully"))
              (JBool true) (JBool true) Sample.swift_state Sample.world0)
    as (w' & -> & _ & Hdb).
  1-10: reflexivity.
  - discriminate.
  - cbn [fst snd]. rewrite Hdb. cbn [status end_date]. done.
Defined.

(** ** The error collector without [d_ret] *)

(** X22. When the answer to the first search is a dict without [d_ret],
    [handle_app_remote_error] raises KeyError after that one request: the
    search for the return code is never sent and nothing is logged about
    [deepVal]. *)
Theorem handle_app_remote_error_no_d_ret
    (E : env) (isprintable : N -> bool) (self : PluginInstanceManager)
    (r1 : list (str * json)) (w : world) :
  let url := compute_url (c_plugin_inst self) in
  remote_reply E (tick w) url (search_msg self (lit "stderr")) = Some (JDict r1) ->
  assoc (lit "d_ret") r1 = None ->
  exists w',
    handle_app_remote_error E isprintable self w = (Raise (KeyError (lit "d_ret")), w')
    /\ trace w' = trace w ++ [EvRemote url (search_msg self (lit "stderr"))]
    /\ filter (fun r => log_fmt r = lit "deepVal = %s") (drop (length (log w)) (log w'))
       = [].
Proof.
  intros url Hr1 Hmissing.
  destruct (call_app_service_dict E isprintable self _ _ w Hr1)
    as (w1 & Hcall1 & Htr1 & _ & _ & _ & _ & _ & _ & recs1 & Hlog1 & Hrecs1).
  eexists. split.
  - unfold handle_app_remote_error.
    eapply run_bind_eq; [exact Hcall1|]. cbv beta.
    eapply run_bind_raise. by apply getitem_missing.
  - split; [exact Htr1|].
    rewrite Hlog1, drop_app_length. apply filter_none.
    intros r Hr. by apply (proj1 (Forall_forall _ _) Hrecs1).
Qed.

Lemma handle_app_remote_error_no_d_ret_witness :
  let r := handle_app_remote_error (Sample.env_reply (JDict [])) Sample.isprintable
             Sample.self Sample.world0 in
  fst r = Raise (KeyError (lit "d_ret"))
  /\ remote_requests (trace (snd r)) = [search_msg Sample.self (lit "stderr")].
Proof.
  intros r. subst r.
  destruct (handle_app_remote_error_no_d_ret (Sample.env_reply (JDict []))
              Sample.isprintable Sample.self [] Sample.world0)
    as (w' & -> & Htrace & _); try reflexivity.
  cbn [fst snd]. split; [reflexivity|]. by rewrite Htrace.
Defined.

(** ** A root job whose input exists *)

(** X23. For a job without a previous job whose last submitted path value
    is a string that, once trimmed, is the prefix of a stored object:
    [run_plugin_instance_app] checks that the path exists and then sends
    the request with the trimmed path as input location; these are its
    only calls, and the object store is left as it is. *)
Theorem run_plugin_instance_app_existing_path
    (E : env) (isprintable : N -> bool) (self : PluginInstanceManager)
    (parameter_dict : list (str * json)) (nm inputdir : str) (w : world) :
  let db_parameters := parameters (plugin (c_plugin_inst self)) in
  let str_inputdir := lstrip_by is_dot (strip inputdir) in
  let w' := snd (run_plugin_instance_app E isprintable self parameter_dict w) in
  previous (c_plugin_inst self) = None ->
  NoDup (map fst parameter_dict) ->
  last (filter (fun kv => store_path db_parameters kv.1 = true) parameter_dict)
  = Some (nm, JStr inputdir) ->
  str_inputdir <> [] ->
  swift_fault E (tick w) (OpPathExists str_inputdir) = None ->
  keys_with_prefix str_inputdir (objects w) <> [] ->
  exists d_msg,
    trace w' = trace w ++ [EvSwift (OpPathExists str_inputdir);
                           EvRemote (compute_url (c_plugin_inst self)) d_msg]
    /\ lookup_path d_msg [lit "meta-data"; lit "localSource"; lit "path"]
       = Some (JStr str_inputdir)
    /\ objects w' = objects w.
Proof.
  intros db_parameters str_inputdir w' Hprev Hnd Hlast Hne Hfault Hkeys. subst w'.
  destruct (scan_parameter_dict_paths db_parameters parameter_dict
              (map fst parameter_dict) (ArgState (initial_app_args self) [] []))
    as (st & Hscan & Hpaths); [done|].
  assert (manage_app_service_fsplugin_inputdir E self (JStr inputdir) w
          = (Ret str_inputdir,
             World (S (tick w)) (objects w) (dirs w) (zips w) (inst w) (db w) (log w)
               (trace w ++ [EvSwift (OpPathExists str_inputdir)]))) as Hmanage.
  { rewrite manage_app_service_fsplugin_inputdir_nonempty by done. cbv zeta.
    fold str_inputdir.
    erewrite try_ClientException_ret by (by apply swift_path_exists_run).
    by rewrite bool_decide_eq_false_2. }
  unfold run_plugin_instance_app. fold db_parameters. rewrite Hscan, Hprev.
  erewrite run_bind by reflexivity. cbv beta iota.
  rewrite Hpaths. cbn [path_param_names app].
  rewrite (last_path_value_filter (store_path db_parameters)) by done.
  rewrite Hlast. cbn [snd].
  erewrite run_bind.
  2: { eapply run_bind_eq; [reflexivity|]. cbv beta. exact Hmanage. }
  match goal with
  | |- context [send_coordinate E isprintable self st str_inputdir ?w0] =>
      destruct (send_coordinate_trace E isprintable self st str_inputdir w0)
        as (d_msg & Htr & Hpath & Hobj)
  end.
  exists d_msg. cbn [trace objects] in Htr, Hobj.
  rewrite Htr, Hobj, <- app_assoc. done.
Qed.

Lemma run_plugin_instance_app_existing_path_witness :
  exists d_msg,
    remote_requests
      (trace (snd (run_plugin_instance_app (Sample.env_reply JNull)
                     Sample.isprintable Sample.self
                     [(lit "dir", JStr (lit " ..a/ "))] Sample.world_store)))
    = [d_msg]
    /\ lookup_path d_msg [lit "meta-data"; lit "localSource"; lit "path"]
       = Some (JStr (lit "a/")).
Proof.
  destruct (run_plugin_instance_app_existing_path (Sample.env_reply JNull)
              Sample.isprintable Sample.self
              [(lit "dir", JStr (lit " ..a/ "))] (lit "dir") (lit " ..a/ ")
              Sample.world_store)
    as (d_msg & Htr & Hpath & _).
  - reflexivity.
  - apply (bool_decide_unpack (NoDup _)). vm_compute. exact I.
  - reflexivity.
  - by vm_compute.
  - reflexivity.
  - by vm_compute.
  - exists d_msg. rewrite Htr. split; [reflexivity | exact Hpath].
Defined.
